(** * pyLiDAR-SLAM: the benchmark builder and the CT-ICP dataset wrapper

    A shallow embedding of [build_benchmark_md.py] (the walk over result
    directories, the per-entry aggregates, the ranking and the markdown
    rows) and of [slam/dataset/ct_icp_dataset.py] (the options, the
    construction of a loader, the sequence names it recognises, the
    datasets it returns for the requested names, and the random access
    to the frames of one sequence).

    Conventions of the embedding:
    - a Python [float] that holds a measurement is a rational [Q], compared
      with [==]; [float("inf")] is the extra point [Inf] of [xfloat];
      rounding, NaN and overflow are outside the model of the
      arithmetic. The ranking (lines 118-121) does no arithmetic: it is
      embedded a second time, in [Ranker], on every float that an entry
      may hold, with the infinities and NaN, and with [list.sort] as
      CPython runs it;
    - a Python exception is a value of [exn]; a computation that may raise
      has type [result A = exn + A] and is sequenced with [x ← c; k];
    - a [dict] iterated in insertion order is an association list, a
      [dict] that is only looked up is a [gmap];
    - functions of other modules ([compute_kitti_metrics],
      [read_poses_from_disk], [Path.resolve], the [pct] bindings) are
      Section variables. *)

From Stdlib Require Import QArith Qabs ZArith List String Ascii Lia Bool.
From Stdlib Require Import Sorted Permutation.
From stdpp Require Import base option gmap strings list sorting.
Import ListNotations.

Local Open Scope list_scope.
Local Open Scope string_scope.

(** ** Python values and exceptions *)

Module Py.

Inductive exn : Type :=
  | AssertionError (message : string)
  | ZeroDivisionError
  | KeyError (key : string)
  | IndexError
  | Raised (name : string).

Definition result (A : Type) : Type := (exn + A)%type.

Definition raise {A} (e : exn) : result A := inl e.

(** Sequencing: the first exception ends the computation. It is
    written [x ← c; k]. *)
#[export] Instance result_ret : MRet result := fun A a => inr a.
#[export] Instance result_bind : MBind result := fun A B k c =>
  match c with
  | inl e => inl e
  | inr a => k a
  end.

(** [for x in l: s = body(x, s)], where the body may raise. *)
Fixpoint for_each {A S} (l : list A) (body : A -> S -> result S) (s : S)
  : result S :=
  match l with
  | [] => mret s
  | x :: l' => s' ← body x s; for_each l' body s'
  end.

(** Modelled from the spec: [assert_debug(condition, message)] is
    defined in [slam/common/utils.py], which is not among the files at
    hand. It is taken to be the assertion that its callers rely on: it
    raises [AssertionError(message)] when the condition is false and
    does nothing otherwise. *)
Definition assert_debug (condition : bool) (message : string)
  : result unit :=
  if condition then mret tt else raise (AssertionError message).

(** [array[idx]] on the first axis of a numpy array: a negative index
    counts from the end, an index out of range raises. *)
Definition ndarray_item {A} (array : list A) (idx : Z) : result A :=
  let n := Z.of_nat (List.length array) in
  let i := if (idx <? 0)%Z then (idx + n)%Z else idx in
  if ((0 <=? i) && (i <? n))%Z then
    match nth_error array (Z.to_nat i) with
    | Some a => mret a
    | None => raise IndexError
    end
  else raise IndexError.

(** [float] with [float("inf")]. *)
Inductive xfloat : Type :=
  | Finite (q : Q)
  | Inf.

(** [a < b] on floats. *)
Definition Qltb (a b : Q) : bool := negb (Qle_bool b a).

Definition xlt (a b : xfloat) : bool :=
  match a, b with
  | Finite x, Finite y => Qltb x y
  | Finite _, Inf => true
  | Inf, _ => false
  end.

(** [a == b] on floats. *)
Definition xeq (a b : xfloat) : bool :=
  match a, b with
  | Finite x, Finite y => Qeq_bool x y
  | Inf, Inf => true
  | _, _ => false
  end.

(** [sum(l)]: starts from [0] and adds from the left. *)
Definition sum (l : list Q) : Q := fold_left Qplus l 0%Q.

(** [len(l)] as a number. *)
Definition len {A} (l : list A) : Q := inject_Z (Z.of_nat (List.length l)).

(** [a / len(l)], which raises when [l] is empty. *)
Definition div_len {A} (a : Q) (l : list A) : result Q :=
  match l with
  | [] => raise ZeroDivisionError
  | _ :: _ => mret (a / len l)%Q
  end.

(** [sep.join(l)]. *)
Fixpoint join (sep : string) (l : list string) : string :=
  match l with
  | [] => ""
  | [s] => s
  | s :: l' => s ++ sep ++ join sep l'
  end.

(** *** [list.sort(key=...)]

    The sort is ascending and stable, and compares keys with [<] only.
    It is embedded as an insertion sort of that kind: the elements are
    taken from the left, and each one is put behind every element of
    the sorted prefix whose key is not greater than its own. When [<] is
    a strict weak order on the keys, every stable sort gives this
    list. *)
Section Sort.
Context {A K : Type} (key : A -> K) (lt : K -> K -> bool).

Fixpoint insort (x : A) (sorted : list A) : list A :=
  match sorted with
  | [] => [x]
  | y :: rest =>
    if lt (key x) (key y) then x :: y :: rest
    else y :: insort x rest
  end.

Definition sort (l : list A) : list A :=
  fold_left (fun sorted x => insort x sorted) l [].
End Sort.

(** *** Decimal digits *)

Definition digit (n : Z) : ascii := ascii_of_nat (48 + Z.to_nat (n mod 10)).

(** The [width] lowest decimal digits of [n], highest first. *)
Fixpoint digits (width : nat) (n : Z) : string :=
  match width with
  | O => ""
  | S w => digits w (n / 10) ++ String (digit n) ""
  end.

Fixpoint count_digits (fuel : nat) (n : Z) : nat :=
  match fuel with
  | O => 1
  | S f => if (n <? 10)%Z then 1 else S (count_digits f (n / 10))
  end.

(** The number of decimal digits of [n >= 0] ([1] for [0]). *)
Definition ndigits (n : Z) : nat := count_digits (Z.to_nat (Z.log2 n)) n.

(** [str(n)] for an integer [n >= 0]. *)
Definition str (n : Z) : string := digits (ndigits n) n.

(** [f"{i:02}"] for an integer [i >= 0]: at least two digits, padded
    with zeros on the left. *)
Definition format_02 (i : nat) : string :=
  let n := Z.of_nat i in
  digits (Nat.max 2 (ndigits n)) n.

(** The integer nearest to [q], the even one at a tie. *)
Definition round_half_even (q : Q) : Z :=
  let n := Qnum q in
  let m := Zpos (Qden q) in
  let f := (n / m)%Z in
  match (2 * (n mod m) ?= m)%Z with
  | Lt => f
  | Gt => (f + 1)%Z
  | Eq => if Z.even f then f else (f + 1)%Z
  end.

(** [f"{x:.<d>f}"]: the sign, the integer part, and [d] digits behind
    the point, of [x] rounded to [d] decimal places. *)
Definition format_fixed (d : nat) (x : Q) : string :=
  let unit := (10 ^ Z.of_nat d)%Z in
  let scaled := round_half_even (Qabs x * inject_Z unit) in
  (if Qltb x 0 then "-" else "")
    ++ str (scaled / unit)
    ++ (match d with O => "" | S _ => "." end)
    ++ digits d scaled.

(** [os.path.split(path)[1]]: what follows the last ['/']. *)
Fixpoint basename (path : string) : string :=
  match path with
  | EmptyString => ""
  | String c rest =>
      if existsb (Ascii.eqb "/"%char) (list_ascii_of_string rest)
      then basename rest
      else if Ascii.eqb c "/"%char then rest else String c rest
  end.

(** *** Dictionaries that are iterated: association lists in insertion
    order, with the keys pairwise distinct. *)
Section Dict.
Context {V : Type}.

Fixpoint dict_get (d : list (string * V)) (k : string) : option V :=
  match d with
  | [] => None
  | (k', v) :: d' => if String.eqb k k' then Some v else dict_get d' k
  end.

(** [d[k] = v]: an existing key keeps its place. *)
Fixpoint dict_set (k : string) (v : V) (d : list (string * V))
  : list (string * V) :=
  match d with
  | [] => [(k, v)]
  | (k', v') :: d' =>
    if String.eqb k k' then (k, v) :: d' else (k', v') :: dict_set k v d'
  end.

(** [d[k]], which raises [KeyError] on a missing key. *)
Definition dict_item (d : list (string * V)) (k : string) : result V :=
  match dict_get d k with
  | Some v => mret v
  | None => raise (KeyError k)
  end.
End Dict.

End Py.

(** ** [build_benchmark_md.py] *)

Module Benchmark.
Import Py.

(** [folder_names = [f"{i:02}" for i in range(11)]] *)
Definition folder_names : list string := map format_02 (seq 0 11).

(** One element of the list [errors] that [compute_kitti_metrics]
    returns: the error of one segment. [seg_tr_err] is what
    [error["tr_err"][0]] reads. *)
Record segment_error : Type := {
  seg_tr_err : Q;
  seg_rot_err : Q;
  seg_len : Q
}.

(** The dictionary stored at [new_metrics[sequence_name]]. *)
Record sequence_metrics : Type := {
  tr_err : Q;
  rot_err : Q;
  errors : list segment_error;
  average_time : Q
}.

(** The dictionary [new_metrics] of one results directory: the keys
    that are sequence names, in insertion order, and the four named
    keys. *)
Record entry_metrics : Type := {
  sequences : list (string * sequence_metrics);
  AVG_tr_err : Q;
  AVG_time : Q;
  has_all_sequences : bool;
  command : option string
}.

(** What [yaml.safe_load] returns for a [metrics.yaml]: a mapping from
    sequence names to mappings from metric names to numbers. *)
Abbreviation metrics_yaml_dict := (gmap string (gmap string Q)).

Section BuildBenchmark.
(** The content of a pose file, and the poses read from it. *)
Context {File Poses : Type}.
Context (read_poses_from_disk : File -> result Poses).
Context (compute_kitti_metrics :
           Poses -> Poses -> result (Q * Q * list segment_error)).

(** The files looked for in [new_dir / sequence_name]: [None] is a
    file that does not exist. *)
Record sequence_folder : Type := {
  poses_file : option File;
  gt_poses_file : option File;
  metrics_yaml : option metrics_yaml_dict
}.

(** One directory that [os.walk] yields: its path, its sub-folders
    by name, and the content of [.hydra/overrides.yaml]. *)
Record directory : Type := {
  dir_path : string;
  folders : gmap string sequence_folder;
  overrides_file : option (list string)
}.

(** Lines 74-79: the time of one sequence. *)
Definition read_time_ms (sequence_name : string)
         (metrics_yaml : option metrics_yaml_dict) : Q :=
  match metrics_yaml with
  | Some metrics_dict =>
      match metrics_dict !! sequence_name with
      | Some seq_dict =>
          match seq_dict !! "nsecs_per_frame" with
          | Some nsecs_per_frame => nsecs_per_frame * 1000
          | None => -1
          end
      | None => -1
      end
  | None => -1
  end.

(** Line 63: the two pose files of a sequence when both exist, with
    the [metrics.yaml] next to them. *)
Definition pose_files (new_dir : directory) (sequence_name : string)
  : option (File * File * option metrics_yaml_dict) :=
  match folders new_dir !! sequence_name with
  | Some {| poses_file := Some poses_file;
            gt_poses_file := Some gt_poses_file;
            metrics_yaml := metrics_yaml |} =>
      Some (poses_file, gt_poses_file, metrics_yaml)
  | _ => None
  end.

(** Lines 69-88: the dictionary of one sequence. *)
Definition sequence_entry (sequence_name : string)
         (files : File * File * option metrics_yaml_dict)
  : result sequence_metrics :=
  let '(poses_file, gt_poses_file, metrics_yaml) := files in
  gt_poses ← read_poses_from_disk gt_poses_file;
  poses ← read_poses_from_disk poses_file;
  let time_ms := read_time_ms sequence_name metrics_yaml in
  '(tr_err, rot_err, errors) ← compute_kitti_metrics poses gt_poses;
  mret {| tr_err := tr_err; rot_err := rot_err;
          errors := errors; average_time := time_ms |}.

(** Lines 58-90: the body of the loop over [folder_names]. The state
    is [new_metrics] and [has_all_sequences]. *)
Definition visit_sequence (new_dir : directory) (sequence_name : string)
         (state : list (string * sequence_metrics) * bool)
  : result (list (string * sequence_metrics) * bool) :=
  let '(new_metrics, has_all_sequences) := state in
  match pose_files new_dir sequence_name with
  | Some files =>
      seq_metrics ← sequence_entry sequence_name files;
      mret (dict_set sequence_name seq_metrics new_metrics,
            has_all_sequences)
  | None => mret (new_metrics, false)
  end.

(** Lines 95-98: the average over the segments of all sequences. *)
Definition average_tr_err (new_metrics : list (string * sequence_metrics))
  : result Q :=
  let _errors := concat (map (fun kv => errors (snd kv)) new_metrics) in
  div_len (sum (map seg_tr_err _errors)) _errors.

(** Lines 100-101: the average of the times of the sequences. *)
Fixpoint average_times (new_metrics : list (string * sequence_metrics))
       (names : list string) : result (list Q) :=
  match names with
  | [] => mret []
  | seq :: names' =>
      m ← dict_item new_metrics seq;
      ts ← average_times new_metrics names';
      mret (average_time m :: ts)
  end.

Definition average_time_ms (new_metrics : list (string * sequence_metrics))
  : result Q :=
  ts ← average_times new_metrics folder_names;
  div_len (sum ts) folder_names.

(** Lines 48-52 *)
Definition is_metrics_dir (new_dir : directory) : bool :=
  existsb (fun folder => bool_decide (is_Some (folders new_dir !! folder)))
          folder_names.

(** Lines 110-115 *)
Definition command_line (new_dir : directory) : option string :=
  match overrides_file new_dir with
  | Some overrides_list =>
      Some ("`python run.py " ++ join " " overrides_list ++ "`")
  | None => None
  end.

(** Lines 92-107: the entry of a directory in which the sequences of
    [new_metrics] were found. The command is stored in the entry
    after the entry is put into [metrics]; both names refer to one
    dictionary, so the stored entry has it. *)
Definition make_entry (new_dir : directory)
         (new_metrics : list (string * sequence_metrics))
         (has_all_sequences : bool) : result entry_metrics :=
  if has_all_sequences then
    avg_tr_err ← average_tr_err new_metrics;
    avg_time ← average_time_ms new_metrics;
    mret {| sequences := new_metrics;
            AVG_tr_err := avg_tr_err * 100;
            AVG_time := avg_time;
            has_all_sequences := true;
            command := command_line new_dir |}
  else
    mret {| sequences := new_metrics;
            AVG_tr_err := -1;
            AVG_time := -1;
            has_all_sequences := false;
            command := command_line new_dir |}.

(** Lines 46-115: the body of the loop over [directory_list]. The
    state is [metrics]. *)
Definition visit_directory (new_dir : directory)
         (metrics : list (string * entry_metrics))
  : result (list (string * entry_metrics)) :=
  if is_metrics_dir new_dir then
    '(new_metrics, has_all_sequences) ←
      for_each folder_names (visit_sequence new_dir) ([], true);
    match new_metrics with
    | [] => mret metrics
    | _ :: _ =>
        entry ← make_entry new_dir new_metrics has_all_sequences;
        mret (dict_set (dir_path new_dir) entry metrics)
    end
  else mret metrics.

(** Lines 42-115 *)
Definition collect_metrics (directory_list : list directory)
  : result (list (string * entry_metrics)) :=
  for_each directory_list visit_directory [].
End BuildBenchmark.

(** Lines 118-120 *)
Definition db_metrics (metrics : list (string * entry_metrics))
  : list (string * Q * bool) :=
  map (fun '(path, entry_metrics) =>
         (path, AVG_tr_err entry_metrics, has_all_sequences entry_metrics))
      metrics.

(** Line 121: [lambda x: x[1] if x[2] else float("inf")], on the numbers
    that the walk stores. [Ranker.sort_key] is the key on every
    float. *)
Definition sort_key (x : string * Q * bool) : xfloat :=
  let '(_, avg, has_all) := x in
  if has_all then Finite avg else Inf.

(** [db_metrics] after [db_metrics.sort(key=...)]. *)
Definition sorted_db_metrics (metrics : list (string * entry_metrics))
  : list (string * Q * bool) :=
  sort sort_key xlt (db_metrics metrics).

Definition newline : string := String (ascii_of_nat 10) "".

Section Report.
(** [str(Path(path).resolve())] *)
Context (resolve : string -> string).

(** Line 124 *)
Definition header : list string :=
  ["## KITTI Benchmark:" ++ newline ++ newline ++ newline].

(** ["| ---: " * n] *)
Fixpoint repeat_string (s : string) (n : nat) : string :=
  match n with
  | O => ""
  | S n' => s ++ repeat_string s n'
  end.

(** Lines 125-127 *)
Definition main_table_head : list string :=
  ["#### Sorted trajectory error on all sequences:" ++ newline;
   "| **Sequence Folder**|" ++ join " | " folder_names
     ++ "  |  AVG  | AVG Time (ms) |" ++ newline;
   repeat_string "| ---: " (List.length folder_names + 3)
     ++ "|" ++ newline].

(** Lines 129-131 *)
Definition command_head : list string :=
  ["#### Command Lines for each entry" ++ newline;
   "| **Sequence Folder** | Command Line |" ++ newline;
   "| ---: | ---: |" ++ newline].

(** Line 139: one element of the list that is joined into
    [columns]. *)
Definition sequence_cell (_metrics : entry_metrics) (seq : string)
  : string :=
  match dict_get (sequences _metrics) seq with
  | Some seq_metrics => format_fixed 4 (tr_err seq_metrics * 100)
  | None => ""
  end.

(** Lines 138-139 *)
Definition columns (_metrics : entry_metrics) : string :=
  join " | " (map (sequence_cell _metrics) folder_names).

(** Line 141 *)
Definition path_link (path : string) : string :=
  "[" ++ basename path ++ "](" ++ resolve path ++ ")".

(** Line 142: [f'{avg:.4f}' if add_avg else ''] *)
Definition avg_cell (avg : Q) (add_avg : bool) : string :=
  if add_avg then format_fixed 4 avg else "".

(** Line 142: [f'{avg_time:.3f}'] *)
Definition avg_time_cell (_metrics : entry_metrics) : string :=
  format_fixed 3 (AVG_time _metrics).

(** Line 142 *)
Definition table_line (_metrics : entry_metrics)
         (entry : string * Q * bool) : string :=
  let '(path, avg, add_avg) := entry in
  "| " ++ path_link path ++ " | " ++ columns _metrics ++ " | "
    ++ avg_cell avg add_avg ++ " | " ++ avg_time_cell _metrics
    ++ " |" ++ newline.

(** Line 145 *)
Definition command_table_line (_metrics : entry_metrics) (path : string)
  : string :=
  "| " ++ path_link path ++ " |  "
    ++ (match command _metrics with Some c => c | None => "" end)
    ++ "   |" ++ newline.

(** Lines 133-145: the body of the loop over [db_metrics]. The state
    is [main_table_lines] and [command_lines]. *)
Definition visit_entry (metrics : list (string * entry_metrics))
         (entry : string * Q * bool)
         (state : list string * list string)
  : result (list string * list string) :=
  let '(main_table_lines, command_lines) := state in
  _metrics ← dict_item metrics (fst (fst entry));
  mret ((main_table_lines ++ [table_line _metrics entry])%list,
        (command_lines
           ++ [command_table_line _metrics (fst (fst entry))])%list).

(** Lines 118-155: the lines written to [benchmark.md]. *)
Definition write_benchmark (metrics : list (string * entry_metrics))
  : result (list string) :=
  '(main_table_lines, command_lines) ←
    for_each (sorted_db_metrics metrics) (visit_entry metrics)
             (main_table_head, command_head);
  mret (header ++ main_table_lines ++ command_lines)%list.
End Report.

(** [BenchmarkBuilderConfig] *)
Record BenchmarkBuilderConfig : Type := {
  root_dir : string;
  dataset : string;
  output_dir : string
}.

(** [build_benchmark(cfg)]: [directory_list] is what [os.walk] finds
    below [cfg.root_dir]; the result is the content of
    [benchmark.md]. *)
Definition build_benchmark {File Poses : Type}
           (read_poses_from_disk : File -> result Poses)
           (compute_kitti_metrics :
              Poses -> Poses -> result (Q * Q * list segment_error))
           (resolve : string -> string)
           (cfg : BenchmarkBuilderConfig)
           (directory_list : list (@directory File))
  : result (list string) :=
  _ ← assert_debug (String.eqb (dataset cfg) "kitti")
        "Only kitti is supported (for now) to build a benchmark";
  metrics ← collect_metrics read_poses_from_disk compute_kitti_metrics
              directory_list;
  write_benchmark resolve metrics.

End Benchmark.

(** ** [slam/dataset/ct_icp_dataset.py] *)

Module CtIcpDataset.
Import Py.

(** Line 132 *)
Definition __KITTI_SEQUENCE : list string :=
  map format_02 (List.filter (fun i => negb (Nat.eqb i 3)) (seq 0 22)).

(** Line 133 *)
Definition __KITTI_CARLA_SEQUENCE : list string :=
  map (fun i => "Town" ++ format_02 (1 + i)) (seq 0 7).

(** [x in l] for a list of strings. *)
Definition contains (l : list string) (x : string) : bool :=
  existsb (String.eqb x) l.

(** Lines 135-138 *)
Definition have_sequence (seq_name : string) : bool :=
  contains __KITTI_SEQUENCE seq_name
  || contains __KITTI_CARLA_SEQUENCE seq_name.

Section Sequence.
(** [pct.DatasetOptions], one row of [raw_point], one ground truth
    pose. *)
Context {DatasetOptions Point Pose : Type}.

(** What [GetStructuredArrayRef] gives for one frame: the two fields
    that are read. *)
Record lidar_frame : Type := {
  raw_point : list Point;
  timestamp : list Q
}.

(** The bindings of [pyct_icp]: [options.dataset == pct.NCLT], the
    frames of a sequence ([NumFrames] is their number and [Frame(idx)]
    the frame at [idx]), and the ground truth. *)
Context (is_NCLT : DatasetOptions -> bool).
Context (get_dataset_sequence : DatasetOptions -> Z -> list lidar_frame).
Context (has_ground_truth : DatasetOptions -> Z -> bool).
Context (load_sensor_ground_truth : DatasetOptions -> Z -> list Pose).
(** [array.astype(np.float32)] *)
Context (astype_float32 : list Point -> list Point).

(** The values of [data_dict]. *)
Inductive channel : Type :=
| numpy_pc (points : list Point)
| timestamps (times : list Q)
| pose_gt (pose : Pose).

Record CT_ICPDatasetSequence : Type := {
  options : DatasetOptions;
  dataset_sequences : list lidar_frame;
  sequence_id : Z;
  gt_pose_channel : string;
  numpy_pc_channel : string;
  gt : option (list Pose)
}.

(** Lines 87-102 *)
Definition __init__ (options : DatasetOptions) (sequence_id : Z)
         (gt_pose_channel numpy_pc_channel : string)
  : result CT_ICPDatasetSequence :=
  _ ← assert_debug (negb (is_NCLT options))
        "The NCLT Dataset is not available in Random Access";
  mret {| options := options;
          dataset_sequences := get_dataset_sequence options sequence_id;
          sequence_id := sequence_id;
          gt_pose_channel := gt_pose_channel;
          numpy_pc_channel := numpy_pc_channel;
          gt := if has_ground_truth options sequence_id
                then Some (load_sensor_ground_truth options sequence_id)
                else None |}.

(** Lines 104-105 *)
Definition __len__ (self : CT_ICPDatasetSequence) : Z :=
  Z.of_nat (List.length (dataset_sequences self)).

(** [self.dataset_sequences.Frame(idx)] *)
Definition Frame (self : CT_ICPDatasetSequence) (idx : Z)
  : result lidar_frame :=
  if (idx <? 0)%Z then raise (Raised "Frame")
  else match nth_error (dataset_sequences self) (Z.to_nat idx) with
       | Some frame => mret frame
       | None => raise (Raised "Frame")
       end.

(** Lines 107-124 *)
Definition __getitem__ (self : CT_ICPDatasetSequence) (idx : Z)
  : result (gmap string channel) :=
  _ ← assert_debug ((0 <=? idx)%Z && (idx <? __len__ self)%Z)
        "Index Error";
  lidar_frame ← Frame self idx;
  let data_dict : gmap string channel := ∅ in
  let data_dict :=
    <[numpy_pc_channel self :=
        numpy_pc (astype_float32 (raw_point lidar_frame))]> data_dict in
  let data_dict :=
    <[numpy_pc_channel self ++ "_timestamps" :=
        timestamps (timestamp lidar_frame)]> data_dict in
  match gt self with
  | Some gt =>
      pose ← ndarray_item gt idx;
      mret (<[gt_pose_channel self := pose_gt pose]> data_dict)
  | None => mret data_dict
  end.
End Sequence.

End CtIcpDataset.

(** ** Vocabulary of the properties *)

(** [x] occurs in [l] at a position before an occurrence of [y]. *)
Definition before {A} (x y : A) (l : list A) : Prop :=
  exists l1 l2 l3, l = (l1 ++ x :: l2 ++ y :: l3)%list.

Section Order.
Context {A K : Type} (key : A -> K) (lt : K -> K -> bool).

(** [x] may stand before [y] in a list sorted by [key]. *)
Definition ascending (x y : A) : Prop := lt (key y) (key x) = false.

(** A class of elements whose keys are pairwise not below one
    another: the elements of one key. *)
Definition tied (f : A -> bool) : Prop :=
  forall x y, f x = true -> f y = true -> lt (key x) (key y) = false.
End Order.

(** The arithmetic mean of a list of numbers. *)
Definition mean (l : list Q) : Q :=
  (fold_right Qplus 0 l / inject_Z (Z.of_nat (List.length l)))%Q.

Module BenchmarkSpec.
Import Py Benchmark.

(** The translational errors of all segments of all sequences of an
    entry. *)
Definition segment_errors (sequences : list (string * sequence_metrics))
  : list Q :=
  flat_map (fun kv => map seg_tr_err (errors (snd kv))) sequences.

(** The flat mean: every segment of every sequence counts once. *)
Definition flat_mean (sequences : list (string * sequence_metrics)) : Q :=
  mean (segment_errors sequences).

(** The mean of the means of the sequences: every sequence counts
    once. *)
Definition mean_of_means (sequences : list (string * sequence_metrics))
  : Q :=
  mean (map (fun kv => mean (map seg_tr_err (errors (snd kv)))) sequences).

(** Two sequences of the entry have different numbers of segments. *)
Definition segment_counts_differ
           (sequences : list (string * sequence_metrics)) : Prop :=
  exists kv1 kv2,
    In kv1 sequences /\ In kv2 sequences
    /\ List.length (errors (snd kv1)) <> List.length (errors (snd kv2)).

(** The average error of an entry as the flat mean itself, and other
    than the mean of the means. *)
Definition flat_mean_unscaled (entry : entry_metrics) : Prop :=
  (AVG_tr_err entry == flat_mean (sequences entry))%Q
  /\ ~ (AVG_tr_err entry == mean_of_means (sequences entry))%Q.

Section Directory.
Context {File Poses : Type}.
Context (read_poses_from_disk : File -> result Poses).
Context (compute_kitti_metrics :
           Poses -> Poses -> result (Q * Q * list segment_error)).

(** Both pose files of the sequence exist in the directory. *)
Definition found (new_dir : @directory File) (sequence_name : string)
  : bool :=
  match pose_files new_dir sequence_name with
  | Some _ => true
  | None => false
  end.

(** The sequences of [names] that are found in the directory are
    evaluated without an exception, with the results [r]. *)
Definition evaluated (new_dir : @directory File)
         (r : string -> sequence_metrics) (names : list string)
  : Prop :=
  forall sequence_name files,
    In sequence_name names ->
    pose_files new_dir sequence_name = Some files ->
    sequence_entry read_poses_from_disk compute_kitti_metrics
                   sequence_name files = inr (r sequence_name).

(** [new_metrics] after the loop over [names], from the results [r]
    of the sequences. *)
Definition gathered (new_dir : @directory File)
         (r : string -> sequence_metrics) (names : list string)
         (new_metrics : list (string * sequence_metrics))
  : list (string * sequence_metrics) :=
  fold_left (fun acc name =>
               if found new_dir name then dict_set name (r name) acc
               else acc)
            names new_metrics.

(** The timing of a sequence: the field [nsecs_per_frame] of the
    sequence in the [metrics.yaml] of its folder. *)
Definition timing (new_dir : @directory File) (sequence_name : string)
  : option Q :=
  seq_folder ← folders new_dir !! sequence_name;
  metrics_dict ← metrics_yaml seq_folder;
  seq_dict ← metrics_dict !! sequence_name;
  seq_dict !! "nsecs_per_frame".

(** The time per frame of a sequence, and [-1] for a sequence
    without timing. *)
Definition sequence_time (new_dir : @directory File)
         (sequence_name : string) : Q :=
  match timing new_dir sequence_name with
  | Some nsecs_per_frame => nsecs_per_frame * 1000
  | None => -1
  end.

(** The evaluation of one sequence of the directory raises. *)
Definition comparison_fails (new_dir : @directory File) : Prop :=
  exists sequence_name files e,
    In sequence_name folder_names
    /\ pose_files new_dir sequence_name = Some files
    /\ sequence_entry read_poses_from_disk compute_kitti_metrics
                      sequence_name files = inl e.

(** A directory yields an entry that is marked incomplete and has
    the sentinel as its average error. *)
Definition incomplete_entry_produced (new_dir : @directory File)
  : Prop :=
  exists metrics entry,
    collect_metrics read_poses_from_disk compute_kitti_metrics [new_dir]
    = inr metrics
    /\ dict_get metrics (dir_path new_dir) = Some entry
    /\ has_all_sequences entry = false
    /\ AVG_tr_err entry = (-1)%Q.

(** The time of a sequence as its timing multiplied by [1e-6]. *)
Definition time_scaled_down (sequence_name : string)
         (metrics_dict : metrics_yaml_dict) (nsecs_per_frame : Q)
  : Prop :=
  (read_time_ms sequence_name (Some metrics_dict)
   == nsecs_per_frame * (1 # 1000000))%Q.

(** The batch isolates failures: it ends without an exception, and
    the directory in which a comparison fails has an entry that is
    marked incomplete. *)
Definition failures_isolated (directory_list : list (@directory File))
  : Prop :=
  exists metrics,
    collect_metrics read_poses_from_disk compute_kitti_metrics
                    directory_list = inr metrics
    /\ forall new_dir,
        In new_dir directory_list -> comparison_fails new_dir ->
        exists entry,
          dict_get metrics (dir_path new_dir) = Some entry
          /\ has_all_sequences entry = false.
End Directory.
End BenchmarkSpec.

(** ** Trajectories for the examples *)

Module Fixture.
Import Py Benchmark.

(** A trajectory of the examples: the number of its poses, and the
    errors of the segments that the metric finds on it. *)
Record trajectory : Type := {
  poses_count : nat;
  segments : list segment_error
}.

(** Modelled from the spec: [read_poses_from_disk] is defined in
    [slam/common/io.py], which is not among the files at hand. The
    loader of the specification decodes the lines of a pose file into a
    trajectory; in the examples a pose file is given by the trajectory
    that it holds, and reading it does not fail. *)
Definition read_poses_from_disk (file : trajectory) : result trajectory :=
  mret file.

(** Modelled from the spec: [compute_kitti_metrics] is defined in
    [slam/eval/eval_odometry.py], which is not among the files at hand.
    Of the metric engine of the specification the stand-in keeps the
    precondition, that the estimate and the ground truth have the same
    number of poses and that a violation fails with [ShapeMismatch]; on
    success it returns the segment errors recorded with the estimate,
    and their means. *)
Definition compute_kitti_metrics (poses gt_poses : trajectory)
  : result (Q * Q * list segment_error) :=
  if Nat.eqb (poses_count poses) (poses_count gt_poses)
  then mret (mean (map seg_tr_err (segments poses)),
             mean (map seg_rot_err (segments poses)),
             segments poses)
  else raise (Raised "ShapeMismatch").

(** A segment with the translational error [e]. *)
Definition segment (e : Q) : segment_error :=
  {| seg_tr_err := e; seg_rot_err := 0; seg_len := 100 |}.

(** A sequence folder with an estimate of [n] poses and the segment
    errors [es], a ground truth of [n_gt] poses, and the timing
    [nsecs] when there is one. *)
Definition folder (sequence_name : string) (n n_gt : nat) (es : list Q)
           (nsecs : option Q) : @sequence_folder trajectory :=
  {| poses_file := Some {| poses_count := n; segments := map segment es |};
     gt_poses_file := Some {| poses_count := n_gt; segments := [] |};
     metrics_yaml :=
       match nsecs with
       | Some v =>
           Some {[ sequence_name := {[ "nsecs_per_frame" := v ]} ]}
       | None => None
       end |}.

(** A results directory with one folder for every name of [names]. *)
Definition results (path : string) (names : list string)
           (f : string -> @sequence_folder trajectory)
  : @directory trajectory :=
  {| dir_path := path;
     folders := list_to_map (map (fun name => (name, f name)) names);
     overrides_file := None |}.

(** The segment errors and the timing of the sequences of the
    examples: every segment has the error [1], the sequence ["00"] has
    two segments and the others one; every sequence but ["03"] has a
    timing. *)
Definition ones (sequence_name : string) : list Q :=
  if String.eqb sequence_name "00" then [1; 1]%Q else [1]%Q.

Definition timed (sequence_name : string) : option Q :=
  if String.eqb sequence_name "03" then None else Some (2 # 100)%Q.

(** What the evaluation of a sequence of the examples results in. *)
Definition evaluation (sequence_name : string) : sequence_metrics :=
  {| tr_err := mean (map seg_tr_err (map segment (ones sequence_name)));
     rot_err := mean (map seg_rot_err (map segment (ones sequence_name)));
     errors := map segment (ones sequence_name);
     average_time := match timed sequence_name with
                     | Some v => v * 1000
                     | None => -1
                     end |}.

(** All expected sequences. *)
Definition complete_dir : @directory trajectory :=
  results "runs/a" folder_names (fun n => folder n 5 5 (ones n) (timed n)).

(** All expected sequences, where the three segments of the sequence
    ["00"] have the error [3] and the one segment of every other
    sequence has the error [1]. *)
Definition skewed (sequence_name : string) : list Q :=
  if String.eqb sequence_name "00" then [3; 3; 3]%Q else [1]%Q.

Definition skewed_dir : @directory trajectory :=
  results "runs/s" folder_names (fun n => folder n 5 5 (skewed n) (timed n)).

(** Two of the expected sequences. *)
Definition partial_dir : @directory trajectory :=
  results "runs/b" ["00"; "03"] (fun n => folder n 5 5 (ones n) (timed n)).

(** One sequence, whose estimate has five poses and whose ground truth
    has four. *)
Definition mismatch_dir : @directory trajectory :=
  results "runs/c" ["00"] (fun n => folder n 5 4 (ones n) (timed n)).

(** The folder of one sequence, without pose files. *)
Definition empty_dir : @directory trajectory :=
  {| dir_path := "runs/d";
     folders := {[ "00" := {| poses_file := None;
                             gt_poses_file := None;
                             metrics_yaml := None |} ]};
     overrides_file := None |}.

(** An entry with the average error [avg]. *)
Definition entry_of (avg : Q) (has_all : bool) : entry_metrics :=
  {| sequences := [];
     AVG_tr_err := avg;
     AVG_time := -1;
     has_all_sequences := has_all;
     command := None |}.

(** A mapping with two incomplete entries, whose sentinel is below
    every average error, and with two complete entries of the same
    average error. *)
Definition ranking_input : list (string * entry_metrics) :=
  [("runs/x", entry_of (-1) false);
   ("runs/a", entry_of 5 true);
   ("runs/p", entry_of 3 true);
   ("runs/y", entry_of (-1) false);
   ("runs/q", entry_of 3 true);
   ("runs/b", entry_of 2 true)].

(** The entry of [partial_dir]. *)
Definition partial_entry : entry_metrics :=
  {| sequences := [("00", evaluation "00"); ("03", evaluation "03")];
     AVG_tr_err := -1;
     AVG_time := -1;
     has_all_sequences := false;
     command := None |}.

(** [Path(path).resolve()] in the examples. *)
Definition home (path : string) : string := "/home/" ++ path.

(** The row of [partial_entry] in the table, and in the list of the
    commands. *)
Definition partial_row : string :=
  "| [b](/home/runs/b) | 100.0000 |  |  | 100.0000 |  |  |  |  |  |  |  |  | -1.000 |"
    ++ newline.

Definition partial_command_row : string :=
  "| [b](/home/runs/b) |     |" ++ newline.

(** A [metrics.yaml] with a timing of one unit for the sequence
    ["00"]. *)
Definition unit_timing : gmap string (gmap string Q) :=
  {[ "00" := {[ "nsecs_per_frame" := 1%Q ]} ]}.
End Fixture.

Module ReportSpec.
Import Py Benchmark.

Definition is_digit (c : ascii) : bool :=
  (48 <=? nat_of_ascii c)%nat && (nat_of_ascii c <=? 57)%nat.

Fixpoint all_digits (s : string) : bool :=
  match s with
  | EmptyString => true
  | String c s' => is_digit c && all_digits s'
  end.

(** The number that a string of digits denotes, after the digits
    [acc]. *)
Fixpoint read_digits (s : string) (acc : Z) : Z :=
  match s with
  | EmptyString => acc
  | String c s' =>
      read_digits s' (acc * 10 + (Z.of_nat (nat_of_ascii c) - 48))
  end.





End ReportSpec.

Module DatasetSpec.
Import Py CtIcpDataset.

(** The two-digit identifiers of KITTI from ["00"] to ["21"], without
    ["03"]. *)
Definition kitti_identifiers : list string :=
  ["00"; "01"; "02"; "04"; "05"; "06"; "07"; "08"; "09"; "10"; "11";
   "12"; "13"; "14"; "15"; "16"; "17"; "18"; "19"; "20"; "21"].

(** The identifiers of KITTI-CARLA from ["Town01"] to ["Town07"]. *)
Definition kitti_carla_identifiers : list string :=
  ["Town01"; "Town02"; "Town03"; "Town04"; "Town05"; "Town06"; "Town07"].

Section Sequence.
Context {DatasetOptions Point Pose : Type}.
Context (astype_float32 : list Point -> list Point).

(** The access to a frame without side conditions, for a sequence
    that was constructed with ([has_gt = true]) or without ground truth:
    an index out of the bounds fails the assertion; an index within the
    bounds gives a dictionary with the point cloud channel and its
    timestamps channel, and with the ground truth channel exactly when
    there is a ground truth. *)
Definition getitem_as_stated (has_gt : bool)
         (self : @CT_ICPDatasetSequence DatasetOptions Point Pose)
         (idx : Z) : Prop :=
  ((idx < 0 \/ __len__ self <= idx)%Z ->
   __getitem__ astype_float32 self idx = inl (AssertionError "Index Error"))
  /\ ((0 <= idx < __len__ self)%Z ->
      exists data_dict,
        __getitem__ astype_float32 self idx = inr data_dict
        /\ is_Some (data_dict !! numpy_pc_channel self)
        /\ is_Some (data_dict !! (numpy_pc_channel self ++ "_timestamps"))
        /\ (is_Some (data_dict !! gt_pose_channel self) <-> has_gt = true)).
End Sequence.
End DatasetSpec.

(** ** Sequences for the examples *)

Module DatasetFixture.
Import Py CtIcpDataset.

(** The options of the examples: no NCLT dataset. A point and a pose are
    stood for by a number. *)
Definition is_NCLT (options : unit) : bool := false.

(** Every sequence has two frames. *)
Definition get_dataset_sequence (options : unit) (sequence_id : Z)
  : list (@lidar_frame Z) :=
  [{| raw_point := [1; 2]%Z; timestamp := [0; 1 # 10]%Q |};
   {| raw_point := [3; 4]%Z; timestamp := [1; 11 # 10]%Q |}].

(** The sequence [1] has a ground truth, of one pose. *)
Definition has_ground_truth (options : unit) (sequence_id : Z) : bool :=
  (sequence_id =? 1)%Z.

Definition load_sensor_ground_truth (options : unit) (sequence_id : Z)
  : list Z :=
  [7%Z].

Definition astype_float32 (points : list Z) : list Z := points.

(** [CT_ICPDatasetSequence(options, sequence_id, gt_pose_channel,
    numpy_pc_channel)] *)
Definition new (sequence_id : Z) (gt_pose_channel numpy_pc_channel : string)
  : result (@CT_ICPDatasetSequence unit Z Z) :=
  __init__ is_NCLT get_dataset_sequence has_ground_truth
           load_sensor_ground_truth tt sequence_id
           gt_pose_channel numpy_pc_channel.

(** The sequence [0], without ground truth, and with one name for the
    ground truth channel and the point cloud channel. *)
Definition one_channel_name : @CT_ICPDatasetSequence unit Z Z :=
  {| options := tt;
     dataset_sequences := get_dataset_sequence tt 0;
     sequence_id := 0;
     gt_pose_channel := "numpy_pc";
     numpy_pc_channel := "numpy_pc";
     gt := None |}.

(** The sequence [1] with the default channel names: two frames, and a
    ground truth of one pose. *)
Definition short_ground_truth : @CT_ICPDatasetSequence unit Z Z :=
  {| options := tt;
     dataset_sequences := get_dataset_sequence tt 1;
     sequence_id := 1;
     gt_pose_channel := "absolute_pose_gt";
     numpy_pc_channel := "numpy_pc";
     gt := Some [7%Z] |}.
End DatasetFixture.

(** ** [slam/dataset/ct_icp_dataset.py]: the options and the
    configuration *)

Module CtIcpConfig.
Import Py.

(** [omegaconf.MISSING] *)
Definition MISSING : string := "???".

(** The value of a field of the options: a string, a number, a truth
    value, or a member of [pct.CT_ICP_DATASET]. *)
Inductive value : Type :=
| VStr (s : string)
| VInt (n : Z)
| VFloat (x : Q)
| VBool (b : bool)
| VDataset (member : string).

(** [field_value != MISSING]: only a string is equal to a string. *)
Definition differs_from_MISSING (field_value : value) : bool :=
  match field_value with
  | VStr s => negb (String.eqb s MISSING)
  | _ => true
  end.

Section Wrapper.
Context {DatasetOptions : Type}.
(** [pct.DatasetOptions()], and the two accesses to the binding that
    may raise: [getattr(pct.CT_ICP_DATASET, field_value)] and
    [setattr(options, field_name, field_value)]. *)
Context (new_options : DatasetOptions).
Context (CT_ICP_DATASET : value -> result value).
Context (setattr : DatasetOptions -> string -> value -> result DatasetOptions).
(** The message of an [assert_debug] that is called without one. *)
Context (no_message : string).

(** Lines 36-43: the body of the loop over the fields. The state is
    [options]. *)
Definition set_field (field : string * value) (options : DatasetOptions)
  : result DatasetOptions :=
  let '(field_name, field_value) := field in
  if String.eqb field_name "dataset" then
    field_value ← CT_ICP_DATASET field_value;
    setattr options field_name field_value
  else
    _ ← assert_debug (differs_from_MISSING field_value) no_message;
    setattr options field_name field_value.

(** Lines 33-45. [self] is [self.__dict__]: the fields of the wrapper
    and their values. *)
Definition to_pct_object (self : list (string * value))
  : result DatasetOptions :=
  for_each self set_field new_options.
End Wrapper.

(** Lines 49-69. [options] holds the fields that are passed to
    [CT_ICPDatasetOptionsWrapper] as its keyword arguments. *)
Record CT_ICPDatasetConfig : Type := {
  dataset : string;
  options : list (string * value);
  lidar_key : string;
  lidar_height : Z;
  lidar_width : Z;
  up_fov : Z;
  down_fov : Z;
  all_sequence : option (list string);
  train_sequences : option (list string);
  test_sequences : option (list string);
  eval_sequences : option (list string)
}.

(** Lines 64-67: the default of [all_sequence] and of
    [train_sequences]. *)
Definition default_train_sequences : list string :=
  (map format_02 (List.filter (fun i => negb (Nat.eqb i 3)) (seq 0 11))
     ++ map (fun i => ("Town" ++ format_02 (1 + i))%string) (seq 0 7))%list.

(** Line 68 *)
Definition default_test_sequences : list string :=
  map format_02 (List.filter (fun i => negb (Nat.eqb i 3)) (seq 0 22)).

(** Line 69 *)
Definition default_eval_sequences : list string := ["09"; "10"].

(** The configuration with the defaults of lines 53-69 and the options
    [options]. *)
Definition default_config (options : list (string * value))
  : CT_ICPDatasetConfig :=
  {| dataset := "ct_icp";
     options := options;
     lidar_key := "vertex_map";
     lidar_height := 64;
     lidar_width := 1024;
     up_fov := 3;
     down_fov := -24;
     all_sequence := Some default_train_sequences;
     train_sequences := Some default_train_sequences;
     test_sequences := Some default_test_sequences;
     eval_sequences := Some default_eval_sequences |}.
End CtIcpConfig.

(** ** [slam/dataset/ct_icp_dataset.py]: the loader *)

Module CtIcpLoader.
Import Py CtIcpDataset.

(** A computation that logs warnings: the messages in the order in
    which they are logged, and the outcome. An exception ends the
    computation and keeps what was logged before it. *)
Definition logged (A : Type) : Type := (list string * result A)%type.

#[export] Instance logged_ret : MRet logged := fun A a => ([], inr a).
#[export] Instance logged_bind : MBind logged := fun A B k c =>
  match c with
  | (log, inl e) => (log, inl e)
  | (log, inr a) => let '(log', outcome) := k a in ((log ++ log')%list, outcome)
  end.

(** [logging.warning(message)] *)
Definition warning (message : string) : logged unit := ([message], inr tt).

(** A computation that logs nothing. *)
Definition quiet {A} (c : result A) : logged A := ([], c).

(** [for x in l: s = body(x, s)], where the body may log and raise. *)
Fixpoint for_each_logged {A S} (l : list A) (body : A -> S -> logged S)
         (s : S) : logged S :=
  match l with
  | [] => mret s
  | x :: l' => s' ← body x s; for_each_logged l' body s'
  end.

Section Loader.
Context {DatasetOptions Point Pose RelativePoses : Type}.
(** The bindings that [to_pct_object] uses. *)
Context (new_options : DatasetOptions).
Context (CT_ICP_DATASET : CtIcpConfig.value -> result CtIcpConfig.value).
Context (setattr : DatasetOptions -> string -> CtIcpConfig.value
                   -> result DatasetOptions).
(** The message of an [assert_debug] that is called without one. *)
Context (no_message : string).
(** [options.root_path], [str(Path(p))] and [Path(p).exists()]. *)
Context (root_path : DatasetOptions -> string).
Context (path_str : string -> string).
Context (path_exists : string -> bool).
(** [pct.get_sequences(options)]: the pairs of the identifier and the
    size of the sequences of the dataset; [pct.sequence_name]. *)
Context (get_sequences : DatasetOptions -> list (Z * Z)).
Context (sequence_name : DatasetOptions -> Z -> string).
(** The bindings that [CT_ICPDatasetSequence] uses. *)
Context (is_NCLT : DatasetOptions -> bool).
Context (get_dataset_sequence :
           DatasetOptions -> Z -> list (@lidar_frame Point)).
Context (has_ground_truth : DatasetOptions -> Z -> bool).
Context (load_sensor_ground_truth : DatasetOptions -> Z -> list Pose).
(** [compute_relative_poses] of [slam/eval/eval_odometry.py] *)
Context (compute_relative_poses : list Pose -> result RelativePoses).

(** The attributes of a loader. [config] is what the constructor of
    the base class keeps of its argument. *)
Record CT_ICPDatasetLoader : Type := {
  config : CtIcpConfig.CT_ICPDatasetConfig;
  options : DatasetOptions;
  map_seqname_seqid : gmap string Z
}.

(** Lines 150-153: the body of the loop over the sequences of the
    dataset. The state is [map_seqname_seqid]. *)
Definition add_sequence (options : DatasetOptions) (sequence : Z * Z)
         (map_seqname_seqid : gmap string Z) : result (gmap string Z) :=
  let '(seq_id, seq_size) := sequence in
  let seq_name := sequence_name options seq_id in
  _ ← assert_debug (contains __KITTI_SEQUENCE seq_name
                    || contains __KITTI_CARLA_SEQUENCE seq_name)
        no_message;
  mret (<[seq_name := seq_id]> map_seqname_seqid).

(** Lines 140-153 *)
Definition __init__ (config : CtIcpConfig.CT_ICPDatasetConfig)
  : result CT_ICPDatasetLoader :=
  options ← CtIcpConfig.to_pct_object new_options CT_ICP_DATASET setattr
              no_message (CtIcpConfig.options config);
  let root_path := root_path options in
  _ ← assert_debug (path_exists root_path)
        ("The root path of the dataset " ++ path_str root_path
           ++ " does not exist on disk");
  map_seqname_seqid ←
    for_each (get_sequences options) (add_sequence options) ∅;
  mret {| config := config;
          options := options;
          map_seqname_seqid := map_seqname_seqid |}.

(** Lines 166-172 *)
Definition get_ground_truth (self : CT_ICPDatasetLoader)
         (seq_name : string) : result RelativePoses :=
  _ ← assert_debug
        (bool_decide (is_Some (map_seqname_seqid self !! seq_name)))
        no_message;
  seq_id ← match map_seqname_seqid self !! seq_name with
           | Some seq_id => mret seq_id
           | None => raise (KeyError seq_name)
           end;
  let ground_truth := load_sensor_ground_truth (options self) seq_id in
  compute_relative_poses ground_truth.

(** Line 197: the dictionary comprehension; of two sequences with one
    name the later one stays. *)
Definition seqname_to_seqid (options : DatasetOptions) : gmap string Z :=
  fold_left (fun d '(seq_id, _) => <[sequence_name options seq_id := seq_id]> d)
            (get_sequences options) ∅.

(** Lines 208-214: the body of the loop over the requested names. The
    state is [datasets] and [sequence_names]. *)
Definition add_dataset (_options : DatasetOptions)
         (seqname_to_seqid : gmap string Z) (seq_name : string)
         (state : list (@CT_ICPDatasetSequence DatasetOptions Point Pose)
                  * list string)
  : logged (list (@CT_ICPDatasetSequence DatasetOptions Point Pose)
            * list string) :=
  let '(datasets, sequence_names) := state in
  if negb (have_sequence seq_name)
     || negb (bool_decide (is_Some (seqname_to_seqid !! seq_name)))
  then
    _ ← warning ("The dataset located at " ++ root_path _options
                   ++ " does not have the sequence named " ++ seq_name);
    mret (datasets, sequence_names)
  else
    quiet (seq_id ← match seqname_to_seqid !! seq_name with
                    | Some seq_id => mret seq_id
                    | None => raise (KeyError seq_name)
                    end;
           dataset ← CtIcpDataset.__init__
                       is_NCLT get_dataset_sequence has_ground_truth
                       load_sensor_ground_truth _options seq_id
                       "absolute_pose_gt" "numpy_pc";
           mret ((datasets ++ [dataset])%list,
                 (sequence_names ++ [seq_name])%list)).

(** Lines 201-216. [None] is Python's [None], as an argument and as
    the result. *)
Definition __get_datasets (_options : DatasetOptions)
         (seqname_to_seqid : gmap string Z)
         (sequences : option (list string))
  : logged (option (list (@CT_ICPDatasetSequence DatasetOptions Point Pose)
                    * list string)) :=
  match sequences with
  | None | Some [] => mret None
  | Some sequences =>
      state ← for_each_logged sequences
                (add_dataset _options seqname_to_seqid) ([], []);
      mret (Some state)
  end.

(** Lines 174-220 *)
Definition sequences (self : CT_ICPDatasetLoader)
  : logged (option (list (@CT_ICPDatasetSequence DatasetOptions Point Pose)
                    * list string)
            * option (list (@CT_ICPDatasetSequence DatasetOptions Point Pose)
                      * list string)
            * option (list (@CT_ICPDatasetSequence DatasetOptions Point Pose)
                      * list string)
            * (gmap string (@channel Point Pose)
               -> gmap string (@channel Point Pose))) :=
  let train_sequence_ids := CtIcpConfig.train_sequences (config self) in
  let eval_sequence_ids := CtIcpConfig.eval_sequences (config self) in
  let test_sequence_ids := CtIcpConfig.test_sequences (config self) in
  let seqname_to_seqid := seqname_to_seqid (options self) in
  let _options := options self in
  train ← __get_datasets _options seqname_to_seqid train_sequence_ids;
  eval ← __get_datasets _options seqname_to_seqid eval_sequence_ids;
  test ← __get_datasets _options seqname_to_seqid test_sequence_ids;
  mret (train, eval, test, fun x => x).
End Loader.
End CtIcpLoader.

(** ** Vocabulary of the properties of the walk and of the report *)

Module WalkSpec.
Import Py Benchmark BenchmarkSpec.

(** The result that stands for a sequence without one. *)
Definition no_result : sequence_metrics :=
  {| tr_err := 0; rot_err := 0; errors := []; average_time := 0 |}.

Section Walk.
Context {File Poses : Type}.
Context (read_poses_from_disk : File -> result Poses).
Context (compute_kitti_metrics :
           Poses -> Poses -> result (Q * Q * list segment_error)).

(** What the evaluation of a sequence of the directory results in. *)
Definition outcome (new_dir : @directory File) (sequence_name : string)
  : sequence_metrics :=
  match pose_files new_dir sequence_name with
  | Some files =>
      match sequence_entry read_poses_from_disk compute_kitti_metrics
                           sequence_name files with
      | inr seq_metrics => seq_metrics
      | inl _ => no_result
      end
  | None => no_result
  end.

(** At least one of the expected sequences is found in the
    directory. *)
Definition yields (new_dir : @directory File) : bool :=
  existsb (found new_dir) folder_names.

(** Every expected sequence is found in the directory, and its
    evaluation returns without a segment. *)
Definition without_segments (new_dir : @directory File) : bool :=
  forallb (fun sequence_name =>
             match pose_files new_dir sequence_name with
             | Some files =>
                 match sequence_entry read_poses_from_disk
                                      compute_kitti_metrics
                                      sequence_name files with
                 | inr seq_metrics =>
                     match errors seq_metrics with
                     | [] => true
                     | _ :: _ => false
                     end
                 | inl _ => false
                 end
             | None => false
             end)
          folder_names.
End Walk.

(** What an entry of the mapping of the walk satisfies: it has a
    sequence; the names of its sequences are expected names, in their
    order; it is marked complete exactly when it has all of them; a
    complete entry has a segment, the average error is the flat mean of
    the errors of its segments times [100], and the average time is the
    mean of the times of its sequences; an incomplete entry has the
    sentinel [-1] for both. *)
Definition entry_invariant (entry : entry_metrics) : Prop :=
  sequences entry <> []
  /\ sublist (map fst (sequences entry)) folder_names
  /\ (has_all_sequences entry = true
      <-> map fst (sequences entry) = folder_names)
  /\ (has_all_sequences entry = true ->
      segment_errors (sequences entry) <> []
      /\ (AVG_tr_err entry == flat_mean (sequences entry) * 100)%Q
      /\ (AVG_time entry
          == mean (map (fun kv => average_time (snd kv))
                       (sequences entry)))%Q)
  /\ (has_all_sequences entry = false ->
      AVG_tr_err entry = (-1)%Q /\ AVG_time entry = (-1)%Q).

(** The element of [db_metrics] of an item of the mapping. *)
Definition db_item (item : string * entry_metrics) : string * Q * bool :=
  let '(path, entry_metrics) := item in
  (path, AVG_tr_err entry_metrics, has_all_sequences entry_metrics).

(** The items of the mapping in the order of the ranking. *)
Definition ranking (metrics : list (string * entry_metrics))
  : list (string * entry_metrics) :=
  sort (fun item => sort_key (db_item item)) xlt metrics.

(** The row of an item in the table, and in the list of the
    commands. *)
Definition table_row (resolve : string -> string)
           (item : string * entry_metrics) : string :=
  table_line resolve (snd item) (db_item item).

Definition command_row (resolve : string -> string)
           (item : string * entry_metrics) : string :=
  command_table_line resolve (snd item) (fst item).
End WalkSpec.

(** ** Vocabulary of the properties of the loader *)

Module LoaderSpec.
Import Py CtIcpDataset CtIcpLoader.

Section Loader.
Context {DatasetOptions Point Pose : Type}.
Context (root_path : DatasetOptions -> string).
Context (is_NCLT : DatasetOptions -> bool).
Context (get_dataset_sequence :
           DatasetOptions -> Z -> list (@lidar_frame Point)).
Context (has_ground_truth : DatasetOptions -> Z -> bool).
Context (load_sensor_ground_truth : DatasetOptions -> Z -> list Pose).

(** The dataset has a sequence of that name. *)
Definition present (seqname_to_seqid : gmap string Z) (seq_name : string)
  : bool :=
  bool_decide (is_Some (seqname_to_seqid !! seq_name)).

(** A requested name is available: it is recognised, and the dataset
    has a sequence of that name. *)
Definition available (seqname_to_seqid : gmap string Z) (seq_name : string)
  : bool :=
  have_sequence seq_name && present seqname_to_seqid seq_name.

(** The warning for a name that is not available. *)
Definition missing_sequence (_options : DatasetOptions) (seq_name : string)
  : string :=
  "The dataset located at " ++ root_path _options
    ++ " does not have the sequence named " ++ seq_name.

(** [dataset] is the sequence that is constructed, with the default
    channels, for the identifier of the name. *)
Definition dataset_of (_options : DatasetOptions)
           (seqname_to_seqid : gmap string Z) (seq_name : string)
           (dataset : @CT_ICPDatasetSequence DatasetOptions Point Pose)
  : Prop :=
  exists seq_id,
    seqname_to_seqid !! seq_name = Some seq_id
    /\ CtIcpDataset.__init__ is_NCLT get_dataset_sequence has_ground_truth
         load_sensor_ground_truth _options seq_id
         "absolute_pose_gt" "numpy_pc" = inr dataset.

(** [part] is what is returned for the requested names when the names
    that [accept] holds of are kept: nothing for no request and for an
    empty one, and else the kept names, in the order of the request,
    with the dataset of each. *)
Definition returned_for (_options : DatasetOptions)
           (seqname_to_seqid : gmap string Z) (accept : string -> bool)
           (requested : option (list string))
           (part : option
                     (list (@CT_ICPDatasetSequence DatasetOptions Point Pose)
                      * list string))
  : Prop :=
  match part with
  | None => requested = None \/ requested = Some []
  | Some (datasets, sequence_names) =>
      exists names,
        requested = Some names /\ names <> []
        /\ sequence_names = List.filter accept names
        /\ Forall2 (dataset_of _options seqname_to_seqid)
                   sequence_names datasets
  end.

(** The warnings for the requested names that are not available. *)
Definition warnings_for (_options : DatasetOptions)
           (seqname_to_seqid : gmap string Z)
           (requested : option (list string)) : list string :=
  match requested with
  | None => []
  | Some names =>
      map (missing_sequence _options)
          (List.filter (fun n => negb (available seqname_to_seqid n)) names)
  end.
End Loader.
End LoaderSpec.

(** ** Directories and loaders for the examples *)

Module WalkFixture.
Import Py Benchmark Fixture.

(** All expected sequences, each with an estimate on which the metric
    finds no segment. *)
Definition no_segment_dir : @directory trajectory :=
  results "runs/e" folder_names (fun n => folder n 5 5 [] (timed n)).

(** Two sequences; the estimate of the second one has five poses, and
    its ground truth has four. *)
Definition late_mismatch_dir : @directory trajectory :=
  results "runs/f" ["00"; "01"]
          (fun n => folder n 5 (if String.eqb n "01" then 4 else 5)
                           (ones n) (timed n)).

(** The mapping that the walk over [directory_list] returns. *)
Definition walk_of (directory_list : list (@directory trajectory))
  : list (string * entry_metrics) :=
  match collect_metrics read_poses_from_disk compute_kitti_metrics
                        directory_list with
  | inr metrics => metrics
  | inl _ => []
  end.

(** A walk that finds all sequences in its first directory, none in its
    second, and two in its third. *)
Definition walked_dirs : list (@directory trajectory) :=
  [complete_dir; empty_dir; partial_dir].

(** A mapping that yields its entries in the order of the ranking. *)
Definition ranked_input : list (string * entry_metrics) :=
  [("runs/b", entry_of 2 true);
   ("runs/a", entry_of 5 true);
   ("runs/x", entry_of (-1) false)].

Definition kitti_cfg : BenchmarkBuilderConfig :=
  {| root_dir := "runs"; dataset := "kitti"; output_dir := "runs" |}.

Definition nclt_cfg : BenchmarkBuilderConfig :=
  {| root_dir := "runs"; dataset := "nclt"; output_dir := "runs" |}.
End WalkFixture.

Module LoaderFixture.
Import Py CtIcpDataset CtIcpConfig CtIcpLoader.

(** The options of the examples: the attributes that were set. *)
Definition new_options : gmap string value := ∅.

(** Three members of the enumeration; another name, or a value that is
    no string, is refused. *)
Definition CT_ICP_DATASET (field_value : value) : result value :=
  match field_value with
  | VStr name =>
      if contains ["KITTI"; "KITTI_CARLA"; "NCLT"] name
      then mret (VDataset name)
      else raise (Raised "AttributeError")
  | _ => raise (Raised "TypeError")
  end.

Definition setattr (options : gmap string value) (field_name : string)
           (field_value : value) : result (gmap string value) :=
  mret (<[field_name := field_value]> options).

(** Modelled from the spec: [assert_debug] is defined in
    [slam/common/utils.py], which is not among the files at hand, and
    the specification does not give the message of a call without one.
    In the examples it is the empty message. *)
Definition no_message : string := "".

Definition root_path (options : gmap string value) : string :=
  match options !! "root_path" with
  | Some (VStr path) => path
  | _ => ""
  end.

Definition path_str (path : string) : string := path.

(** The directories that exist. *)
Definition path_exists (path : string) : bool :=
  contains ["/data/kitti"; "/data/kitti_all"; "/data/nclt"] path.

(** The dataset at [/data/kitti_all] has the sequences [0] to [3], every
    other one has the sequences [0], [1] and [9]; every sequence has two
    frames, and its name is its identifier in two digits. *)
Definition get_sequences (options : gmap string value) : list (Z * Z) :=
  if String.eqb (root_path options) "/data/kitti_all"
  then [(0, 2); (1, 2); (2, 2); (3, 2)]%Z
  else [(0, 2); (1, 2); (9, 2)]%Z.

Definition sequence_name (options : gmap string value) (seq_id : Z)
  : string :=
  format_02 (Z.to_nat seq_id).

Definition is_NCLT (options : gmap string value) : bool :=
  match options !! "dataset" with
  | Some (VDataset name) => String.eqb name "NCLT"
  | _ => false
  end.

Definition get_dataset_sequence (options : gmap string value)
           (sequence_id : Z) : list (@lidar_frame Z) :=
  DatasetFixture.get_dataset_sequence tt sequence_id.

Definition has_ground_truth (options : gmap string value) (sequence_id : Z)
  : bool :=
  DatasetFixture.has_ground_truth tt sequence_id.

Definition load_sensor_ground_truth (options : gmap string value)
           (sequence_id : Z) : list Z :=
  DatasetFixture.load_sensor_ground_truth tt sequence_id.

(** Modelled from the spec: [compute_relative_poses] is defined in
    [slam/eval/eval_odometry.py], which is not among the files at hand,
    and the specification does not describe it. In the examples the
    relative poses are stood for by the poses themselves, and their
    computation does not raise. *)
Definition compute_relative_poses (poses : list Z) : result (list Z) :=
  mret poses.

(** The fields of three wrappers, and of one whose root path is
    missing. *)
Definition kitti_options : list (string * value) :=
  [("dataset", VStr "KITTI"); ("root_path", VStr "/data/kitti");
   ("fail_if_incomplete", VBool false)].

Definition kitti_all_options : list (string * value) :=
  [("dataset", VStr "KITTI"); ("root_path", VStr "/data/kitti_all");
   ("fail_if_incomplete", VBool false)].

Definition nclt_options : list (string * value) :=
  [("dataset", VStr "NCLT"); ("root_path", VStr "/data/nclt")].

Definition missing_options : list (string * value) :=
  [("dataset", VStr "KITTI"); ("root_path", VStr MISSING)].

(** The options that are made from the fields. *)
Definition made_options (fields : list (string * value))
  : gmap string value :=
  match to_pct_object new_options CT_ICP_DATASET setattr no_message fields
  with
  | inr options => options
  | inl _ => ∅
  end.

(** [CT_ICPDatasetLoader(config)] *)
Definition new_loader (config : CT_ICPDatasetConfig)
  : result (@CT_ICPDatasetLoader (gmap string value)) :=
  CtIcpLoader.__init__ new_options CT_ICP_DATASET setattr no_message
                       root_path path_str path_exists get_sequences
                       sequence_name config.

(** The loader of the dataset at [/data/kitti], with the default
    requests. *)
Definition kitti_loader : @CT_ICPDatasetLoader (gmap string value) :=
  {| config := default_config kitti_options;
     options := made_options kitti_options;
     map_seqname_seqid := {[ "00" := 0%Z; "01" := 1%Z; "09" := 9%Z ]} |}.
End LoaderFixture.

(** ** Lines 118-121 of [build_benchmark_md.py] on every float

    The walk stores numbers: its arithmetic is embedded on rationals.
    Lines 118-121 do no arithmetic; they compare what the mapping holds,
    and a Python [float] may be an infinity or NaN. [Ranker] embeds
    these lines for every float, and [list.sort] as CPython runs it. *)

Module Ranker.
Import Py.

(** A Python [float]: a number, an infinity, or NaN. *)
Inductive float : Type :=
| Number (q : Q)
| PosInf
| NegInf
| NaN.

(** [a < b]: a comparison with NaN is false. *)
Definition flt (a b : float) : bool :=
  match a, b with
  | NaN, _ | _, NaN => false
  | Number x, Number y => Qltb x y
  | NegInf, NegInf => false
  | NegInf, _ => true
  | _, NegInf => false
  | PosInf, _ => false
  | Number _, PosInf => true
  end.

(** [a <= b] *)
Definition fle (a b : float) : bool :=
  match a, b with
  | NaN, _ | _, NaN => false
  | _, _ => negb (flt b a)
  end.

(** [a == b] *)
Definition feq (a b : float) : bool :=
  match a, b with
  | Number x, Number y => Qeq_bool x y
  | PosInf, PosInf => true
  | NegInf, NegInf => true
  | _, _ => false
  end.

(** *** [list.sort(key=...)] of CPython ([Objects/listobject.c])

    A list of fewer than 64 elements is one run: [count_run] takes the
    longest prefix that is ascending, or strictly descending and then
    reversed, and [binarysort] puts every further element where a
    bisection of the sorted prefix finds its place. These are embedded
    comparison by comparison, so that the result is CPython's also for
    keys that [<] does not order, as it is with NaN. A longer list is
    merged from such runs; the merge is not embedded, and the embedding
    of a longer list is the stable sort [Py.sort], which is what CPython
    gives when [<] is a strict weak order on the keys. *)
Section ListSort.
Context {A K : Type} (key : A -> K) (lt : K -> K -> bool).

(** [count_run], the ascending case: what continues the run behind
    [prev], and what is left. *)
Fixpoint ascending_run (prev : A) (l : list A) : list A * list A :=
  match l with
  | [] => ([], [])
  | x :: l' =>
      if lt (key x) (key prev) then ([], l)
      else let '(run, rest) := ascending_run x l' in (x :: run, rest)
  end.

(** [count_run], the descending case. *)
Fixpoint descending_run (prev : A) (l : list A) : list A * list A :=
  match l with
  | [] => ([], [])
  | x :: l' =>
      if lt (key x) (key prev)
      then let '(run, rest) := descending_run x l' in (x :: run, rest)
      else ([], l)
  end.

(** [count_run], and [reverse_sortslice] for a descending run: the first
    run, in ascending order, and the elements behind it. *)
Definition count_run (l : list A) : list A * list A :=
  match l with
  | [] => ([], [])
  | [x] => ([x], [])
  | x0 :: x1 :: l' =>
      if lt (key x1) (key x0)
      then let '(run, rest) := descending_run x1 l' in
           (rev (x0 :: x1 :: run), rest)
      else let '(run, rest) := ascending_run x1 l' in
           (x0 :: x1 :: run, rest)
  end.

(** The inner loop of [binarysort]: the place of [pivot] in [a], between
    the bounds [l] and [r]. *)
Fixpoint bisect (fuel : nat) (pivot : A) (a : list A) (l r : nat) : nat :=
  match fuel with
  | O => l
  | S fuel' =>
      if (l <? r)%nat then
        let p := (l + (r - l) / 2)%nat in
        match nth_error a p with
        | Some x =>
            if lt (key pivot) (key x) then bisect fuel' pivot a l p
            else bisect fuel' pivot a (S p) r
        | None => l
        end
      else l
  end.

(** One step of [binarysort]: [pivot] is put at its place. *)
Definition binary_insert (pivot : A) (a : list A) : list A :=
  let l := bisect (List.length a) pivot a 0 (List.length a) in
  (firstn l a ++ pivot :: skipn l a)%list.

(** [binarysort]: the elements of [rest] are put into the sorted
    [run], from the left. *)
Definition binarysort (run rest : list A) : list A :=
  fold_left (fun a pivot => binary_insert pivot a) rest run.

(** [l.sort(key=key)]: one run for fewer than 64 elements. *)
Definition list_sort (l : list A) : list A :=
  if (List.length l <? 64)%nat
  then let '(run, rest) := count_run l in binarysort run rest
  else sort key lt l.
End ListSort.

(** What lines 118-121 read of the dictionary of an entry: the float
    stored as [AVG_tr_err], and [has_all_sequences]. *)
Record entry_metrics : Type := {
  AVG_tr_err : float;
  has_all_sequences : bool
}.

(** Lines 118-120 *)
Definition db_metrics (metrics : list (string * entry_metrics))
  : list (string * float * bool) :=
  map (fun '(path, entry_metrics) =>
         (path, AVG_tr_err entry_metrics, has_all_sequences entry_metrics))
      metrics.

(** Line 121: [lambda x: x[1] if x[2] else float("inf")] *)
Definition sort_key (x : string * float * bool) : float :=
  let '(_, avg, has_all) := x in
  if has_all then avg else PosInf.

(** [db_metrics] after [db_metrics.sort(key=...)]. *)
Definition sorted_db_metrics (metrics : list (string * entry_metrics))
  : list (string * float * bool) :=
  list_sort sort_key flt (db_metrics metrics).

(** An entry that the walk has written, as these lines read it: its
    average error is a number. *)
Definition read_entry (entry : Benchmark.entry_metrics) : entry_metrics :=
  {| AVG_tr_err := Number (Benchmark.AVG_tr_err entry);
     has_all_sequences := Benchmark.has_all_sequences entry |}.

Definition read_metrics (metrics : list (string * Benchmark.entry_metrics))
  : list (string * entry_metrics) :=
  map (fun '(path, entry) => (path, read_entry entry)) metrics.

(** An element of the [db_metrics] of the walk, with its number as a
    float. *)
Definition read_db_entry (x : string * Q * bool) : string * float * bool :=
  let '(path, avg, has_all) := x in (path, Number avg, has_all).
End Ranker.

(** ** Vocabulary of the properties of the ranking on floats *)

Module RankerSpec.
Import Py Ranker.

(** The order in which NaN stands behind every other float, and every
    other two floats stand as [<] has them. *)
Definition flt_total (a b : float) : bool :=
  match a, b with
  | NaN, _ => false
  | _, NaN => true
  | _, _ => flt a b
  end.

(** Two orders agree on the keys of the elements of [l]. *)
Definition same_on {A K : Type} (key : A -> K) (lt lt' : K -> K -> bool)
           (l : list A) : Prop :=
  forall x y, In x l -> In y l -> lt (key x) (key y) = lt' (key x) (key y).

(** No complete entry of the mapping has NaN as its average error. *)
Definition complete_without_NaN (metrics : list (string * entry_metrics))
  : Prop :=
  Forall (fun item =>
            has_all_sequences (snd item) = true ->
            AVG_tr_err (snd item) <> NaN)
         metrics.

(** The ranked sequence as C1 states it, for every mapping: of two
    entries of the ranked sequence, the earlier one is complete when
    the later one is, and the average error of the earlier one is not
    greater than that of the later one when both are complete. *)
Definition complete_first_ascending (metrics : list (string * entry_metrics))
  : Prop :=
  forall path1 avg1 complete1 path2 avg2 complete2,
    before (path1, avg1, complete1) (path2, avg2, complete2)
           (sorted_db_metrics metrics) ->
    (complete2 = true -> complete1 = true)
    /\ (complete1 = true -> complete2 = true -> fle avg1 avg2 = true).

(** The ranked sequence as C6 states it, for every mapping: two
    entries with equal sort keys stand in the ranked sequence in the
    order in which the mapping yields them. *)
Definition keeps_encounter_order (metrics : list (string * entry_metrics))
  : Prop :=
  forall x y,
    feq (sort_key x) (sort_key y) = true ->
    before x y (db_metrics metrics) ->
    before x y (sorted_db_metrics metrics).
End RankerSpec.

(** ** Mappings with infinite averages and with NaN *)

Module RankerFixture.
Import Py Ranker.

Definition entry (avg : float) (has_all : bool) : entry_metrics :=
  {| AVG_tr_err := avg; has_all_sequences := has_all |}.

(** An incomplete entry, a complete entry whose average error is NaN,
    and a complete entry with the average error [1]. *)
Definition nan_input : list (string * entry_metrics) :=
  [("runs/x", entry (Number (-1)) false);
   ("runs/n", entry NaN true);
   ("runs/a", entry (Number 1) true)].

(** Three complete entries, with the average errors [2, NaN, 1]. *)
Definition nan_between : list (string * entry_metrics) :=
  [("runs/b", entry (Number 2) true);
   ("runs/n", entry NaN true);
   ("runs/a", entry (Number 1) true)].

(** An incomplete entry, and a complete entry whose average error is
    infinite. *)
Definition inf_input : list (string * entry_metrics) :=
  [("runs/x", entry (Number (-1)) false);
   ("runs/i", entry PosInf true)].

(** Seven complete entries, with the average errors
    [1, 1, 2, 1, NaN, 1, 1]. *)
Definition nan_ties : list (string * entry_metrics) :=
  [("runs/p0", entry (Number 1) true);
   ("runs/p1", entry (Number 1) true);
   ("runs/p2", entry (Number 2) true);
   ("runs/p3", entry (Number 1) true);
   ("runs/p4", entry NaN true);
   ("runs/p5", entry (Number 1) true);
   ("runs/p6", entry (Number 1) true)].

(** Entries with numbers, an infinite average and, in an incomplete
    entry, NaN. *)
Definition float_input : list (string * entry_metrics) :=
  [("runs/x", entry NaN false);
   ("runs/a", entry (Number 5) true);
   ("runs/p", entry (Number 3) true);
   ("runs/y", entry (Number (-1)) false);
   ("runs/q", entry (Number 3) true);
   ("runs/m", entry NegInf true);
   ("runs/b", entry (Number 2) true)].
End RankerFixture.

(** * Properties *)

(** ** The stable sort *)

Section SortFacts.
Context {A K : Type} (key : A -> K) (lt : K -> K -> bool).

(** [lt] is a strict weak order. *)
Hypothesis lt_asym : forall a b, lt a b = true -> lt b a = false.
Hypothesis lt_cotrans :
  forall a b c, lt a b = true -> lt a c = true \/ lt c b = true.

Lemma insort_perm x l : Permutation (Py.insort key lt x l) (x :: l).
Proof.
  induction l as [|y l IH]; simpl; [reflexivity|].
  destruct (lt (key x) (key y)); [reflexivity|].
  rewrite IH. apply perm_swap.
Qed.

Lemma sort_loop_perm l acc :
  Permutation (fold_left (fun sorted x => Py.insort key lt x sorted) l acc)
              (acc ++ l)%list.
Proof.
  revert acc. induction l as [|x l IH]; intros acc; simpl.
  - now rewrite app_nil_r.
  - rewrite IH, insort_perm. apply Permutation_middle.
Qed.

Lemma sort_perm l : Permutation (Py.sort key lt l) l.
Proof. unfold Py.sort. now rewrite sort_loop_perm. Qed.

Lemma insort_sorted x l :
  StronglySorted (ascending key lt) l ->
  StronglySorted (ascending key lt) (Py.insort key lt x l).
Proof.
  induction 1 as [|y l Hl IH Hy]; simpl.
  - repeat constructor.
  - destruct (lt (key x) (key y)) eqn:Hxy.
    + constructor; [now constructor|].
      constructor; [exact (lt_asym _ _ Hxy)|].
      rewrite Forall_forall in Hy |- *. intros z Hz.
      specialize (Hy z Hz). unfold ascending in *.
      destruct (lt (key z) (key x)) eqn:Hzx; [|reflexivity].
      destruct (lt_cotrans _ _ (key y) Hzx) as [Hzy|Hyx].
      * congruence.
      * rewrite (lt_asym _ _ Hxy) in Hyx. discriminate.
    + constructor; [exact IH|].
      rewrite Forall_forall. intros z Hz.
      rewrite insort_perm in Hz. apply elem_of_cons in Hz.
      destruct Hz as [->|Hz]; [exact Hxy|].
      rewrite Forall_forall in Hy. now apply Hy.
Qed.

Lemma sort_loop_sorted l acc :
  StronglySorted (ascending key lt) acc ->
  StronglySorted (ascending key lt)
    (fold_left (fun sorted x => Py.insort key lt x sorted) l acc).
Proof.
  revert acc. induction l as [|x l IH]; intros acc Hacc; simpl; [exact Hacc|].
  apply IH, insort_sorted, Hacc.
Qed.

Lemma sort_sorted l : StronglySorted (ascending key lt) (Py.sort key lt l).
Proof. apply sort_loop_sorted. constructor. Qed.

Lemma filter_none (f : A -> bool) l :
  Forall (fun z => f z = false) l -> List.filter f l = [].
Proof.
  induction 1 as [|z l Hz _ IH]; simpl; [reflexivity|].
  now rewrite Hz.
Qed.

Lemma insort_filter f x l :
  tied key lt f -> StronglySorted (ascending key lt) l ->
  List.filter f (Py.insort key lt x l)
  = (List.filter f l ++ (if f x then [x] else []))%list.
Proof.
  intros Hf. induction 1 as [|y l Hl IH Hy]; simpl.
  - now destruct (f x).
  - destruct (lt (key x) (key y)) eqn:Hxy; simpl.
    + destruct (f x) eqn:Hfx; [|now rewrite app_nil_r].
      assert (Hnone : Forall (fun z => f z = false) (y :: l)).
      { assert (Hup : forall z, lt (key x) (key z) = true -> f z = false).
        { intros z Hxz. destruct (f z) eqn:Hfz; [|reflexivity].
          rewrite (Hf x z Hfx Hfz) in Hxz. discriminate. }
        constructor; [now apply Hup|].
        rewrite Forall_forall in Hy |- *. intros z Hz. apply Hup.
        destruct (lt_cotrans _ _ (key z) Hxy) as [Hxz|Hzy]; [exact Hxz|].
        rewrite (Hy z Hz) in Hzy. discriminate. }
      change (List.filter f (y :: l)) with
        (if f y then y :: List.filter f l else List.filter f l) in *.
      pose proof (filter_none f _ Hnone) as Hnil. simpl in Hnil.
      now rewrite Hnil.
    + destruct (f y); simpl; now rewrite IH.
Qed.

Lemma sort_loop_filter f l acc :
  tied key lt f -> StronglySorted (ascending key lt) acc ->
  List.filter f (fold_left (fun sorted x => Py.insort key lt x sorted) l acc)
  = (List.filter f acc ++ List.filter f l)%list.
Proof.
  intros Hf. revert acc.
  induction l as [|x l IH]; intros acc Hacc; simpl.
  - now rewrite app_nil_r.
  - rewrite IH by now apply insort_sorted.
    rewrite insort_filter by assumption.
    rewrite <- app_assoc. now destruct (f x).
Qed.

(** Stability: the elements of one key leave the sort in the order in
    which they entered it. *)
Lemma sort_filter f l :
  tied key lt f -> List.filter f (Py.sort key lt l) = List.filter f l.
Proof.
  intros Hf. unfold Py.sort.
  rewrite sort_loop_filter by (assumption || constructor). reflexivity.
Qed.
End SortFacts.

Section BeforeFacts.
Context {A : Type}.

Lemma filter_split (f : A -> bool) l a x r :
  List.filter f l = (a ++ x :: r)%list ->
  exists l1 l2, l = (l1 ++ x :: l2)%list
                /\ List.filter f l1 = a /\ List.filter f l2 = r.
Proof.
  revert a. induction l as [|z l IH]; intros a H; simpl in H.
  - destruct a; discriminate.
  - destruct (f z) eqn:Hz.
    + destruct a as [|a0 a]; simpl in H; injection H as -> H.
      * exists [], l. simpl. auto.
      * destruct (IH _ H) as (l1 & l2 & -> & <- & <-).
        exists (a0 :: l1), l2. simpl. now rewrite Hz.
    + destruct (IH _ H) as (l1 & l2 & -> & <- & <-).
      exists (z :: l1), l2. simpl. now rewrite Hz.
Qed.

Lemma before_filter (f : A -> bool) x y l :
  f x = true -> f y = true -> before x y l -> before x y (List.filter f l).
Proof.
  intros Hx Hy (l1 & l2 & l3 & ->).
  exists (List.filter f l1), (List.filter f l2), (List.filter f l3).
  rewrite List.filter_app. simpl. rewrite Hx, List.filter_app. simpl.
  now rewrite Hy.
Qed.

Lemma filter_before (f : A -> bool) x y l :
  before x y (List.filter f l) -> before x y l.
Proof.
  intros (a & b & c & H).
  destruct (filter_split _ _ _ _ _ H) as (l1 & l2 & -> & _ & H2).
  destruct (filter_split _ _ _ _ _ H2) as (l3 & l4 & -> & _ & _).
  now exists l1, l3, l4.
Qed.

Lemma before_lookup x y (l : list A) :
  before x y l ->
  exists i j, (i < j)%nat /\ l !! i = Some x /\ l !! j = Some y.
Proof.
  intros (l1 & l2 & l3 & ->).
  exists (List.length l1), (List.length l1 + S (List.length l2))%nat.
  split; [lia|]. split.
  - now apply list_lookup_middle.
  - rewrite lookup_app_r by lia.
    replace (List.length l1 + S (List.length l2) - List.length l1)%nat
      with (S (List.length l2)) by lia.
    cbn. now apply list_lookup_middle.
Qed.

(** In a list without repetition two elements stand in one order
    only. *)
Lemma before_asym x y (l : list A) :
  NoDup l -> before x y l -> before y x l -> False.
Proof.
  intros Hnd (i & j & Hij & Hi & Hj)%before_lookup
         (j' & i' & Hji & Hj' & Hi')%before_lookup.
  pose proof (NoDup_lookup _ _ _ _ Hnd Hi Hi').
  pose proof (NoDup_lookup _ _ _ _ Hnd Hj Hj').
  lia.
Qed.

(** Two different elements of a list stand in one order or in the
    other. *)
Lemma before_total x y (l : list A) :
  x <> y -> In x l -> In y l -> before x y l \/ before y x l.
Proof.
  intros Hne Hx Hy.
  apply in_split in Hx as (l1 & l2 & ->).
  apply in_app_or in Hy as [Hy|[Hy|Hy]]; [|congruence|].
  - apply in_split in Hy as (a & b & ->). right.
    exists a, b, l2. now rewrite <- app_assoc.
  - apply in_split in Hy as (a & b & ->). left.
    now exists l1, a, b.
Qed.

Lemma before_In x y (l : list A) : before x y l -> In x l /\ In y l.
Proof.
  intros (l1 & l2 & l3 & ->). split.
  - apply in_or_app. right. now left.
  - apply in_or_app. right. right. apply in_or_app. right. now left.
Qed.

Lemma sorted_before (R : A -> A -> Prop) x y l :
  StronglySorted R l -> before x y l -> R x y.
Proof.
  intros Hl (l1 & l2 & l3 & ->).
  apply StronglySorted_app_1_r in Hl.
  apply StronglySorted_inv in Hl as [_ Hx].
  rewrite Forall_forall in Hx. apply Hx.
  apply elem_of_app. right. apply elem_of_cons. now left.
Qed.
End BeforeFacts.

(** ** The order on sort keys *)

Lemma Qltb_lt a b : Py.Qltb a b = true <-> (a < b)%Q.
Proof.
  unfold Py.Qltb. rewrite negb_true_iff.
  split.
  - intros H. apply Qnot_le_lt. intros Hle.
    apply Qle_bool_iff in Hle. congruence.
  - intros H. destruct (Qle_bool b a) eqn:Hle; [|reflexivity].
    apply Qle_bool_iff in Hle. exfalso. exact (Qlt_not_le _ _ H Hle).
Qed.

Lemma Qltb_ge a b : Py.Qltb a b = false <-> (b <= a)%Q.
Proof.
  unfold Py.Qltb. rewrite negb_false_iff. apply Qle_bool_iff.
Qed.

Lemma xlt_asym a b : Py.xlt a b = true -> Py.xlt b a = false.
Proof.
  destruct a as [x|], b as [y|]; simpl; try easy.
  rewrite Qltb_lt, Qltb_ge. apply Qlt_le_weak.
Qed.

Lemma xlt_cotrans a b c :
  Py.xlt a b = true -> Py.xlt a c = true \/ Py.xlt c b = true.
Proof.
  destruct a as [x|], b as [y|], c as [z|]; simpl; auto; try easy.
  rewrite !Qltb_lt. intros Hxy.
  destruct (Qlt_le_dec x z) as [Hxz|Hzx]; [now left|right].
  eapply Qle_lt_trans; eassumption.
Qed.

Lemma xeq_tied {A} (key : A -> Py.xfloat) k :
  tied key Py.xlt (fun e => Py.xeq (key e) k).
Proof.
  intros x y Hx Hy.
  destruct (key x) as [a|], (key y) as [b|], k as [c|]; simpl in *;
    try easy.
  apply Qeq_bool_iff in Hx, Hy. apply Qltb_ge. rewrite Hx, Hy.
  apply Qle_refl.
Qed.

Lemma xeq_refl a : Py.xeq a a = true.
Proof. destruct a; simpl; [apply Qeq_bool_refl|reflexivity]. Qed.

Lemma xeq_sym a b : Py.xeq a b = Py.xeq b a.
Proof. destruct a, b; simpl; try reflexivity. apply Qeq_bool_comm. Qed.

(** ** Exceptions and loops *)

Section ResultFacts.
Import Py.
Context {A S : Type}.

(** A loop raises when the body raises at one of the elements, whatever
    the state in which it gets there. *)
Lemma for_each_raises (l : list A) (body : A -> S -> result S) x :
  In x l -> (forall s, exists e, body x s = inl e) ->
  forall s, exists e, for_each l body s = inl e.
Proof.
  induction l as [|y l IH]; intros Hin Hx s; [destruct Hin|].
  simpl. destruct (body y s) as [e|s'] eqn:Hy; [now exists e|].
  destruct Hin as [->|Hin].
  - destruct (Hx s) as [e He]. congruence.
  - simpl. now apply IH.
Qed.
End ResultFacts.

(** ** Dictionaries in insertion order *)

Section DictFacts.
Import Py.
Context {V : Type}.

Lemma dict_set_not_nil k (v : V) d : dict_set k v d <> [].
Proof. destruct d as [|[k' v'] d]; simpl; [|destruct (String.eqb k k')]; easy. Qed.

Lemma dict_get_set_eq k (v : V) d : dict_get (dict_set k v d) k = Some v.
Proof.
  induction d as [|[k' v'] d IH]; simpl.
  - now rewrite String.eqb_refl.
  - destruct (String.eqb k k') eqn:Hk; simpl.
    + now rewrite String.eqb_refl.
    + now rewrite Hk.
Qed.

Lemma dict_get_set_ne k k' (v : V) d :
  k <> k' -> dict_get (dict_set k v d) k' = dict_get d k'.
Proof.
  intros Hne. induction d as [|[k0 v0] d IH]; simpl.
  - destruct (String.eqb_spec k' k); congruence.
  - destruct (String.eqb_spec k k0) as [->|Hk0]; simpl.
    + destruct (String.eqb_spec k' k0); congruence.
    + now rewrite IH.
Qed.

Lemma dict_set_fresh k (v : V) d :
  dict_get d k = None -> dict_set k v d = (d ++ [(k, v)])%list.
Proof.
  induction d as [|[k' v'] d IH]; simpl; [reflexivity|].
  destruct (String.eqb k k'); [discriminate|].
  intros H. now rewrite IH.
Qed.

Lemma dict_get_app_fresh k k' (v : V) d :
  k <> k' -> dict_get d k' = None ->
  dict_get (d ++ [(k, v)])%list k' = None.
Proof.
  intros Hne. induction d as [|[k0 v0] d IH]; simpl.
  - destruct (String.eqb_spec k' k); congruence.
  - destruct (String.eqb k' k0); [discriminate|exact IH].
Qed.
End DictFacts.

(** ** The walk over the result directories *)

Section BuildFacts.
Import Py Benchmark BenchmarkSpec.
Context {File Poses : Type}.
Context (read_poses_from_disk : File -> result Poses).
Context (compute_kitti_metrics :
         Poses -> Poses -> result (Q * Q * list segment_error)).

Implicit Types (new_dir : @directory File) (r : string -> sequence_metrics).

Local Abbreviation visit_sequence :=
  (visit_sequence read_poses_from_disk compute_kitti_metrics).
Local Abbreviation visit_directory :=
  (visit_directory read_poses_from_disk compute_kitti_metrics).
Local Abbreviation collect_metrics :=
  (collect_metrics read_poses_from_disk compute_kitti_metrics).
Local Abbreviation evaluated :=
  (evaluated read_poses_from_disk compute_kitti_metrics).
Local Abbreviation comparison_fails :=
  (comparison_fails read_poses_from_disk compute_kitti_metrics).

Lemma visit_sequence_found new_dir name files seq_metrics new_metrics has_all :
  pose_files new_dir name = Some files ->
  sequence_entry read_poses_from_disk compute_kitti_metrics name files
  = inr seq_metrics ->
  visit_sequence new_dir name (new_metrics, has_all)
  = inr (dict_set name seq_metrics new_metrics, has_all).
Proof.
  intros Hfiles Hentry. unfold Benchmark.visit_sequence.
  now rewrite Hfiles, Hentry.
Qed.

Lemma visit_sequence_missing new_dir name new_metrics has_all :
  pose_files new_dir name = None ->
  visit_sequence new_dir name (new_metrics, has_all)
  = inr (new_metrics, false).
Proof.
  intros Hfiles. unfold Benchmark.visit_sequence. now rewrite Hfiles.
Qed.

Lemma visit_sequence_raises new_dir name files e state :
  pose_files new_dir name = Some files ->
  sequence_entry read_poses_from_disk compute_kitti_metrics name files
  = inl e ->
  visit_sequence new_dir name state = inl e.
Proof.
  intros Hfiles Hentry. unfold Benchmark.visit_sequence.
  destruct state. now rewrite Hfiles, Hentry.
Qed.

Lemma visit_sequences_evaluated new_dir r names new_metrics has_all :
  evaluated new_dir r names ->
  for_each names (visit_sequence new_dir) (new_metrics, has_all)
  = inr (gathered new_dir r names new_metrics,
         has_all && forallb (found new_dir) names).
Proof.
  revert new_metrics has_all.
  induction names as [|name names IH]; intros new_metrics has_all Hev.
  - simpl. now rewrite andb_true_r.
  - assert (Hev' : evaluated new_dir r names).
    { intros n files Hn. apply Hev. now right. }
    change (for_each (name :: names) (visit_sequence new_dir)
                     (new_metrics, has_all))
      with (visit_sequence new_dir name (new_metrics, has_all)
            ≫= for_each names (visit_sequence new_dir)).
    change (gathered new_dir r (name :: names) new_metrics)
      with (gathered new_dir r names
              (if found new_dir name then dict_set name (r name) new_metrics
               else new_metrics)).
    change (forallb (found new_dir) (name :: names))
      with (found new_dir name && forallb (found new_dir) names).
    unfold found at 1 2.
    destruct (pose_files new_dir name) as [files|] eqn:Hfiles.
    + rewrite (visit_sequence_found _ _ files (r name)) by auto using in_eq.
      change (for_each names (visit_sequence new_dir)
                (dict_set name (r name) new_metrics, has_all)
              = inr (gathered new_dir r names
                       (dict_set name (r name) new_metrics),
                     has_all && (true && forallb (found new_dir) names))).
      now apply IH.
    + rewrite visit_sequence_missing by assumption.
      change (for_each names (visit_sequence new_dir) (new_metrics, false)
              = inr (gathered new_dir r names new_metrics,
                     has_all && (false && forallb (found new_dir) names))).
      rewrite IH by assumption. now rewrite andb_false_r.
Qed.

Lemma gathered_not_nil new_dir r names new_metrics :
  new_metrics <> [] \/ (exists name, In name names /\ found new_dir name = true) ->
  gathered new_dir r names new_metrics <> [].
Proof.
  revert new_metrics.
  induction names as [|name names IH]; intros new_metrics H; simpl.
  - destruct H as [H|(n & [] & _)]. exact H.
  - apply IH. destruct (found new_dir name) eqn:Hname.
    + left. apply dict_set_not_nil.
    + destruct H as [H|(n & [<-|Hn] & Hf)]; [now left|congruence|].
      right. now exists n.
Qed.

Lemma gathered_all new_dir r names new_metrics :
  NoDup names ->
  (forall name, In name names -> found new_dir name = true) ->
  (forall name, In name names -> dict_get new_metrics name = None) ->
  gathered new_dir r names new_metrics
  = (new_metrics ++ map (fun name => (name, r name)) names)%list.
Proof.
  revert new_metrics.
  induction names as [|name names IH]; intros new_metrics Hnd Hf Hfresh.
  - simpl. now rewrite app_nil_r.
  - simpl. rewrite (Hf name) by now left.
    rewrite dict_set_fresh by (apply Hfresh; now left).
    apply NoDup_cons in Hnd as [Hname Hnd].
    rewrite IH; [now rewrite <- app_assoc|assumption| |].
    + intros n Hn. apply Hf. now right.
    + intros n Hn. apply dict_get_app_fresh.
      * intros ->. apply Hname. now apply list_elem_of_In.
      * apply Hfresh. now right.
Qed.

Lemma found_is_metrics_dir (new_dir : @directory File) name :
  In name folder_names -> found new_dir name = true ->
  is_metrics_dir new_dir = true.
Proof.
  intros Hin Hf. unfold is_metrics_dir. apply existsb_exists.
  exists name. split; [exact Hin|].
  apply bool_decide_eq_true. unfold found, pose_files in Hf.
  destruct (folders new_dir !! name); [eauto|discriminate].
Qed.

Lemma folder_names_eq :
  folder_names
  = ["00"; "01"; "02"; "03"; "04"; "05"; "06"; "07"; "08"; "09"; "10"].
Proof. reflexivity. Qed.

Lemma folder_names_NoDup : NoDup folder_names.
Proof. rewrite folder_names_eq. apply (bool_decide_unpack _). now vm_compute. Qed.

(** The directory of a failing comparison is a metrics directory whose
    visit raises. *)
Lemma visit_directory_raises new_dir metrics :
  comparison_fails new_dir -> exists e, visit_directory new_dir metrics = inl e.
Proof.
  intros (name & files & e & Hin & Hfiles & Hentry).
  unfold Benchmark.visit_directory.
  rewrite (found_is_metrics_dir new_dir name Hin)
    by (unfold found; now rewrite Hfiles).
  destruct (for_each_raises folder_names (visit_sequence new_dir) name Hin)
    with (s := ([] : list (string * sequence_metrics), true)) as [e' He'].
  - intros st. exists e. eapply visit_sequence_raises; eassumption.
  - rewrite He'. now exists e'.
Qed.

(** The visit of a directory in which some, but not all, sequences are
    found. *)
Lemma visit_directory_incomplete new_dir metrics r :
  evaluated new_dir r folder_names ->
  (exists name, In name folder_names /\ found new_dir name = true) ->
  (exists name, In name folder_names /\ found new_dir name = false) ->
  visit_directory new_dir metrics
  = inr (dict_set (dir_path new_dir)
           {| sequences := gathered new_dir r folder_names [];
              AVG_tr_err := -1;
              AVG_time := -1;
              has_all_sequences := false;
              command := command_line new_dir |}
           metrics).
Proof.
  intros Hev (n1 & Hn1 & Hf1) (n2 & Hn2 & Hf2).
  unfold Benchmark.visit_directory.
  rewrite (found_is_metrics_dir new_dir n1 Hn1 Hf1).
  rewrite (visit_sequences_evaluated new_dir r) by assumption.
  assert (Hall : forallb (found new_dir) folder_names = false).
  { destruct (forallb (found new_dir) folder_names) eqn:H; [|reflexivity].
    rewrite forallb_forall in H. rewrite (H n2 Hn2) in Hf2. discriminate. }
  rewrite Hall.
  pose proof (gathered_not_nil new_dir r folder_names []
                (or_intror (ex_intro _ n1 (conj Hn1 Hf1)))) as Hne.
  remember (gathered new_dir r folder_names []) as new_metrics.
  destruct new_metrics; [congruence|]. reflexivity.
Qed.

Lemma gathered_nothing new_dir r names new_metrics :
  (forall name, In name names -> found new_dir name = false) ->
  gathered new_dir r names new_metrics = new_metrics.
Proof.
  revert new_metrics.
  induction names as [|name names IH]; intros new_metrics Hnone;
    [reflexivity|].
  cbn [gathered fold_left]. rewrite (Hnone name) by now left.
  apply IH. intros n Hn. apply Hnone. now right.
Qed.

(** The visit of a directory in which no sequence is found leaves the
    mapping as it is. *)
Lemma visit_directory_nothing_found new_dir metrics :
  (forall name, In name folder_names -> found new_dir name = false) ->
  visit_directory new_dir metrics = inr metrics.
Proof.
  intros Hnone. unfold Benchmark.visit_directory.
  destruct (is_metrics_dir new_dir); [|reflexivity].
  set (r := fun _ : string =>
              {| tr_err := 0; rot_err := 0; errors := [];
                 average_time := 0 |}).
  rewrite (visit_sequences_evaluated new_dir r).
  - now rewrite gathered_nothing.
  - intros name files Hin Hfiles. specialize (Hnone name Hin).
    unfold found in Hnone. now rewrite Hfiles in Hnone.
Qed.

Lemma dict_get_map_names r names name :
  In name names ->
  dict_get (map (fun n => (n, r n)) names) name = Some (r name).
Proof.
  induction names as [|n names IH]; intros Hin; [destruct Hin|].
  simpl. destruct (String.eqb_spec name n) as [->|Hne]; [reflexivity|].
  destruct Hin as [->|Hin]; [congruence|auto].
Qed.

Lemma average_times_map r (all names : list string) :
  (forall name, In name names -> In name all) ->
  average_times (map (fun n => (n, r n)) all) names
  = inr (map (fun n => average_time (r n)) names).
Proof.
  induction names as [|n names IH]; intros Hsub; [reflexivity|].
  simpl. unfold dict_item.
  rewrite dict_get_map_names by (apply Hsub; now left). simpl.
  rewrite IH by (intros m Hm; apply Hsub; now right). reflexivity.
Qed.

(** The visit of a directory in which all sequences are found and at
    least one segment is evaluated. *)
Lemma visit_directory_complete new_dir metrics r :
  evaluated new_dir r folder_names ->
  (forall name, In name folder_names -> found new_dir name = true) ->
  let new_metrics := map (fun n => (n, r n)) folder_names in
  let _errors := concat (map (fun kv => errors (snd kv)) new_metrics) in
  _errors <> [] ->
  visit_directory new_dir metrics
  = inr (dict_set (dir_path new_dir)
           {| sequences := new_metrics;
              AVG_tr_err := sum (map seg_tr_err _errors) / len _errors * 100;
              AVG_time :=
                sum (map (fun n => average_time (r n)) folder_names)
                / len folder_names;
              has_all_sequences := true;
              command := command_line new_dir |}
           metrics).
Proof.
  intros Hev Hall new_metrics _errors Hne.
  unfold Benchmark.visit_directory.
  rewrite (found_is_metrics_dir new_dir "00")
    by (try apply Hall; rewrite folder_names_eq; now left).
  rewrite (visit_sequences_evaluated new_dir r) by assumption.
  rewrite (proj2 (forallb_forall _ _) Hall).
  rewrite gathered_all by (auto using folder_names_NoDup).
  change ([] ++ map (fun n => (n, r n)) folder_names)%list with new_metrics.
  assert (Hcons : exists kv rest, new_metrics = kv :: rest).
  { subst new_metrics. rewrite folder_names_eq. simpl. eauto. }
  destruct Hcons as (kv & rest & Hcons).
  change (true && true) with true. cbv beta iota.
  change (mbind ?k (inr ?a)) with (k a). cbv beta iota.
  rewrite Hcons. rewrite <- Hcons.
  unfold make_entry, average_tr_err. fold _errors.
  destruct _errors as [|e0 es] eqn:He; [congruence|].
  unfold div_len at 1. change (mbind ?k (inr ?a)) with (k a). cbv beta.
  unfold average_time_ms. subst new_metrics.
  rewrite average_times_map by auto.
  change (mbind ?k (inr ?a)) with (k a). cbv beta.
  rewrite folder_names_eq at 3. unfold div_len.
  rewrite <- folder_names_eq.
  reflexivity.
Qed.
End BuildFacts.

(** ** Sums and means *)

Lemma fold_left_Qplus l a :
  (fold_left Qplus l a == a + fold_right Qplus 0 l)%Q.
Proof.
  revert a. induction l as [|x l IH]; intros a; simpl.
  - ring.
  - rewrite IH. ring.
Qed.

Lemma sum_fold_right l : (Py.sum l == fold_right Qplus 0 l)%Q.
Proof. unfold Py.sum. rewrite fold_left_Qplus. ring. Qed.

Lemma sum_over_len {A} (f : A -> Q) (l : list A) :
  (Py.sum (map f l) / Py.len l == mean (map f l))%Q.
Proof.
  unfold mean, Py.len. rewrite sum_fold_right, length_map. reflexivity.
Qed.

Lemma segment_errors_concat sequences :
  BenchmarkSpec.segment_errors sequences
  = map Benchmark.seg_tr_err
        (concat (map (fun kv => Benchmark.errors (snd kv)) sequences)).
Proof.
  unfold BenchmarkSpec.segment_errors.
  induction sequences as [|kv l IH]; simpl; [reflexivity|].
  now rewrite IH, map_app.
Qed.

(** ** The ranking of the benchmark *)

Module BenchmarkFacts.
Import Py Benchmark.

Lemma sorted_db_metrics_perm metrics :
  Permutation (sorted_db_metrics metrics) (db_metrics metrics).
Proof. apply sort_perm. Qed.

(** The ranking of entries whose average errors are numbers, as the
    walk stores them ([Ranker] has every float). The ranked sequence
    holds the entries of the mapping, each
    once. Of two entries of the ranked sequence, if the later one is
    complete then so is the earlier one (no incomplete entry stands
    before a complete one, whatever number is stored as its
    [AVG_tr_err]), and if both are complete, the [AVG_tr_err] of the
    earlier one is not greater than that of the later one. *)
Theorem ranking_complete_first_ascending
        (metrics : list (string * entry_metrics)) :
  Permutation (sorted_db_metrics metrics) (db_metrics metrics)
  /\ forall path1 avg1 complete1 path2 avg2 complete2,
      before (path1, avg1, complete1) (path2, avg2, complete2)
             (sorted_db_metrics metrics) ->
      (complete2 = true -> complete1 = true)
      /\ (complete1 = true -> complete2 = true -> (avg1 <= avg2)%Q).
Proof.
  split; [apply sorted_db_metrics_perm|].
  intros p1 a1 c1 p2 a2 c2 H.
  pose proof (sort_sorted sort_key xlt xlt_asym xlt_cotrans
                          (db_metrics metrics)) as Hs.
  pose proof (sorted_before _ _ _ _ Hs H) as Hle.
  unfold ascending in Hle. simpl in Hle.
  destruct c1, c2; simpl in Hle; try easy.
  split; [reflexivity|]. intros _ _. now apply Qltb_ge.
Qed.

Lemma db_metrics_paths metrics :
  map (fun x => fst (fst x)) (db_metrics metrics) = map fst metrics.
Proof.
  unfold db_metrics. rewrite List.map_map. apply map_ext.
  now intros [path entry].
Qed.

Lemma db_metrics_NoDup metrics :
  NoDup (map fst metrics) -> NoDup (db_metrics metrics).
Proof.
  rewrite <- db_metrics_paths. apply (NoDup_fmap_1 (fun x => fst (fst x))).
Qed.

Lemma equal_keys_keep_order metrics x y :
  xeq (sort_key x) (sort_key y) = true ->
  before x y (db_metrics metrics) ->
  before x y (sorted_db_metrics metrics).
Proof.
  intros Hxy H.
  set (f := fun e => xeq (sort_key e) (sort_key x)).
  apply (filter_before f). unfold sorted_db_metrics.
  rewrite (sort_filter sort_key xlt xlt_asym xlt_cotrans f)
    by apply xeq_tied.
  apply before_filter; [apply xeq_refl| |exact H].
  unfold f. now rewrite xeq_sym.
Qed.

(** The ranking of entries whose average errors are numbers is
    stable. Two entries with equal sort keys (both incomplete, or both
    complete with equal [AVG_tr_err]) stand in the ranked sequence in
    the order in which the mapping yields them: the one that the mapping
    yields first stands first in the ranking, and, the keys of a mapping
    being distinct, two different entries stand in the ranking in the
    order of the mapping only. *)
Theorem ranking_stable (metrics : list (string * entry_metrics))
        (x y : string * Q * bool) :
  xeq (sort_key x) (sort_key y) = true ->
  (before x y (db_metrics metrics) ->
   before x y (sorted_db_metrics metrics))
  /\ (NoDup (map fst metrics) -> x <> y ->
      before x y (sorted_db_metrics metrics) ->
      before x y (db_metrics metrics)).
Proof.
  intros Hxy. split; [now apply equal_keys_keep_order|].
  intros Hnd Hne Hout.
  assert (Hin : In x (db_metrics metrics) /\ In y (db_metrics metrics)).
  { destruct (before_In _ _ _ Hout) as [Hx Hy].
    split; apply list_elem_of_In;
      rewrite <- (sorted_db_metrics_perm metrics);
      now apply list_elem_of_In. }
  destruct (before_total x y (db_metrics metrics) Hne) as [H|H];
    [tauto|tauto|exact H|].
  exfalso. apply (before_asym x y (sorted_db_metrics metrics)).
  - rewrite (sorted_db_metrics_perm metrics). now apply db_metrics_NoDup.
  - exact Hout.
  - apply equal_keys_keep_order; [now rewrite xeq_sym|exact H].
Qed.

End BenchmarkFacts.

(** ** The entries of the benchmark *)

Module EntryFacts.
Import Py Benchmark BenchmarkSpec.

Section Entries.
Context {File Poses : Type}.
Context (read_poses_from_disk : File -> result Poses).
Context (compute_kitti_metrics :
           Poses -> Poses -> result (Q * Q * list segment_error)).
Implicit Types (new_dir : @directory File)
         (r : string -> sequence_metrics).

Local Abbreviation visit_directory :=
  (visit_directory read_poses_from_disk compute_kitti_metrics).
Local Abbreviation evaluated :=
  (evaluated read_poses_from_disk compute_kitti_metrics).

Lemma sequence_entry_time name files m :
  sequence_entry read_poses_from_disk compute_kitti_metrics name files
  = inr m ->
  average_time m = read_time_ms name (snd files).
Proof.
  destruct files as [[pf gf] yaml]. unfold sequence_entry.
  destruct (read_poses_from_disk gf) as [|gt_poses]; [discriminate|].
  destruct (read_poses_from_disk pf) as [|poses]; [discriminate|].
  simpl. destruct (compute_kitti_metrics poses gt_poses) as [|[[t ro] es]];
    [discriminate|].
  simpl. now intros [= <-].
Qed.

Lemma read_time_ms_sequence_time new_dir name files :
  pose_files new_dir name = Some files ->
  read_time_ms name (snd files) = sequence_time new_dir name.
Proof.
  unfold pose_files, sequence_time, timing.
  destruct (folders new_dir !! name) as [[[pf|] [gf|] yaml]|];
    try discriminate.
  intros [= <-]. simpl. unfold read_time_ms.
  destruct yaml as [md|]; [|reflexivity]. simpl.
  destruct (md !! name) as [sd|]; [|reflexivity]. simpl.
  now destruct (sd !! "nsecs_per_frame").
Qed.

(** C2 (amended). For a results directory in which every expected
    sequence is found and evaluated, and in which the sequences do
    not all have the same number of segments, the entry is complete
    and its [AVG_tr_err] is 100 times the flat mean of the
    translational errors of all segments of all sequences; it is 100
    times the mean of the per-sequence means exactly when the two
    means coincide. *)
Theorem complete_entry_average_error new_dir metrics r :
  evaluated new_dir r folder_names ->
  (forall name, In name folder_names -> found new_dir name = true) ->
  segment_counts_differ (map (fun n => (n, r n)) folder_names) ->
  exists entry,
    visit_directory new_dir metrics
    = inr (dict_set (dir_path new_dir) entry metrics)
    /\ has_all_sequences entry = true
    /\ sequences entry = map (fun n => (n, r n)) folder_names
    /\ (AVG_tr_err entry == 100 * flat_mean (sequences entry))%Q
    /\ ((AVG_tr_err entry == 100 * mean_of_means (sequences entry))%Q
        <-> (flat_mean (sequences entry)
             == mean_of_means (sequences entry))%Q).
Proof.
  intros Hev Hall Hdiff.
  set (new_metrics := map (fun n => (n, r n)) folder_names) in *.
  set (_errors := concat (map (fun kv => errors (snd kv)) new_metrics)).
  assert (Hne : _errors <> []).
  { intros Hnil. destruct Hdiff as (kv1 & kv2 & H1 & H2 & Hlen).
    assert (Hz : forall kv, In kv new_metrics -> errors (snd kv) = []).
    { intros kv Hkv. apply (in_map (fun kv => errors (snd kv))) in Hkv.
      revert Hkv. generalize (errors (snd kv)).
      unfold _errors in Hnil. revert Hnil.
      generalize (map (fun kv => errors (snd kv)) new_metrics).
      intros ls. induction ls as [|l0 ls IH]; simpl; [easy|].
      intros Happ l [<-|Hl].
      - now apply app_eq_nil in Happ.
      - apply IH; [now apply app_eq_nil in Happ|exact Hl]. }
    now rewrite (Hz kv1 H1), (Hz kv2 H2) in Hlen. }
  eexists. split.
  { apply (visit_directory_complete _ _ new_dir metrics r Hev Hall Hne). }
  assert (Havg : (Py.sum (map seg_tr_err _errors) / len _errors * 100
                == 100 * flat_mean new_metrics)%Q).
  { unfold flat_mean. rewrite segment_errors_concat. fold _errors.
    rewrite sum_over_len. ring. }
  cbn [has_all_sequences sequences AVG_tr_err].
  fold new_metrics. fold _errors.
  split; [reflexivity|]. split; [reflexivity|]. split; [exact Havg|].
  rewrite Havg. split.
  - intros H. apply (Qmult_inj_l _ _ 100); [easy|exact H].
  - intros ->. reflexivity.
Qed.

(** C7. For a results directory in which every expected sequence is
    found and evaluated (with at least one segment, so that the entry
    exists), the entry is complete and its [AVG_time] is the
    arithmetic mean, over all expected sequences, of the time of the
    sequence, where a sequence without timing counts with [-1]. *)
Theorem complete_entry_average_time new_dir metrics r :
  evaluated new_dir r folder_names ->
  (forall name, In name folder_names -> found new_dir name = true) ->
  segment_errors (map (fun n => (n, r n)) folder_names) <> [] ->
  exists entry,
    visit_directory new_dir metrics
    = inr (dict_set (dir_path new_dir) entry metrics)
    /\ has_all_sequences entry = true
    /\ (forall name, In name folder_names ->
         exists m, dict_get (sequences entry) name = Some m
                   /\ average_time m
                      = match timing new_dir name with
                        | Some nsecs_per_frame => (nsecs_per_frame * 1000)%Q
                        | None => (-1)%Q
                        end)
    /\ (AVG_time entry
        == mean (map (fun name =>
                        match timing new_dir name with
                        | Some nsecs_per_frame => (nsecs_per_frame * 1000)%Q
                        | None => (-1)%Q
                        end) folder_names))%Q.
Proof.
  intros Hev Hall Hne.
  rewrite segment_errors_concat in Hne.
  assert (Hne' : concat (map (fun kv => errors (snd kv))
                           (map (fun n => (n, r n)) folder_names))
               <> []).
  { intros H. apply Hne. now rewrite H. }
  assert (Htime : forall name, In name folder_names ->
          average_time (r name) = sequence_time new_dir name).
  { intros name Hin. specialize (Hall name Hin). unfold found in Hall.
    destruct (pose_files new_dir name) as [files|] eqn:Hfiles;
      [|discriminate].
    rewrite (sequence_entry_time name files (r name)) by now apply Hev.
    now apply read_time_ms_sequence_time. }
  eexists. split.
  { apply (visit_directory_complete _ _ new_dir metrics r Hev Hall Hne'). }
  cbn [has_all_sequences sequences AVG_time].
  split; [reflexivity|]. split.
  - intros name Hin. exists (r name).
    split; [now apply dict_get_map_names|now apply Htime].
  - rewrite sum_over_len.
    rewrite (map_ext_in _ (sequence_time new_dir) _ Htime).
    reflexivity.
Qed.

(** C5 (amended). For a results directory in which at least one, but
    not every, expected sequence is found, and in which the sequences
    that are found are evaluated without an exception, an entry is
    produced; it is marked incomplete, and its [AVG_tr_err] and
    [AVG_time] are the sentinel [-1]. *)
Theorem incomplete_entry_sentinel new_dir metrics r :
  evaluated new_dir r folder_names ->
  (exists name, In name folder_names /\ found new_dir name = true) ->
  (exists name, In name folder_names /\ found new_dir name = false) ->
  exists metrics' entry,
    visit_directory new_dir metrics = inr metrics'
    /\ dict_get metrics' (dir_path new_dir) = Some entry
    /\ has_all_sequences entry = false
    /\ AVG_tr_err entry = (-1)%Q
    /\ AVG_time entry = (-1)%Q.
Proof.
  intros Hev Hsome Hnot.
  eexists _, _. split.
  { apply (visit_directory_incomplete _ _ new_dir metrics r); assumption. }
  split; [apply dict_get_set_eq|]. now cbn.
Qed.

(** C4 (amended). A failure while one comparison is evaluated is
    fatal for the batch: when the evaluation of a sequence of one
    results directory raises, the walk over the directories raises,
    and so does [build_benchmark]; no entry is produced, for this
    directory or for any other. *)
Theorem failed_comparison_aborts_batch
        (resolve : string -> string) (cfg : BenchmarkBuilderConfig)
        (directory_list : list (@directory File)) new_dir :
  In new_dir directory_list ->
  comparison_fails read_poses_from_disk compute_kitti_metrics new_dir ->
  (exists e, collect_metrics read_poses_from_disk compute_kitti_metrics
                             directory_list = inl e)
  /\ (exists e, build_benchmark read_poses_from_disk compute_kitti_metrics
                                resolve cfg directory_list = inl e).
Proof.
  intros Hin Hfail.
  assert (Hwalk : exists e,
             collect_metrics read_poses_from_disk compute_kitti_metrics
                             directory_list = inl e).
  { apply (for_each_raises directory_list visit_directory new_dir Hin).
    intros metrics. now apply visit_directory_raises. }
  split; [exact Hwalk|].
  destruct Hwalk as [e He]. unfold build_benchmark.
  destruct (assert_debug _ _) as [e'|[]]; [now exists e'|].
  simpl. rewrite He. now exists e.
Qed.

(** C3 (amended). For a sequence whose [metrics.yaml] has the field
    [nsecs_per_frame] under the name of the sequence, the time of the
    sequence is the value of that field multiplied by [1000.0]. *)
Theorem sequence_time_scaling
        (sequence_name : string) (metrics_dict : metrics_yaml_dict)
        (seq_dict : gmap string Q) (nsecs_per_frame : Q) :
  metrics_dict !! sequence_name = Some seq_dict ->
  seq_dict !! "nsecs_per_frame" = Some nsecs_per_frame ->
  read_time_ms sequence_name (Some metrics_dict)
  = (nsecs_per_frame * 1000)%Q
  /\ forall poses_file gt_poses_file seq_metrics,
      sequence_entry read_poses_from_disk compute_kitti_metrics
                     sequence_name
                     (poses_file, gt_poses_file, Some metrics_dict)
      = inr seq_metrics ->
      average_time seq_metrics = (nsecs_per_frame * 1000)%Q.
Proof.
  intros Hseq Hfield.
  assert (H : read_time_ms sequence_name (Some metrics_dict)
            = (nsecs_per_frame * 1000)%Q).
  { unfold read_time_ms. now rewrite Hseq, Hfield. }
  split; [exact H|].
  intros pf gf m Hentry.
  now rewrite (sequence_entry_time _ _ _ Hentry).
Qed.
End Entries.
End EntryFacts.

(** ** Numbers in decimal notation *)

Section DecimalFacts.
Import Py ReportSpec.

Lemma is_digit_digit n : is_digit (digit n) = true.
Proof.
  unfold is_digit, digit.
  pose proof (Z.mod_pos_bound n 10 ltac:(lia)) as Hn.
  rewrite nat_ascii_embedding by lia.
  apply andb_true_iff. split; apply Nat.leb_le; lia.
Qed.

Lemma digit_value n : (Z.of_nat (nat_of_ascii (digit n)) - 48 = n mod 10)%Z.
Proof.
  unfold digit.
  pose proof (Z.mod_pos_bound n 10 ltac:(lia)) as Hn.
  rewrite nat_ascii_embedding by lia. lia.
Qed.

Lemma all_digits_app a b :
  all_digits (a ++ b) = all_digits a && all_digits b.
Proof.
  induction a as [|c a IH]; simpl; [reflexivity|].
  now rewrite IH, andb_assoc.
Qed.

Lemma read_digits_app a b acc :
  read_digits (a ++ b) acc = read_digits b (read_digits a acc).
Proof.
  revert acc. induction a as [|c a IH]; intros acc; simpl; [reflexivity|].
  apply IH.
Qed.

Lemma string_length_app (a b : string) :
  String.length (a ++ b) = (String.length a + String.length b)%nat.
Proof. induction a as [|c a IH]; simpl; [reflexivity|]. now rewrite IH. Qed.

Lemma digits_length w n : String.length (digits w n) = w.
Proof.
  revert n. induction w as [|w IH]; intros n; simpl; [reflexivity|].
  rewrite string_length_app, IH. simpl. lia.
Qed.

Lemma digits_all_digits w n : all_digits (digits w n) = true.
Proof.
  revert n. induction w as [|w IH]; intros n; simpl; [reflexivity|].
  rewrite all_digits_app, IH. cbn [all_digits andb]. now rewrite is_digit_digit.
Qed.

Lemma read_digits_digits w n acc :
  (0 <= n)%Z ->
  read_digits (digits w n) acc
  = (acc * 10 ^ Z.of_nat w + n mod 10 ^ Z.of_nat w)%Z.
Proof.
  revert n acc. induction w as [|w IH]; intros n acc Hn.
  - simpl. rewrite Z.mod_1_r. lia.
  - cbn [digits]. rewrite read_digits_app.
    rewrite IH by (apply Z.div_pos; lia).
    cbn [read_digits]. rewrite digit_value.
    rewrite Nat2Z.inj_succ, Z.pow_succ_r by lia.
    rewrite (Z.rem_mul_r n 10 (10 ^ Z.of_nat w)) by lia.
    lia.
Qed.


Lemma count_digits_bound fuel n :
  (0 <= n < 10 ^ (Z.of_nat fuel + 1))%Z ->
  (n < 10 ^ Z.of_nat (count_digits fuel n))%Z.
Proof.
  revert n. induction fuel as [|fuel IH]; intros n Hn.
  - simpl in *. lia.
  - cbn [count_digits]. destruct (Z.ltb_spec n 10) as [Hlt|Hge].
    + simpl. lia.
    + rewrite Nat2Z.inj_succ, Z.pow_succ_r by lia.
      assert (n / 10 < 10 ^ Z.of_nat (count_digits fuel (n / 10)))%Z.
      { apply IH. split; [apply Z.div_pos; lia|].
        apply Z.div_lt_upper_bound; [lia|].
        rewrite <- Z.pow_succ_r by lia.
        replace (Z.succ (Z.of_nat fuel + 1)) with (Z.of_nat (S fuel) + 1)%Z
          by lia.
        lia. }
      pose proof (Z.mul_div_le n 10 ltac:(lia)).
      pose proof (Z.mod_pos_bound n 10 ltac:(lia)).
      pose proof (Z.div_mod n 10 ltac:(lia)). lia.
Qed.

Lemma ndigits_bound n : (0 <= n)%Z -> (n < 10 ^ Z.of_nat (ndigits n))%Z.
Proof.
  intros Hn. unfold ndigits. apply count_digits_bound.
  split; [exact Hn|].
  rewrite Z2Nat.id by apply Z.log2_nonneg.
  destruct (Z.eq_dec n 0%Z) as [->|Hne]; [simpl; lia|].
  pose proof (Z.log2_spec n ltac:(lia)) as [_ Hlog].
  eapply Z.lt_le_trans; [exact Hlog|].
  replace (Z.succ (Z.log2 n)) with (Z.log2 n + 1)%Z by lia.
  apply Z.pow_le_mono_l. lia.
Qed.





End DecimalFacts.

(** ** The rows of the report *)

Module ReportFacts.
Import Py Benchmark ReportSpec.








Lemma visit_entry_found resolve metrics entry _metrics
      main_table_lines command_lines :
  dict_get metrics (fst (fst entry)) = Some _metrics ->
  visit_entry resolve metrics entry (main_table_lines, command_lines)
  = inr ((main_table_lines ++ [table_line resolve _metrics entry])%list,
         (command_lines
            ++ [command_table_line resolve _metrics (fst (fst entry))])%list).
Proof. intros Hget. unfold visit_entry, dict_item. now rewrite Hget. Qed.









End ReportFacts.

(** ** The dataset of CT-ICP *)

Module DatasetFacts.
Import Py CtIcpDataset DatasetSpec.

Lemma contains_In l x : contains l x = true <-> In x l.
Proof.
  unfold contains. rewrite existsb_exists. split.
  - intros (y & Hy & Heq). apply String.eqb_eq in Heq. now subst.
  - intros H. exists x. split; [exact H|apply String.eqb_refl].
Qed.

Lemma KITTI_SEQUENCE_eq : __KITTI_SEQUENCE = kitti_identifiers.
Proof. reflexivity. Qed.

Lemma KITTI_CARLA_SEQUENCE_eq :
  __KITTI_CARLA_SEQUENCE = kitti_carla_identifiers.
Proof. reflexivity. Qed.

(** C9. [have_sequence] is true exactly for the two-digit identifiers
    from ["00"] to ["21"] other than ["03"] and for the identifiers from
    ["Town01"] to ["Town07"]; ["03"] is not recognised, and it is one of
    the folder names that the benchmark expects. *)
Theorem have_sequence_iff :
  (forall seq_name : string,
      have_sequence seq_name = true
      <-> In seq_name kitti_identifiers
          \/ In seq_name kitti_carla_identifiers)
  /\ have_sequence "03" = false
  /\ In "03" Benchmark.folder_names.
Proof.
  split; [|split].
  - intros seq_name. unfold have_sequence.
    rewrite orb_true_iff, !contains_In.
    now rewrite KITTI_SEQUENCE_eq, KITTI_CARLA_SEQUENCE_eq.
  - reflexivity.
  - rewrite folder_names_eq. do 3 right. now left.
Qed.

Section Sequence.
Context {DatasetOptions Point Pose : Type}.
Context (is_NCLT : DatasetOptions -> bool).
Context (get_dataset_sequence :
           DatasetOptions -> Z -> list (@lidar_frame Point)).
Context (has_ground_truth : DatasetOptions -> Z -> bool).
Context (load_sensor_ground_truth : DatasetOptions -> Z -> list Pose).
Context (astype_float32 : list Point -> list Point).

Local Abbreviation __init__ :=
  (__init__ is_NCLT get_dataset_sequence has_ground_truth
            load_sensor_ground_truth).
Local Abbreviation __getitem__ :=
  (@CtIcpDataset.__getitem__ DatasetOptions Point Pose astype_float32).
Implicit Types self : @CT_ICPDatasetSequence DatasetOptions Point Pose.

Lemma init_fields options sequence_id gt_channel pc_channel self :
  __init__ options sequence_id gt_channel pc_channel = inr self ->
  gt_pose_channel self = gt_channel
  /\ numpy_pc_channel self = pc_channel
  /\ dataset_sequences self = get_dataset_sequence options sequence_id
  /\ gt self = if has_ground_truth options sequence_id
               then Some (load_sensor_ground_truth options sequence_id)
               else None.
Proof.
  unfold CtIcpDataset.__init__.
  destruct (assert_debug _ _) as [e|[]]; [discriminate|].
  intros [= <-]. now cbn.
Qed.

Lemma getitem_out_of_bounds self idx :
  (idx < 0 \/ __len__ self <= idx)%Z ->
  __getitem__ self idx = inl (AssertionError "Index Error").
Proof.
  intros H. unfold CtIcpDataset.__getitem__.
  replace ((0 <=? idx)%Z && (idx <? __len__ self)%Z) with false;
    [reflexivity|].
  symmetry. apply andb_false_iff.
  destruct H; [left; apply Z.leb_gt|right; apply Z.ltb_ge]; assumption.
Qed.

Lemma Frame_in_bounds self idx :
  (0 <= idx < __len__ self)%Z ->
  exists frame, Frame self idx = inr frame.
Proof.
  intros [H0 Hlen]. unfold Frame, __len__ in *.
  destruct (Z.ltb_spec idx 0); [lia|].
  destruct (nth_error (dataset_sequences self) (Z.to_nat idx)) eqn:Hnth;
    [eauto|].
  apply nth_error_None in Hnth. lia.
Qed.

Lemma ndarray_item_in_bounds {A} (array : list A) idx :
  (0 <= idx < Z.of_nat (List.length array))%Z ->
  exists a, ndarray_item array idx = inr a.
Proof.
  intros [H0 Hlen]. unfold ndarray_item.
  destruct (Z.ltb_spec idx 0); [lia|].
  destruct (Z.leb_spec 0 idx); [|lia].
  destruct (Z.ltb_spec idx (Z.of_nat (List.length array))); [|lia].
  cbn. destruct (nth_error array (Z.to_nat idx)) eqn:Hnth; [eauto|].
  apply nth_error_None in Hnth. lia.
Qed.

(** C10 (amended). For a sequence that was constructed, an index below
    [0] or not below [len(self)] fails the assertion with the message
    ["Index Error"]. For an index within the bounds at which the ground
    truth, when there is one, has a pose, the access gives a dictionary
    that has the point cloud channel and its timestamps channel, that
    has the ground truth channel when there is a ground truth, and that,
    when the name of the ground truth channel is neither of the two
    other names, has the ground truth channel only when there is a
    ground truth. *)
Theorem getitem_channels
        options sequence_id gt_channel pc_channel self (idx : Z) :
  __init__ options sequence_id gt_channel pc_channel = inr self ->
  ((idx < 0 \/ __len__ self <= idx)%Z ->
   __getitem__ self idx = inl (AssertionError "Index Error"))
  /\ ((0 <= idx < __len__ self)%Z ->
      (has_ground_truth options sequence_id = true ->
       (idx < Z.of_nat (List.length
                          (load_sensor_ground_truth options sequence_id)))%Z) ->
      exists data_dict,
        __getitem__ self idx = inr data_dict
        /\ is_Some (data_dict !! pc_channel)
        /\ is_Some (data_dict !! (pc_channel ++ "_timestamps"))
        /\ (has_ground_truth options sequence_id = true ->
            is_Some (data_dict !! gt_channel))
        /\ (gt_channel <> pc_channel ->
            gt_channel <> pc_channel ++ "_timestamps" ->
            is_Some (data_dict !! gt_channel) ->
            has_ground_truth options sequence_id = true)).
Proof.
  intros Hinit.
  destruct (init_fields _ _ _ _ _ Hinit) as (Hgtc & Hpcc & _ & Hgt).
  split; [apply getitem_out_of_bounds|].
  intros Hidx Hpose.
  unfold CtIcpDataset.__getitem__.
  replace ((0 <=? idx)%Z && (idx <? __len__ self)%Z) with true
    by (symmetry; apply andb_true_iff; split;
        [apply Z.leb_le|apply Z.ltb_lt]; lia).
  destruct (Frame_in_bounds self idx Hidx) as [frame ->].
  cbn. rewrite Hgt, Hgtc, Hpcc.
  destruct (has_ground_truth options sequence_id) eqn:Hhas.
  - destruct (ndarray_item_in_bounds
              (load_sensor_ground_truth options sequence_id) idx)
    as [pose ->]; [split; [lia|auto]|].
    cbn. eexists. split; [reflexivity|].
    split; [|split; [|split]].
    + destruct (decide (gt_channel = pc_channel)) as [->|Hne].
      * rewrite lookup_insert_eq. eauto.
      * rewrite lookup_insert_ne by assumption.
        destruct (decide (pc_channel ++ "_timestamps" = pc_channel))
          as [Heq|Hne'].
        -- rewrite Heq, lookup_insert_eq. eauto.
        -- rewrite lookup_insert_ne, lookup_insert_eq by assumption. eauto.
    + destruct (decide (gt_channel = pc_channel ++ "_timestamps"))
        as [->|Hne].
      * rewrite lookup_insert_eq. eauto.
      * rewrite lookup_insert_ne, lookup_insert_eq by assumption. eauto.
    + intros _. rewrite lookup_insert_eq. eauto.
    + reflexivity.
  - eexists. split; [reflexivity|].
    split; [|split; [|split]].
    + destruct (decide (pc_channel ++ "_timestamps" = pc_channel))
        as [Heq|Hne'].
      * rewrite Heq, lookup_insert_eq. eauto.
      * rewrite lookup_insert_ne, lookup_insert_eq by assumption. eauto.
    + rewrite lookup_insert_eq. eauto.
    + discriminate.
    + intros Hne1 Hne2 [v Hv].
      rewrite !lookup_insert_ne, lookup_empty in Hv by congruence.
      discriminate.
Qed.
End Sequence.
End DatasetFacts.

(** ** The examples *)

Module Examples.
Import Py Benchmark BenchmarkSpec Fixture.

Lemma evaluated_fixture path names n :
  evaluated read_poses_from_disk compute_kitti_metrics
            (results path names (fun s => folder s n n (ones s) (timed s)))
            evaluation folder_names.
Proof.
  intros name files Hin Hfiles.
  unfold pose_files, results in Hfiles. cbn [folders] in Hfiles.
  destruct (list_to_map _ !! name) as [sf|] eqn:Hsf; [|discriminate].
  apply elem_of_list_to_map_2, list_elem_of_In, in_map_iff in Hsf.
  destruct Hsf as (s & [= <- <-] & _).
  unfold folder in Hfiles. cbn in Hfiles. injection Hfiles as <-.
  unfold sequence_entry, read_poses_from_disk, compute_kitti_metrics.
  cbn. rewrite Nat.eqb_refl. cbn. unfold evaluation, read_time_ms.
  f_equal. f_equal.
  destruct (timed s) as [v|] eqn:Ht; [|reflexivity].
  now rewrite lookup_singleton_eq, lookup_singleton_eq.
Qed.

Example format_02_7 : format_02 7 = "07".
Proof. reflexivity. Qed.

Example format_02_10 : format_02 10 = "10".
Proof. reflexivity. Qed.

Example format_02_123 : format_02 123 = "123".
Proof. reflexivity. Qed.

Example format_fixed_rounds_down : format_fixed 4 (12344 # 100000) = "0.1234".
Proof. reflexivity. Qed.

Example format_fixed_tie_to_even : format_fixed 1 (25 # 100) = "0.2".
Proof. reflexivity. Qed.

Example format_fixed_rounds_up : format_fixed 3 (123456789 # 10000) = "12345.679".
Proof. reflexivity. Qed.

Example format_fixed_sentinel : format_fixed 4 (-1) = "-1.0000".
Proof. reflexivity. Qed.

Example format_fixed_negative_zero : format_fixed 4 (-1 # 100000) = "-0.0000".
Proof. reflexivity. Qed.

Example basename_of_path : basename "runs/2021/a" = "a".
Proof. reflexivity. Qed.

Example basename_without_bar : basename "a" = "a".
Proof. reflexivity. Qed.

Example basename_trailing_bar : basename "/runs/a/" = "".
Proof. reflexivity. Qed.

(** Case analysis on the names of [folder_names]. *)
Ltac each_folder_name H :=
  rewrite folder_names_eq in H;
  repeat (destruct H as [<-|H]; [vm_compute; reflexivity|]);
  destruct H.

Lemma complete_dir_found name :
  In name folder_names -> found complete_dir name = true.
Proof. intros H. each_folder_name H. Qed.

Example sorted_ranking_input :
  sorted_db_metrics ranking_input
  = [("runs/b", 2%Q, true); ("runs/p", 3%Q, true); ("runs/q", 3%Q, true);
     ("runs/a", 5%Q, true); ("runs/x", (-1)%Q, false);
     ("runs/y", (-1)%Q, false)].
Proof. reflexivity. Qed.

Lemma ranking_complete_first_ascending_witness :
  before ("runs/b", 2%Q, true) ("runs/a", 5%Q, true)
         (sorted_db_metrics ranking_input)
  /\ (true = true -> true = true)
  /\ (true = true -> true = true -> (2 <= 5)%Q).
Proof.
  split.
  - exists [], [("runs/p", 3%Q, true); ("runs/q", 3%Q, true)],
      [("runs/x", (-1)%Q, false); ("runs/y", (-1)%Q, false)].
    reflexivity.
  - apply (proj2 (BenchmarkFacts.ranking_complete_first_ascending
                    ranking_input) "runs/b" _ _ "runs/a").
    exists [], [("runs/p", 3%Q, true); ("runs/q", 3%Q, true)],
      [("runs/x", (-1)%Q, false); ("runs/y", (-1)%Q, false)].
    reflexivity.
Defined.

Lemma ranking_stable_witness :
  xeq (sort_key ("runs/x", (-1)%Q, false))
      (sort_key ("runs/y", (-1)%Q, false)) = true
  /\ before ("runs/x", (-1)%Q, false) ("runs/y", (-1)%Q, false)
            (db_metrics ranking_input)
  /\ before ("runs/x", (-1)%Q, false) ("runs/y", (-1)%Q, false)
            (sorted_db_metrics ranking_input).
Proof.
  assert (H : before ("runs/x", (-1)%Q, false) ("runs/y", (-1)%Q, false)
                     (db_metrics ranking_input)).
  { exists [], [("runs/a", 5%Q, true); ("runs/p", 3%Q, true)],
      [("runs/q", 3%Q, true); ("runs/b", 2%Q, true)].
    reflexivity. }
  split; [reflexivity|]. split; [exact H|].
  apply (proj1 (BenchmarkFacts.ranking_stable
                  ranking_input ("runs/x", (-1)%Q, false)
                  ("runs/y", (-1)%Q, false) eq_refl)).
  exact H.
Defined.

(** Sorting again, from the other end of the mapping, shows the other
    order of the entries with equal keys: the order is that of the
    mapping, not one of the entries themselves. *)
Example sorted_reversed_ranking_input :
  sorted_db_metrics (rev ranking_input)
  = [("runs/b", 2%Q, true); ("runs/q", 3%Q, true); ("runs/p", 3%Q, true);
     ("runs/a", 5%Q, true); ("runs/y", (-1)%Q, false);
     ("runs/x", (-1)%Q, false)].
Proof. reflexivity. Qed.

(** C2, as stated, fails for the entry of [complete_dir]: all
    its segments have the error [1], the flat mean and the mean of the
    means are [1], and [AVG_tr_err] is [100]. *)
Lemma average_error_is_scaled :
  exists entry,
    collect_metrics read_poses_from_disk compute_kitti_metrics
                    [complete_dir] = inr [("runs/a", entry)]
    /\ has_all_sequences entry = true
    /\ segment_counts_differ (sequences entry)
    /\ (AVG_tr_err entry == 100)%Q
    /\ (flat_mean (sequences entry) == 1)%Q
    /\ (mean_of_means (sequences entry) == 1)%Q
    /\ ~ flat_mean_unscaled entry.
Proof.
  eexists. split; [vm_compute; reflexivity|].
  split; [reflexivity|]. split.
  { eexists _, _. split; [left; reflexivity|].
    split; [right; left; reflexivity|]. vm_compute. lia. }
  split; [now vm_compute|]. split; [now vm_compute|].
  split; [now vm_compute|].
  intros [H _]. vm_compute in H. discriminate.
Qed.

(** Where the sequences differ in their errors, the flat mean and the
    mean of the means differ: in [skewed_dir] thirteen segments have the
    sum [19], and eleven sequences have the means [3] and ten times
    [1]. *)
Example skewed_dir_average_error :
  exists entry,
    collect_metrics read_poses_from_disk compute_kitti_metrics
                    [skewed_dir] = inr [("runs/s", entry)]
    /\ (flat_mean (sequences entry) == 19 # 13)%Q
    /\ (mean_of_means (sequences entry) == 13 # 11)%Q
    /\ (AVG_tr_err entry == 100 * (19 # 13))%Q.
Proof.
  eexists. split; [vm_compute; reflexivity|].
  split; [now vm_compute|]. split; now vm_compute.
Qed.

Lemma complete_entry_average_error_witness :
  evaluated read_poses_from_disk compute_kitti_metrics complete_dir
            evaluation folder_names
  /\ (forall name, In name folder_names -> found complete_dir name = true)
  /\ segment_counts_differ (map (fun n => (n, evaluation n)) folder_names)
  /\ exists entry,
      visit_directory read_poses_from_disk compute_kitti_metrics
                      complete_dir []
      = inr (dict_set (dir_path complete_dir) entry [])
      /\ has_all_sequences entry = true
      /\ sequences entry = map (fun n => (n, evaluation n)) folder_names
      /\ (AVG_tr_err entry == 100 * flat_mean (sequences entry))%Q
      /\ ((AVG_tr_err entry == 100 * mean_of_means (sequences entry))%Q
          <-> (flat_mean (sequences entry)
               == mean_of_means (sequences entry))%Q).
Proof.
  assert (Hdiff : segment_counts_differ
                    (map (fun n => (n, evaluation n)) folder_names)).
  { exists ("00", evaluation "00"), ("01", evaluation "01").
    split; [left; reflexivity|]. split; [right; left; reflexivity|].
    vm_compute. lia. }
  split; [apply evaluated_fixture|]. split; [apply complete_dir_found|].
  split; [exact Hdiff|].
  apply (EntryFacts.complete_entry_average_error
           read_poses_from_disk compute_kitti_metrics complete_dir []
           evaluation).
  - apply evaluated_fixture.
  - apply complete_dir_found.
  - exact Hdiff.
Defined.

Lemma partial_dir_found : found partial_dir "00" = true.
Proof. reflexivity. Qed.

Lemma partial_dir_not_found : found partial_dir "01" = false.
Proof. reflexivity. Qed.

Lemma in_folder_names_00 : In "00" folder_names.
Proof. now left. Qed.

Lemma in_folder_names_01 : In "01" folder_names.
Proof. right. now left. Qed.

Lemma complete_entry_average_time_witness :
  evaluated read_poses_from_disk compute_kitti_metrics complete_dir
            evaluation folder_names
  /\ (forall name, In name folder_names -> found complete_dir name = true)
  /\ segment_errors (map (fun n => (n, evaluation n)) folder_names) <> []
  /\ exists entry,
      visit_directory read_poses_from_disk compute_kitti_metrics
                      complete_dir []
      = inr (dict_set (dir_path complete_dir) entry [])
      /\ has_all_sequences entry = true
      /\ (forall name, In name folder_names ->
           exists m, dict_get (sequences entry) name = Some m
                     /\ average_time m
                        = match timing complete_dir name with
                          | Some nsecs_per_frame =>
                              (nsecs_per_frame * 1000)%Q
                          | None => (-1)%Q
                          end)
      /\ (AVG_time entry
          == mean (map (fun name =>
                          match timing complete_dir name with
                          | Some nsecs_per_frame =>
                              (nsecs_per_frame * 1000)%Q
                          | None => (-1)%Q
                          end) folder_names))%Q.
Proof.
  assert (Hne : segment_errors (map (fun n => (n, evaluation n))
                                    folder_names) <> []).
  { vm_compute. discriminate. }
  split; [apply evaluated_fixture|]. split; [apply complete_dir_found|].
  split; [exact Hne|].
  apply (EntryFacts.complete_entry_average_time
           read_poses_from_disk compute_kitti_metrics complete_dir []
           evaluation).
  - apply evaluated_fixture.
  - apply complete_dir_found.
  - exact Hne.
Defined.

(** The time of [complete_dir]: ten sequences with [20] and the
    sentinel [-1] of the sequence without timing, over eleven. *)
Example complete_dir_average_time :
  exists entry,
    collect_metrics read_poses_from_disk compute_kitti_metrics
                    [complete_dir] = inr [("runs/a", entry)]
    /\ (AVG_time entry == 199 # 11)%Q.
Proof. eexists. split; [vm_compute; reflexivity|now vm_compute]. Qed.

(** C5, as stated, fails for [empty_dir]: it is a metrics
    directory in which not all sequences are found, and the walk
    produces no entry for it. *)
Lemma no_entry_without_sequences :
  is_metrics_dir empty_dir = true
  /\ (exists name, In name folder_names /\ found empty_dir name = false)
  /\ collect_metrics read_poses_from_disk compute_kitti_metrics [empty_dir]
     = inr []
  /\ ~ incomplete_entry_produced read_poses_from_disk compute_kitti_metrics
                                 empty_dir.
Proof.
  split; [reflexivity|]. split.
  { exists "00". split; [apply in_folder_names_00|reflexivity]. }
  split; [reflexivity|].
  intros (metrics & entry & Hwalk & Hget & _).
  vm_compute in Hwalk. injection Hwalk as <-. discriminate.
Qed.

Lemma incomplete_entry_sentinel_witness :
  evaluated read_poses_from_disk compute_kitti_metrics partial_dir
            evaluation folder_names
  /\ (exists name, In name folder_names /\ found partial_dir name = true)
  /\ (exists name, In name folder_names /\ found partial_dir name = false)
  /\ exists metrics' entry,
      visit_directory read_poses_from_disk compute_kitti_metrics
                      partial_dir [] = inr metrics'
      /\ dict_get metrics' (dir_path partial_dir) = Some entry
      /\ has_all_sequences entry = false
      /\ AVG_tr_err entry = (-1)%Q
      /\ AVG_time entry = (-1)%Q.
Proof.
  assert (H1 : exists name,
             In name folder_names /\ found partial_dir name = true).
  { exists "00". split; [apply in_folder_names_00|reflexivity]. }
  assert (H2 : exists name,
             In name folder_names /\ found partial_dir name = false).
  { exists "01". split; [apply in_folder_names_01|reflexivity]. }
  split; [apply evaluated_fixture|]. split; [exact H1|]. split; [exact H2|].
  apply (EntryFacts.incomplete_entry_sentinel
           read_poses_from_disk compute_kitti_metrics partial_dir []
           evaluation).
  - apply evaluated_fixture.
  - exact H1.
  - exact H2.
Defined.

Lemma mismatch_dir_fails :
  comparison_fails read_poses_from_disk compute_kitti_metrics mismatch_dir.
Proof.
  eexists "00", _, (Raised "ShapeMismatch").
  split; [apply in_folder_names_00|]. split; reflexivity.
Qed.

(** C4, as stated, fails for the batch of [partial_dir] and
    [mismatch_dir]: alone, [partial_dir] yields its entry; in a batch
    with [mismatch_dir], whose comparison fails with [ShapeMismatch],
    the walk raises, and no entry is produced for either directory. *)
Lemma failure_is_not_isolated :
  comparison_fails read_poses_from_disk compute_kitti_metrics mismatch_dir
  /\ (exists entry,
        collect_metrics read_poses_from_disk compute_kitti_metrics
                        [partial_dir] = inr [("runs/b", entry)])
  /\ collect_metrics read_poses_from_disk compute_kitti_metrics
                     [partial_dir; mismatch_dir]
     = inl (Raised "ShapeMismatch")
  /\ ~ failures_isolated read_poses_from_disk compute_kitti_metrics
                         [partial_dir; mismatch_dir].
Proof.
  split; [apply mismatch_dir_fails|].
  split; [eexists; vm_compute; reflexivity|].
  split; [reflexivity|].
  intros (metrics & Hwalk & _). vm_compute in Hwalk. discriminate.
Qed.

Lemma failed_comparison_aborts_batch_witness :
  In mismatch_dir [partial_dir; mismatch_dir]
  /\ comparison_fails read_poses_from_disk compute_kitti_metrics
                      mismatch_dir
  /\ (exists e,
        collect_metrics read_poses_from_disk compute_kitti_metrics
                        [partial_dir; mismatch_dir] = inl e)
  /\ (exists e,
        build_benchmark read_poses_from_disk compute_kitti_metrics
                        (fun path => "/home/" ++ path)
                        {| root_dir := "runs"; dataset := "kitti";
                           output_dir := ".benchmark" |}
                        [partial_dir; mismatch_dir] = inl e).
Proof.
  assert (Hin : In mismatch_dir [partial_dir; mismatch_dir]).
  { right. left. reflexivity. }
  split; [exact Hin|]. split; [apply mismatch_dir_fails|].
  apply (EntryFacts.failed_comparison_aborts_batch
           read_poses_from_disk compute_kitti_metrics _ _ _ mismatch_dir).
  - exact Hin.
  - apply mismatch_dir_fails.
Defined.

(** C3, as stated, fails for a timing of one unit: the time of
    the sequence is [1000], not [1e-6]. *)
Lemma time_is_not_scaled_down :
  unit_timing !! "00" = Some {[ "nsecs_per_frame" := 1%Q ]}
  /\ read_time_ms "00" (Some unit_timing) = 1000%Q
  /\ ~ time_scaled_down "00" unit_timing 1.
Proof.
  split; [reflexivity|]. split; [reflexivity|].
  unfold time_scaled_down. intros H. vm_compute in H. discriminate.
Qed.

Lemma sequence_time_scaling_witness :
  unit_timing !! "00" = Some ({[ "nsecs_per_frame" := 1%Q ]} : gmap string Q)
  /\ ({[ "nsecs_per_frame" := 1%Q ]} : gmap string Q) !! "nsecs_per_frame"
     = Some 1%Q
  /\ read_time_ms "00" (Some unit_timing) = (1 * 1000)%Q
  /\ forall poses_file gt_poses_file seq_metrics,
      sequence_entry read_poses_from_disk compute_kitti_metrics "00"
                     (poses_file, gt_poses_file, Some unit_timing)
      = inr seq_metrics ->
      average_time seq_metrics = (1 * 1000)%Q.
Proof.
  split; [reflexivity|]. split; [reflexivity|].
  apply (EntryFacts.sequence_time_scaling
           read_poses_from_disk compute_kitti_metrics
           "00" unit_timing {[ "nsecs_per_frame" := 1%Q ]} 1%Q);
    reflexivity.
Defined.

(** C10, as stated, fails for two sequences. In
    [one_channel_name] there is no ground truth, and the dictionary of
    the frame [0] has the key of the ground truth channel, which is also
    the key of the point cloud channel. In [short_ground_truth] the
    index [1] is within the bounds, and the access raises [IndexError],
    as the ground truth has one pose. *)
Lemma getitem_not_as_stated :
  (DatasetFixture.new 0 "numpy_pc" "numpy_pc"
   = inr DatasetFixture.one_channel_name
   /\ DatasetFixture.has_ground_truth tt 0 = false
   /\ ~ DatasetSpec.getitem_as_stated
         DatasetFixture.astype_float32 false
         DatasetFixture.one_channel_name 0)
  /\ (DatasetFixture.new 1 "absolute_pose_gt" "numpy_pc"
      = inr DatasetFixture.short_ground_truth
      /\ DatasetFixture.has_ground_truth tt 1 = true
      /\ CtIcpDataset.__getitem__ DatasetFixture.astype_float32
           DatasetFixture.short_ground_truth 1 = inl IndexError
      /\ ~ DatasetSpec.getitem_as_stated
            DatasetFixture.astype_float32 true
            DatasetFixture.short_ground_truth 1).
Proof.
  split.
  - split; [reflexivity|]. split; [reflexivity|].
    intros [_ H]. destruct H as (d & Hd & _ & _ & [Hiff _]).
    { now vm_compute. }
    injection Hd as <-.
    enough (false = true) by discriminate.
    apply Hiff. eexists. vm_compute. reflexivity.
  - split; [reflexivity|]. split; [reflexivity|]. split; [reflexivity|].
    intros [_ H]. destruct H as (d & Hd & _).
    { now vm_compute. }
    discriminate Hd.
Qed.

Lemma getitem_channels_witness :
  DatasetFixture.new 1 "absolute_pose_gt" "numpy_pc"
  = inr DatasetFixture.short_ground_truth
  /\ ((0 < 0 \/ CtIcpDataset.__len__ DatasetFixture.short_ground_truth <= 0)%Z
      -> CtIcpDataset.__getitem__ DatasetFixture.astype_float32
           DatasetFixture.short_ground_truth 0
         = inl (AssertionError "Index Error"))
  /\ ((0 <= 0 < CtIcpDataset.__len__ DatasetFixture.short_ground_truth)%Z ->
      (DatasetFixture.has_ground_truth tt 1 = true ->
       (0 < Z.of_nat (List.length
                        (DatasetFixture.load_sensor_ground_truth tt 1)))%Z) ->
      exists data_dict,
        CtIcpDataset.__getitem__ DatasetFixture.astype_float32
          DatasetFixture.short_ground_truth 0 = inr data_dict
        /\ is_Some (data_dict !! "numpy_pc")
        /\ is_Some (data_dict !! ("numpy_pc" ++ "_timestamps"))
        /\ (DatasetFixture.has_ground_truth tt 1 = true ->
            is_Some (data_dict !! "absolute_pose_gt"))
        /\ ("absolute_pose_gt" <> "numpy_pc" ->
            "absolute_pose_gt" <> "numpy_pc" ++ "_timestamps" ->
            is_Some (data_dict !! "absolute_pose_gt") ->
            DatasetFixture.has_ground_truth tt 1 = true)).
Proof.
  split; [reflexivity|].
  apply (DatasetFacts.getitem_channels
           DatasetFixture.is_NCLT DatasetFixture.get_dataset_sequence
           DatasetFixture.has_ground_truth
           DatasetFixture.load_sensor_ground_truth
           DatasetFixture.astype_float32
           tt 1%Z "absolute_pose_gt" "numpy_pc"
           DatasetFixture.short_ground_truth 0%Z).
  reflexivity.
Defined.

(** The access to the frame [0] of [short_ground_truth]. *)
Example getitem_short_ground_truth_0 :
  CtIcpDataset.__getitem__ DatasetFixture.astype_float32
    DatasetFixture.short_ground_truth 0
  = inr (<["absolute_pose_gt" := CtIcpDataset.pose_gt 7%Z]>
           (<["numpy_pc_timestamps" :=
                CtIcpDataset.timestamps [0; 1 # 10]%Q]>
              (<["numpy_pc" := CtIcpDataset.numpy_pc [1; 2]%Z]> ∅))).
Proof. reflexivity. Qed.

Example getitem_minus_one :
  CtIcpDataset.__getitem__ DatasetFixture.astype_float32
    DatasetFixture.short_ground_truth (-1)
  = inl (AssertionError "Index Error").
Proof. reflexivity. Qed.

Example partial_dir_entry :
  collect_metrics read_poses_from_disk compute_kitti_metrics [partial_dir]
  = inr [("runs/b", partial_entry)].
Proof. reflexivity. Qed.

Example partial_dir_report :
  write_benchmark home [("runs/b", partial_entry)]
  = inr (header ++ (main_table_head ++ [partial_row])
                ++ (command_head ++ [partial_command_row]))%list.
Proof. reflexivity. Qed.

End Examples.

(** ** Loops, once more *)

Section LoopFacts.
Import Py.
Context {A S : Type}.

Lemma for_each_app (l1 l2 : list A) (body : A -> S -> result S) s :
  for_each (l1 ++ l2)%list body s = for_each l1 body s ≫= for_each l2 body.
Proof.
  revert s. induction l1 as [|x l1 IH]; intros s; [reflexivity|].
  cbn [app for_each]. destruct (body x s) as [e|s']; [reflexivity|].
  apply IH.
Qed.

Lemma for_each_cons x (l : list A) (body : A -> S -> result S) s :
  for_each (x :: l) body s = body x s ≫= for_each l body.
Proof. reflexivity. Qed.

Lemma bind_inr {B} (a : A) (k : A -> result B) : inr a ≫= k = k a.
Proof. reflexivity. Qed.

Lemma bind_inl {B} e (k : A -> result B) : inl e ≫= k = inl e.
Proof. reflexivity. Qed.

(** What every step of a loop keeps holds when the loop ends. *)
Lemma for_each_invariant (P : S -> Prop) (l : list A)
      (body : A -> S -> result S) s s' :
  (forall x s s', In x l -> P s -> body x s = inr s' -> P s') ->
  P s -> for_each l body s = inr s' -> P s'.
Proof.
  revert s. induction l as [|x l IH]; intros s Hstep Hs Hloop.
  - injection Hloop as <-. exact Hs.
  - cbn [for_each] in Hloop.
    destruct (body x s) as [e|s1] eqn:Hx; [discriminate|].
    apply (IH s1); [|eapply Hstep; eauto using in_eq|exact Hloop].
    intros y t t' Hy. apply Hstep. now right.
Qed.
End LoopFacts.

(** ** Dictionaries: the keys *)

Section DictKeyFacts.
Import Py.
Context {V : Type}.
Implicit Types d : list (string * V).

Lemma dict_get_None d k : dict_get d k = None <-> ~ In k (map fst d).
Proof.
  induction d as [|[k' v'] d IH]; simpl; [tauto|].
  destruct (String.eqb_spec k k') as [->|Hne].
  - split; [discriminate|]. intros H. exfalso. apply H. now left.
  - rewrite IH. split; [intros H [Heq|Hin]; [congruence|tauto]|tauto].
Qed.

Lemma dict_set_keys_fresh k (v : V) d :
  ~ In k (map fst d) -> map fst (dict_set k v d) = (map fst d ++ [k])%list.
Proof.
  intros H. rewrite dict_set_fresh by now apply dict_get_None.
  now rewrite List.map_app.
Qed.

Lemma dict_set_keys_present k (v : V) d :
  In k (map fst d) -> map fst (dict_set k v d) = map fst d.
Proof.
  induction d as [|[k' v'] d IH]; simpl; [tauto|].
  destruct (String.eqb_spec k k') as [->|Hne]; [reflexivity|].
  intros [Heq|Hin]; [congruence|]. simpl. now rewrite IH.
Qed.

Lemma dict_set_In k (v : V) d k' v' :
  In (k', v') (dict_set k v d) -> (k', v') = (k, v) \/ In (k', v') d.
Proof.
  induction d as [|[k0 v0] d IH]; simpl.
  - intros [H|[]]. now left.
  - destruct (String.eqb_spec k k0) as [->|Hne]; simpl.
    + intros [H|H]; auto.
    + intros [H|H]; [auto|]. destruct (IH H); auto.
Qed.

Lemma dict_set_NoDup k (v : V) d :
  NoDup (map fst d) -> NoDup (map fst (dict_set k v d)).
Proof.
  intros Hnd. destruct (in_dec string_dec k (map fst d)) as [Hin|Hnin].
  - now rewrite dict_set_keys_present.
  - rewrite dict_set_keys_fresh by assumption.
    apply NoDup_app. split; [exact Hnd|]. split.
    + intros x Hx ->%list_elem_of_singleton.
      apply Hnin. now apply list_elem_of_In.
    + apply NoDup_singleton.
Qed.

Lemma dict_get_NoDup d k v :
  NoDup (map fst d) -> In (k, v) d -> dict_get d k = Some v.
Proof.
  induction d as [|[k' v'] d IH]; simpl; [tauto|].
  intros [Hk' Hnd]%NoDup_cons [[= -> ->]|Hin].
  - now rewrite String.eqb_refl.
  - destruct (String.eqb_spec k k') as [->|Hne]; [|auto].
    exfalso. apply Hk'. apply list_elem_of_In.
    change k' with (fst (k', v)). now apply in_map.
Qed.
End DictKeyFacts.

(** ** The walk over the result directories: what it keeps *)

Section WalkFacts.
Import Py Benchmark BenchmarkSpec WalkSpec.
Context {File Poses : Type}.
Context (read_poses_from_disk : File -> result Poses).
Context (compute_kitti_metrics :
           Poses -> Poses -> result (Q * Q * list segment_error)).
Implicit Types (new_dir : @directory File) (r : string -> sequence_metrics).

Local Abbreviation visit_sequence :=
  (visit_sequence read_poses_from_disk compute_kitti_metrics).
Local Abbreviation visit_directory :=
  (visit_directory read_poses_from_disk compute_kitti_metrics).
Local Abbreviation collect_metrics :=
  (collect_metrics read_poses_from_disk compute_kitti_metrics).
Local Abbreviation evaluated :=
  (evaluated read_poses_from_disk compute_kitti_metrics).
Local Abbreviation outcome :=
  (outcome read_poses_from_disk compute_kitti_metrics).
Local Abbreviation without_segments :=
  (without_segments read_poses_from_disk compute_kitti_metrics).

Lemma pose_files_not_metrics_dir new_dir name :
  is_metrics_dir new_dir = false -> In name folder_names ->
  pose_files new_dir name = None.
Proof.
  intros Hdir Hin. destruct (pose_files new_dir name) eqn:Hf; [|reflexivity].
  rewrite (found_is_metrics_dir new_dir name Hin) in Hdir; [discriminate|].
  unfold found. now rewrite Hf.
Qed.

(** A loop over the sequences that ends without an exception has
    evaluated every sequence that it found. *)
Lemma visit_sequences_outcome new_dir names state state' :
  for_each names (visit_sequence new_dir) state = inr state' ->
  evaluated new_dir (outcome new_dir) names.
Proof.
  revert state.
  induction names as [|name names IH]; intros state Hloop n files Hin Hfiles;
    [destruct Hin|].
  cbn [for_each] in Hloop.
  destruct (visit_sequence new_dir name state) as [e|state1] eqn:Hvisit;
    [discriminate|].
  destruct Hin as [<-|Hin].
  - unfold Benchmark.visit_sequence in Hvisit. destruct state.
    rewrite Hfiles in Hvisit.
    unfold WalkSpec.outcome. rewrite Hfiles.
    destruct (sequence_entry _ _ name files); [discriminate|reflexivity].
  - exact (IH state1 Hloop n files Hin Hfiles).
Qed.

Lemma visit_directory_outcome new_dir metrics metrics' :
  visit_directory new_dir metrics = inr metrics' ->
  evaluated new_dir (outcome new_dir) folder_names.
Proof.
  intros H. unfold Benchmark.visit_directory in H.
  destruct (is_metrics_dir new_dir) eqn:Hdir.
  - destruct (for_each folder_names (visit_sequence new_dir) ([], true))
      as [e|st] eqn:Hloop; [discriminate|].
    eapply visit_sequences_outcome; eassumption.
  - intros n files Hin Hf.
    rewrite pose_files_not_metrics_dir in Hf by assumption. discriminate.
Qed.

Lemma gathered_found new_dir r names new_metrics :
  NoDup names ->
  (forall name, In name names -> dict_get new_metrics name = None) ->
  gathered new_dir r names new_metrics
  = (new_metrics
       ++ map (fun name => (name, r name))
              (List.filter (found new_dir) names))%list.
Proof.
  revert new_metrics.
  induction names as [|name names IH]; intros new_metrics Hnd Hfresh.
  - simpl. now rewrite app_nil_r.
  - apply NoDup_cons in Hnd as [Hname Hnd]. simpl.
    destruct (found new_dir name) eqn:Hf.
    + rewrite dict_set_fresh by (apply Hfresh; now left).
      rewrite IH; [simpl; now rewrite <- app_assoc|assumption|].
      intros n Hn. apply dict_get_app_fresh.
      * intros ->. apply Hname. now apply list_elem_of_In.
      * apply Hfresh. now right.
    + apply IH; [assumption|]. intros n Hn. apply Hfresh. now right.
Qed.

Lemma filter_all {A} (f : A -> bool) l :
  (forall x, In x l -> f x = true) -> List.filter f l = l.
Proof.
  induction l as [|x l IH]; intros H; [reflexivity|].
  simpl. rewrite (H x) by now left. f_equal. apply IH.
  intros y Hy. apply H. now right.
Qed.

Lemma filter_eq_all {A} (f : A -> bool) l :
  List.filter f l = l -> forallb f l = true.
Proof.
  induction l as [|x l IH]; intros H; [reflexivity|].
  simpl in *. destruct (f x).
  - injection H as H. now apply IH.
  - exfalso. pose proof (List.filter_length_le f l) as Hle.
    rewrite H in Hle. simpl in Hle. lia.
Qed.

Lemma filter_sublist {A} (f : A -> bool) l : sublist (List.filter f l) l.
Proof.
  induction l as [|x l IH]; simpl; [constructor|].
  destruct (f x); now constructor.
Qed.

Lemma map_fst_results r names :
  map fst (map (fun name => (name, r name)) names) = names.
Proof. rewrite List.map_map. apply map_id. Qed.

(** The visit of a directory in which all sequences are found and no
    segment is evaluated. *)
Lemma visit_directory_no_segment new_dir metrics r :
  evaluated new_dir r folder_names ->
  (forall name, In name folder_names -> found new_dir name = true) ->
  concat (map (fun kv => errors (snd kv))
              (map (fun n => (n, r n)) folder_names)) = [] ->
  visit_directory new_dir metrics = inl ZeroDivisionError.
Proof.
  intros Hev Hall Hnil.
  unfold Benchmark.visit_directory.
  rewrite (found_is_metrics_dir new_dir "00")
    by (try apply Hall; rewrite folder_names_eq; now left).
  rewrite (visit_sequences_evaluated _ _ new_dir r) by assumption.
  rewrite (proj2 (forallb_forall _ _) Hall).
  rewrite gathered_all by (auto using folder_names_NoDup).
  set (new_metrics := map (fun n => (n, r n)) folder_names) in *.
  change ([] ++ new_metrics)%list with new_metrics.
  assert (Hcons : exists kv rest, new_metrics = kv :: rest).
  { subst new_metrics. rewrite folder_names_eq. simpl. eauto. }
  destruct Hcons as (kv & rest & Hcons).
  change (true && true) with true. cbv beta iota.
  change (mbind ?k (inr ?a)) with (k a). cbv beta iota.
  rewrite Hcons. rewrite <- Hcons.
  unfold make_entry, average_tr_err. rewrite Hnil. reflexivity.
Qed.

Lemma without_segments_spec new_dir :
  without_segments new_dir = true ->
  evaluated new_dir (outcome new_dir) folder_names
  /\ (forall name, In name folder_names -> found new_dir name = true)
  /\ concat (map (fun kv => errors (snd kv))
                 (map (fun n => (n, outcome new_dir n)) folder_names)) = [].
Proof.
  unfold WalkSpec.without_segments. rewrite forallb_forall. intros H.
  split; [|split].
  - intros n files Hin Hfiles. specialize (H n Hin).
    unfold WalkSpec.outcome. rewrite Hfiles in *.
    destruct (sequence_entry _ _ n files); [discriminate|reflexivity].
  - intros n Hin. specialize (H n Hin). unfold found.
    destruct (pose_files new_dir n); [reflexivity|discriminate].
  - rewrite List.map_map. cbn [snd].
    induction folder_names as [|n names IH]; [reflexivity|].
    cbn [map concat]. rewrite IH by (intros m Hm; apply H; now right).
    specialize (H n (in_eq _ _)). unfold WalkSpec.outcome.
    destruct (pose_files new_dir n) as [files|]; [|discriminate].
    destruct (sequence_entry _ _ n files) as [e|m]; [discriminate|].
    destruct (errors m); [reflexivity|discriminate].
Qed.

(** The visit of a directory that ends without an exception: either
    no sequence is found, and the mapping stays as it is, or the
    directory gets an entry. *)
Lemma visit_directory_cases new_dir metrics metrics' :
  visit_directory new_dir metrics = inr metrics' ->
  (yields new_dir = false /\ metrics' = metrics)
  \/ (yields new_dir = true
      /\ exists entry,
          metrics' = dict_set (dir_path new_dir) entry metrics
          /\ entry_invariant entry
          /\ sequences entry
             = map (fun n => (n, outcome new_dir n))
                   (List.filter (found new_dir) folder_names)
          /\ command entry = command_line new_dir).
Proof.
  intros H. pose proof (visit_directory_outcome _ _ _ H) as Hev.
  destruct (yields new_dir) eqn:Hy.
  - right. split; [reflexivity|].
    apply existsb_exists in Hy as (n1 & Hn1 & Hf1).
    destruct (forallb (found new_dir) folder_names) eqn:Hall.
    + rewrite forallb_forall in Hall.
      set (new_metrics := map (fun n => (n, outcome new_dir n)) folder_names).
      destruct (concat (map (fun kv => errors (snd kv)) new_metrics))
        as [|e0 es] eqn:Herr.
      * rewrite (visit_directory_no_segment _ _ (outcome new_dir)) in H
          by assumption.
        discriminate.
      * pose proof (visit_directory_complete _ _ new_dir metrics
                      (outcome new_dir) Hev Hall) as Hc.
        cbv zeta in Hc. fold new_metrics in Hc. rewrite Herr in Hc.
        rewrite Hc in H by discriminate.
        apply (inj inr) in H. subst metrics'.
        eexists. split; [reflexivity|].
        rewrite filter_all by assumption. fold new_metrics.
        split; [|split; reflexivity].
        unfold entry_invariant.
        cbn [sequences has_all_sequences AVG_tr_err AVG_time].
        assert (Hnames : map fst new_metrics = folder_names)
          by apply map_fst_results.
        split; [|split; [|split; [|split]]].
        -- subst new_metrics. rewrite folder_names_eq. discriminate.
        -- rewrite Hnames. reflexivity.
        -- now rewrite Hnames.
        -- intros _. split; [|split].
           ++ rewrite segment_errors_concat, Herr. discriminate.
           ++ unfold flat_mean. rewrite segment_errors_concat, Herr.
              apply Qmult_comp; [|reflexivity]. apply (sum_over_len seg_tr_err (e0 :: es)).
           ++ subst new_metrics. rewrite List.map_map. cbn [snd].
              apply (sum_over_len
                       (fun n => average_time (outcome new_dir n))).
        -- discriminate.
    + assert (Hmiss : exists name,
                 In name folder_names /\ found new_dir name = false).
      { apply not_true_iff_false in Hall.
        destruct (existsb (fun x => negb (found new_dir x)) folder_names)
          eqn:Hex.
        - apply existsb_exists in Hex as (n & Hn & Hf).
          exists n. split; [exact Hn|]. now apply negb_true_iff.
        - exfalso. apply Hall. apply forallb_forall. intros n Hn.
          destruct (found new_dir n) eqn:Hf; [reflexivity|].
          assert (Hex' : existsb (fun x => negb (found new_dir x))
                                 folder_names = true).
          { apply existsb_exists. exists n. now rewrite Hf. }
          congruence. }
      rewrite (visit_directory_incomplete _ _ new_dir metrics
                 (outcome new_dir) Hev
                 (ex_intro _ n1 (conj Hn1 Hf1)) Hmiss) in H.
      apply (inj inr) in H. subst metrics'.
      rewrite gathered_found
        by (auto using folder_names_NoDup).
      change ([] ++ ?l)%list with l.
      eexists. split; [reflexivity|].
      split; [|split; reflexivity].
      unfold entry_invariant.
      cbn [sequences has_all_sequences AVG_tr_err AVG_time].
      rewrite map_fst_results.
      split; [|split; [|split; [|split]]].
      * apply in_split in Hn1 as (a & b & Hsplit). rewrite Hsplit.
        rewrite List.filter_app. cbn [List.filter]. rewrite Hf1.
        rewrite List.map_app. cbn [map].
        now destruct (map _ (List.filter (found new_dir) a)).
      * apply filter_sublist.
      * split; [discriminate|]. intros Heq.
        apply filter_eq_all in Heq. congruence.
      * discriminate.
      * auto.
  - left. split; [reflexivity|].
    rewrite visit_directory_nothing_found in H; [congruence|].
    intros n Hn. destruct (found new_dir n) eqn:Hf; [|reflexivity].
    assert (Hy' : yields new_dir = true).
    { apply existsb_exists. now exists n. }
    congruence.
Qed.

Lemma dict_set_keys_In {V} k (v : V) d p :
  In p (map fst (Py.dict_set k v d)) <-> p = k \/ In p (map fst d).
Proof.
  destruct (in_dec string_dec k (map fst d)) as [Hin|Hnin].
  - rewrite dict_set_keys_present by assumption.
    split; [tauto|]. intros [->|H]; assumption.
  - rewrite dict_set_keys_fresh by assumption.
    rewrite in_app_iff. simpl. split; [intros [H|[H|[]]]|intros [H|H]]; auto.
Qed.

Lemma walk_keys directory_list metrics0 metrics path :
  for_each directory_list visit_directory metrics0 = inr metrics ->
  In path (map fst metrics)
  <-> In path (map fst metrics0)
      \/ exists new_dir,
          In new_dir directory_list /\ dir_path new_dir = path
          /\ yields new_dir = true.
Proof.
  revert metrics0.
  induction directory_list as [|d l IH]; intros metrics0 Hloop.
  - injection Hloop as <-. split; [tauto|]. intros [H|(d & [] & _)]. exact H.
  - cbn [for_each] in Hloop.
    destruct (visit_directory d metrics0) as [e|metrics1] eqn:Hd;
      [discriminate|].
    rewrite (IH metrics1 Hloop).
    destruct (visit_directory_cases _ _ _ Hd)
      as [[Hy ->]|(Hy & entry & -> & _)].
    + split.
      * intros [H|(d' & Hd' & Hp & Hy')]; [now left|].
        right. exists d'. split; [now right|auto].
      * intros [H|(d' & [<-|Hd'] & Hp & Hy')]; [now left|congruence|].
        right. now exists d'.
    + rewrite dict_set_keys_In. split.
      * intros [[->|H]|(d' & Hd' & Hp & Hy')].
        -- right. exists d. split; [now left|auto].
        -- now left.
        -- right. exists d'. split; [now right|auto].
      * intros [H|(d' & [<-|Hd'] & Hp & Hy')]; [auto|auto|].
        right. now exists d'.
Qed.

Lemma walk_keys_order directory_list metrics0 metrics :
  for_each directory_list visit_directory metrics0 = inr metrics ->
  NoDup (map fst metrics0 ++ map dir_path directory_list)%list ->
  map fst metrics
  = (map fst metrics0
       ++ map dir_path (List.filter yields directory_list))%list.
Proof.
  revert metrics0.
  induction directory_list as [|d l IH]; intros metrics0 Hloop Hnd.
  - injection Hloop as <-. simpl. now rewrite app_nil_r.
  - cbn [for_each] in Hloop.
    destruct (visit_directory d metrics0) as [e|metrics1] eqn:Hd;
      [discriminate|].
    cbn [map] in Hnd. cbn [List.filter].
    destruct (visit_directory_cases _ _ _ Hd)
      as [[Hy ->]|(Hy & entry & -> & _)]; rewrite Hy.
    + apply (IH _ Hloop). apply NoDup_app in Hnd as (H1 & H2 & H3).
      apply NoDup_cons in H3 as [_ H3].
      apply NoDup_app. split; [exact H1|]. split; [|exact H3].
      intros x Hx Hx'. apply (H2 x Hx). now right.
    + assert (Hfresh : ~ In (dir_path d) (map fst metrics0)).
      { apply NoDup_app in Hnd as (_ & H2 & _). intros Hin.
        apply (H2 (dir_path d)); [now apply list_elem_of_In|now left]. }
      rewrite (IH _ Hloop).
      * rewrite dict_set_keys_fresh by assumption.
        now rewrite <- app_assoc.
      * rewrite dict_set_keys_fresh by assumption.
        now rewrite <- app_assoc.
Qed.

(** X1. Every entry of the mapping that the walk returns comes from a
    directory of the walk with the path of the entry: its sequences are
    the expected sequences that are found in that directory, in the
    order of [folder_names] and with the results of their evaluation,
    and its command is that of the directory. The entry has a sequence;
    it is marked complete exactly when it has all expected sequences; a
    complete entry has a segment, the flat mean of the errors of its
    segments times [100] as its average error, and the mean of the
    times of its sequences as its average time; an incomplete entry has
    [-1] for both. *)
Theorem walk_entry_invariant directory_list metrics path entry :
  collect_metrics directory_list = inr metrics ->
  In (path, entry) metrics ->
  entry_invariant entry
  /\ exists new_dir,
      In new_dir directory_list
      /\ dir_path new_dir = path
      /\ sequences entry
         = map (fun n => (n, outcome new_dir n))
               (List.filter (found new_dir) folder_names)
      /\ command entry = command_line new_dir.
Proof.
  intros Hwalk. revert path entry.
  refine (for_each_invariant
            (fun m => forall path entry, In (path, entry) m -> _)
            directory_list visit_directory [] metrics _ _ Hwalk).
  - intros d m m' Hd Hm Hvisit path entry Hin.
    destruct (visit_directory_cases _ _ _ Hvisit)
      as [[_ ->]|(_ & e & -> & Hinv & Hseq & Hcmd)]; [auto|].
    apply dict_set_In in Hin as [[= -> ->]|Hin]; [|auto].
    split; [exact Hinv|]. now exists d.
  - intros path entry [].
Qed.

(** X2. The paths of the mapping that the walk returns are pairwise
    distinct, and they are the paths of the directories of the walk in
    which at least one expected sequence is found; when the directories
    have pairwise distinct paths, the mapping yields these paths in the
    order of the walk. *)
Theorem walk_paths directory_list metrics :
  collect_metrics directory_list = inr metrics ->
  NoDup (map fst metrics)
  /\ (forall path,
         In path (map fst metrics)
         <-> exists new_dir,
             In new_dir directory_list /\ dir_path new_dir = path
             /\ yields new_dir = true)
  /\ (NoDup (map dir_path directory_list) ->
      map fst metrics
      = map dir_path (List.filter yields directory_list)).
Proof.
  intros Hwalk. split; [|split].
  - refine (for_each_invariant (fun m => NoDup (map fst m))
              directory_list visit_directory [] metrics _ _ Hwalk).
    + intros d m m' _ Hm Hvisit.
      destruct (visit_directory_cases _ _ _ Hvisit)
        as [[_ ->]|(_ & e & -> & _)]; [exact Hm|].
      now apply dict_set_NoDup.
    + constructor.
  - intros path. rewrite (walk_keys _ _ _ path Hwalk). simpl. tauto.
  - intros Hnd. now rewrite (walk_keys_order _ _ _ Hwalk).
Qed.

(** X3. A directory in which every expected sequence is found and is
    evaluated without a segment ends the walk with a division by zero:
    its visit raises [ZeroDivisionError], and so does every walk that
    gets to it. *)
Theorem walk_without_segments before new_dir after metrics :
  without_segments new_dir = true ->
  collect_metrics before = inr metrics ->
  visit_directory new_dir metrics = inl ZeroDivisionError
  /\ collect_metrics (before ++ new_dir :: after)%list
     = inl ZeroDivisionError.
Proof.
  intros (Hev & Hall & Hnil)%without_segments_spec Hbefore.
  assert (Hvisit : visit_directory new_dir metrics = inl ZeroDivisionError)
    by (eapply visit_directory_no_segment; eassumption).
  split; [exact Hvisit|].
  unfold Benchmark.collect_metrics in *. rewrite for_each_app, Hbefore.
  cbn [mbind result_bind for_each]. now rewrite Hvisit.
Qed.

(** X4. A directory that is no metrics directory, or in which none of
    the expected sequences has both of its pose files, leaves the
    mapping as it is, and the walk gives what it gives without that
    directory. *)
Theorem walk_skips_directory before new_dir after :
  is_metrics_dir new_dir = false \/ yields new_dir = false ->
  (forall metrics, visit_directory new_dir metrics = inr metrics)
  /\ collect_metrics (before ++ new_dir :: after)%list
     = collect_metrics (before ++ after)%list.
Proof.
  intros H.
  assert (Hnone : forall name,
             In name folder_names -> found new_dir name = false).
  { intros n Hn. destruct (found new_dir n) eqn:Hf; [|reflexivity].
    destruct H as [H|H].
    - now rewrite (found_is_metrics_dir new_dir n Hn Hf) in H.
    - assert (Hy : yields new_dir = true)
        by (apply existsb_exists; now exists n).
      congruence. }
  assert (Hvisit : forall metrics, visit_directory new_dir metrics = inr metrics)
    by (intros metrics; now apply visit_directory_nothing_found).
  split; [exact Hvisit|].
  unfold Benchmark.collect_metrics. rewrite !for_each_app.
  destruct (for_each before visit_directory []) as [e|metrics];
    [reflexivity|].
  cbn [mbind result_bind for_each]. now rewrite Hvisit.
Qed.

(** X18. The walk raises the exception of the first evaluation that
    raises: when the directories before [new_dir] are walked without an
    exception, and in [new_dir] the expected sequences before
    [sequence_name] are evaluated without one, the exception that the
    evaluation of [sequence_name] raises is the exception of the visit
    of [new_dir] and of the walk, whatever follows. *)
Theorem walk_first_failure before new_dir after metrics
        earlier sequence_name later r files e :
  collect_metrics before = inr metrics ->
  folder_names = (earlier ++ sequence_name :: later)%list ->
  evaluated new_dir r earlier ->
  pose_files new_dir sequence_name = Some files ->
  sequence_entry read_poses_from_disk compute_kitti_metrics
                 sequence_name files = inl e ->
  visit_directory new_dir metrics = inl e
  /\ collect_metrics (before ++ new_dir :: after)%list = inl e.
Proof.
  intros Hbefore Hnames Hev Hfiles He.
  assert (Hvisit : visit_directory new_dir metrics = inl e).
  { unfold Benchmark.visit_directory.
    rewrite (found_is_metrics_dir new_dir sequence_name).
    - rewrite Hnames, for_each_app.
      rewrite (visit_sequences_evaluated _ _ new_dir r) by assumption.
      cbn [mbind result_bind for_each].
      now rewrite (visit_sequence_raises _ _ new_dir sequence_name files e).
    - rewrite Hnames. apply in_or_app. right. now left.
    - unfold found. now rewrite Hfiles. }
  split; [exact Hvisit|].
  unfold Benchmark.collect_metrics in *. rewrite for_each_app, Hbefore.
  cbn [mbind result_bind for_each]. now rewrite Hvisit.
Qed.
End WalkFacts.

(** ** The sort, once more *)

Section SortMapFacts.
Context {A B K : Type} (key : B -> K) (lt : K -> K -> bool) (f : A -> B).

Lemma insort_map x l :
  Py.insort key lt (f x) (map f l)
  = map f (Py.insort (fun a => key (f a)) lt x l).
Proof.
  induction l as [|y l IH]; simpl; [reflexivity|].
  destruct (lt (key (f x)) (key (f y))); simpl; [reflexivity|].
  now rewrite IH.
Qed.

Lemma sort_loop_map l acc :
  fold_left (fun sorted x => Py.insort key lt x sorted) (map f l) (map f acc)
  = map f (fold_left (fun sorted x =>
                        Py.insort (fun a => key (f a)) lt x sorted) l acc).
Proof.
  revert acc. induction l as [|x l IH]; intros acc; simpl; [reflexivity|].
  now rewrite insort_map, IH.
Qed.

(** Sorting the images of a list is sorting the list by the key of the
    images. *)
Lemma sort_map l :
  Py.sort key lt (map f l) = map f (Py.sort (fun a => key (f a)) lt l).
Proof. apply (sort_loop_map l []). Qed.
End SortMapFacts.

Section SortedFacts.
Context {A K : Type} (key : A -> K) (lt : K -> K -> bool).

Lemma insort_last x l :
  Forall (fun y => ascending key lt y x) l ->
  Py.insort key lt x l = (l ++ [x])%list.
Proof.
  induction 1 as [|y l Hy _ IH]; simpl; [reflexivity|].
  unfold ascending in Hy. now rewrite Hy, IH.
Qed.

Lemma sort_loop_sorted_id l acc :
  StronglySorted (ascending key lt) (acc ++ l)%list ->
  fold_left (fun sorted x => Py.insort key lt x sorted) l acc
  = (acc ++ l)%list.
Proof.
  revert acc. induction l as [|x l IH]; intros acc Hs; simpl.
  - now rewrite app_nil_r.
  - rewrite insort_last.
    + rewrite IH; rewrite <- app_assoc; [reflexivity|exact Hs].
    + clear IH. induction acc as [|y acc IHacc]; [constructor|].
      simpl in Hs. apply StronglySorted_inv in Hs as [Hs Hy].
      constructor; [|now apply IHacc].
      rewrite Forall_forall in Hy. apply Hy.
      apply elem_of_app. right. now left.
Qed.

(** The sort leaves a sorted list as it is. *)
Lemma sort_sorted_id l :
  StronglySorted (ascending key lt) l -> Py.sort key lt l = l.
Proof. intros Hs. apply (sort_loop_sorted_id l [] Hs). Qed.
End SortedFacts.

(** ** The report as a whole *)

Section ReportRowFacts.
Import Py Benchmark WalkSpec.
Context (resolve : string -> string).

Lemma db_metrics_items metrics : db_metrics metrics = map db_item metrics.
Proof. reflexivity. Qed.

Lemma sorted_db_metrics_ranking metrics :
  sorted_db_metrics metrics = map db_item (ranking metrics).
Proof.
  unfold sorted_db_metrics, ranking. rewrite db_metrics_items.
  apply sort_map.
Qed.

Lemma ranking_perm metrics : Permutation (ranking metrics) metrics.
Proof. apply sort_perm. Qed.

Lemma visit_items metrics items main_table_lines command_lines :
  (forall item, In item items ->
                dict_get metrics (fst item) = Some (snd item)) ->
  for_each (map db_item items) (visit_entry resolve metrics)
           (main_table_lines, command_lines)
  = inr ((main_table_lines ++ map (table_row resolve) items)%list,
         (command_lines ++ map (command_row resolve) items)%list).
Proof.
  revert main_table_lines command_lines.
  induction items as [|[path entry] items IH];
    intros main_table_lines command_lines Hget.
  - simpl. now rewrite !app_nil_r.
  - cbn [map for_each].
    rewrite (ReportFacts.visit_entry_found resolve metrics _ entry)
      by (apply (Hget (path, entry)); now left).
    cbn [mbind result_bind].
    rewrite IH by (intros item Hin; apply Hget; now right).
    now rewrite <- !app_assoc.
Qed.

(** The report of a mapping with pairwise distinct paths: the rows of
    the items in the order of the ranking, in both tables. *)
Lemma write_benchmark_ranking metrics :
  NoDup (map fst metrics) ->
  write_benchmark resolve metrics
  = inr (header
           ++ (main_table_head ++ map (table_row resolve) (ranking metrics))
           ++ (command_head ++ map (command_row resolve) (ranking metrics)))%list.
Proof.
  intros Hnd. unfold write_benchmark.
  rewrite sorted_db_metrics_ranking, visit_items; [reflexivity|].
  intros [path entry] Hin. apply dict_get_NoDup; [exact Hnd|].
  apply list_elem_of_In. rewrite <- (ranking_perm metrics).
  now apply list_elem_of_In.
Qed.

(** X5. For a mapping with pairwise distinct paths, the report is the
    header, the head of the table with one row for every item of the
    mapping, and the head of the commands with one row for every item;
    both lists of rows are in the order of the ranking, and the row of an
    item is made from the entry of that item. The report has seven lines
    and two for every item. *)
Theorem report_of_ranking (metrics : list (string * entry_metrics)) :
  NoDup (map fst metrics) ->
  write_benchmark resolve metrics
  = inr (header
           ++ (main_table_head ++ map (table_row resolve) (ranking metrics))
           ++ (command_head ++ map (command_row resolve) (ranking metrics)))%list
  /\ Permutation (ranking metrics) metrics
  /\ map db_item (ranking metrics) = sorted_db_metrics metrics
  /\ forall lines,
      write_benchmark resolve metrics = inr lines ->
      List.length lines = (7 + 2 * List.length metrics)%nat.
Proof.
  intros Hnd. split; [now apply write_benchmark_ranking|].
  split; [apply ranking_perm|].
  split; [now rewrite sorted_db_metrics_ranking|].
  intros lines. rewrite write_benchmark_ranking by assumption.
  intros H. apply (inj inr) in H. subst lines.
  rewrite !length_app, !length_map.
  rewrite (Permutation_length (ranking_perm metrics)).
  cbn [header main_table_head command_head List.length]. lia.
Qed.

(** X6. Ranking a sequence that is in the order of the ranking changes
    nothing: when the mapping yields its entries with the complete ones
    first, in ascending order of the average error, the ranked sequence
    is the sequence of the mapping; and a ranked sequence that is sorted
    once more stays as it is. *)
Theorem ranking_of_ranked (metrics : list (string * entry_metrics)) :
  (StronglySorted (ascending sort_key xlt) (db_metrics metrics) ->
   sorted_db_metrics metrics = db_metrics metrics)
  /\ sort sort_key xlt (sorted_db_metrics metrics)
     = sorted_db_metrics metrics.
Proof.
  split.
  - apply sort_sorted_id.
  - apply sort_sorted_id.
    apply (sort_sorted sort_key xlt xlt_asym xlt_cotrans).
Qed.
End ReportRowFacts.

(** ** The whole of [build_benchmark] *)

Section BuildBenchmarkFacts.
Import Py Benchmark WalkSpec.
Context {File Poses : Type}.
Context (read_poses_from_disk : File -> result Poses).
Context (compute_kitti_metrics :
           Poses -> Poses -> result (Q * Q * list segment_error)).
Context (resolve : string -> string).

Local Abbreviation collect_metrics :=
  (collect_metrics read_poses_from_disk compute_kitti_metrics).
Local Abbreviation build_benchmark :=
  (build_benchmark read_poses_from_disk compute_kitti_metrics resolve).

Lemma collect_metrics_NoDup (directory_list : list (@directory File)) metrics :
  collect_metrics directory_list = inr metrics -> NoDup (map fst metrics).
Proof.
  intros Hwalk.
  refine (for_each_invariant (fun m => NoDup (map fst m)) directory_list
            _ [] metrics _ _ Hwalk).
  - intros d m m' _ Hm Hvisit.
    destruct (visit_directory_cases _ _ _ _ _ Hvisit)
      as [[_ ->]|(_ & e & -> & _)]; [exact Hm|].
    now apply dict_set_NoDup.
  - constructor.
Qed.

(** X7. [build_benchmark] raises the assertion error of line 39 for
    every dataset other than ["kitti"], whatever is on the disk. For
    ["kitti"] it raises what the walk raises, and when the walk returns a
    mapping it returns the report of that mapping: the report itself
    does not raise. *)
Theorem build_benchmark_outcome
        (cfg : BenchmarkBuilderConfig) (directory_list : list (@directory File)) :
  (dataset cfg <> "kitti" ->
   build_benchmark cfg directory_list
   = inl (AssertionError
            "Only kitti is supported (for now) to build a benchmark"))
  /\ (dataset cfg = "kitti" ->
      (forall e, collect_metrics directory_list = inl e ->
                 build_benchmark cfg directory_list = inl e)
      /\ (forall metrics,
             collect_metrics directory_list = inr metrics ->
             build_benchmark cfg directory_list
             = inr (header
                      ++ (main_table_head
                            ++ map (table_row resolve) (ranking metrics))
                      ++ (command_head
                            ++ map (command_row resolve)
                                   (ranking metrics)))%list)).
Proof.
  unfold Benchmark.build_benchmark. split.
  - intros Hne. destruct (String.eqb_spec (dataset cfg) "kitti");
      [congruence|reflexivity].
  - intros ->. rewrite String.eqb_refl. cbn [assert_debug mbind result_bind mret result_ret].
    split.
    + intros e ->. reflexivity.
    + intros metrics Hwalk. rewrite Hwalk.
      apply write_benchmark_ranking.
      eapply collect_metrics_NoDup, Hwalk.
Qed.
End BuildBenchmarkFacts.

(** ** The names of the sequences *)

Section NameFacts.
Import Py ReportSpec.

Lemma format_02_value i : read_digits (format_02 i) 0 = Z.of_nat i.
Proof.
  unfold format_02. rewrite read_digits_digits by lia.
  rewrite Z.mod_small; [lia|]. split; [lia|].
  eapply Z.lt_le_trans; [apply ndigits_bound; lia|].
  apply Z.pow_le_mono_r; lia.
Qed.

(** X8. [f"{i:02}"] consists of digits, at least two, that denote [i];
    so two different numbers have different names. *)
Theorem format_02_decodes :
  (forall i, all_digits (format_02 i) = true
             /\ (2 <= String.length (format_02 i))%nat
             /\ read_digits (format_02 i) 0 = Z.of_nat i)
  /\ (forall i j, format_02 i = format_02 j -> i = j).
Proof.
  split.
  - intros i. split; [apply digits_all_digits|].
    split; [|apply format_02_value].
    unfold format_02. rewrite digits_length. lia.
  - intros i j H. apply Nat2Z.inj. rewrite <- !format_02_value.
    now rewrite H.
Qed.
End NameFacts.

(** ** The access to a frame: the values *)

Section GetitemFacts.
Import Py CtIcpDataset.
Context {DatasetOptions Point Pose : Type}.
Context (astype_float32 : list Point -> list Point).
Implicit Types self : @CT_ICPDatasetSequence DatasetOptions Point Pose.

Local Abbreviation __getitem__ :=
  (@CtIcpDataset.__getitem__ DatasetOptions Point Pose astype_float32).

Lemma timestamps_channel_differs (s : string) : s ++ "_timestamps" <> s.
Proof.
  intros H. apply (f_equal String.length) in H.
  rewrite string_length_app in H. simpl in H. lia.
Qed.

Lemma ndarray_item_nth {A} (array : list A) idx a :
  (0 <= idx)%Z -> nth_error array (Z.to_nat idx) = Some a ->
  ndarray_item array idx = inr a.
Proof.
  intros H0 Hnth. unfold ndarray_item.
  assert (Hlt : (Z.to_nat idx < List.length array)%nat)
    by (apply nth_error_Some; congruence).
  destruct (Z.ltb_spec idx 0); [lia|].
  destruct (Z.leb_spec 0 idx); [|lia].
  destruct (Z.ltb_spec idx (Z.of_nat (List.length array))); [|lia].
  cbn. now rewrite Hnth.
Qed.

(** X9. At an index at which the sequence has a frame and the ground
    truth, when there is one, has a pose, the access gives a dictionary
    whose keys are among the name of the point cloud channel, that name
    with [_timestamps], and, when there is a ground truth, the name of
    the ground truth channel. The ground truth channel holds the pose of
    the ground truth at the index; the timestamps channel holds the
    timestamps of the frame, and the point cloud channel its points
    after the conversion, each unless the ground truth channel has the
    same name and takes its place. *)
Theorem getitem_values self (idx : Z) (frame : lidar_frame) :
  (0 <= idx)%Z ->
  nth_error (dataset_sequences self) (Z.to_nat idx) = Some frame ->
  (forall poses, gt self = Some poses ->
                 (idx < Z.of_nat (List.length poses))%Z) ->
  exists data_dict,
    __getitem__ self idx = inr data_dict
    /\ (forall k, is_Some (data_dict !! k) ->
                  k = numpy_pc_channel self
                  \/ k = numpy_pc_channel self ++ "_timestamps"
                  \/ (is_Some (gt self) /\ k = gt_pose_channel self))
    /\ (gt self = None
        \/ gt_pose_channel self <> numpy_pc_channel self ++ "_timestamps" ->
        data_dict !! (numpy_pc_channel self ++ "_timestamps")
        = Some (timestamps (timestamp frame)))
    /\ (gt self = None \/ gt_pose_channel self <> numpy_pc_channel self ->
        data_dict !! numpy_pc_channel self
        = Some (numpy_pc (astype_float32 (raw_point frame))))
    /\ (forall poses, gt self = Some poses ->
          exists pose,
            nth_error poses (Z.to_nat idx) = Some pose
            /\ data_dict !! gt_pose_channel self = Some (pose_gt pose)).
Proof.
  intros H0 Hframe Hposes.
  assert (Hlen : (idx < __len__ self)%Z).
  { unfold __len__.
    assert (Z.to_nat idx < List.length (dataset_sequences self))%nat
      by (apply nth_error_Some; congruence).
    lia. }
  unfold CtIcpDataset.__getitem__.
  replace ((0 <=? idx)%Z && (idx <? __len__ self)%Z) with true
    by (symmetry; apply andb_true_iff; split;
        [apply Z.leb_le|apply Z.ltb_lt]; lia).
  assert (HF : Frame self idx = inr frame).
  { unfold Frame. destruct (Z.ltb_spec idx 0); [lia|]. now rewrite Hframe. }
  rewrite HF. cbn [assert_debug mbind result_bind mret result_ret].
  pose proof (timestamps_channel_differs (numpy_pc_channel self)) as Hts.
  set (pc := numpy_pc_channel self) in *.
  set (g := gt_pose_channel self) in *.
  destruct (gt self) as [poses|] eqn:Hgt.
  - specialize (Hposes poses eq_refl).
    destruct (nth_error poses (Z.to_nat idx)) as [pose|] eqn:Hpose;
      [|apply nth_error_None in Hpose; lia].
    rewrite (ndarray_item_nth poses idx pose H0 Hpose).
    eexists. split; [reflexivity|].
    split; [|split; [|split]].
    + intros k Hk.
      destruct (decide (k = g)) as [->|Hkg]; [right; right; eauto|].
      rewrite lookup_insert_ne in Hk by congruence.
      destruct (decide (k = pc ++ "_timestamps")) as [->|Hkt]; [auto|].
      rewrite lookup_insert_ne in Hk by congruence.
      destruct (decide (k = pc)) as [->|Hkp]; [auto|].
      rewrite lookup_insert_ne, lookup_empty in Hk by congruence.
      now destruct Hk.
    + intros [Hnone|Hne]; [discriminate|].
      rewrite lookup_insert_ne by exact Hne. apply lookup_insert_eq.
    + intros [Hnone|Hne]; [discriminate|].
      rewrite lookup_insert_ne by exact Hne.
      rewrite lookup_insert_ne by exact Hts. apply lookup_insert_eq.
    + intros poses' [= <-]. exists pose. split; [exact Hpose|].
      now rewrite lookup_insert_eq.
  - eexists. split; [reflexivity|].
    split; [|split; [|split]].
    + intros k Hk.
      destruct (decide (k = pc ++ "_timestamps")) as [->|Hkt]; [auto|].
      rewrite lookup_insert_ne in Hk by congruence.
      destruct (decide (k = pc)) as [->|Hkp]; [auto|].
      rewrite lookup_insert_ne, lookup_empty in Hk by congruence.
      now destruct Hk.
    + intros _. apply lookup_insert_eq.
    + intros _. rewrite lookup_insert_ne by exact Hts.
      apply lookup_insert_eq.
    + discriminate.
Qed.
End GetitemFacts.

(** ** Computations that log *)

Section LoggedFacts.
Import Py CtIcpLoader.

Lemma logged_bind_inr {A B} (c : logged A) (k : A -> logged B) log b :
  c ≫= k = (log, inr b) ->
  exists log1 a log2,
    c = (log1, inr a) /\ k a = (log2, inr b) /\ log = (log1 ++ log2)%list.
Proof.
  destruct c as [log1 [e|a]]; cbn [mbind logged_bind]; [discriminate|].
  destruct (k a) as [log2 outcome] eqn:Hk. intros [= <- ->].
  now exists log1, a, log2.
Qed.

Lemma for_each_logged_cons {A S} x (l : list A) (body : A -> S -> logged S)
      (s : S) :
  for_each_logged (x :: l) body s = body x s ≫= for_each_logged l body.
Proof. reflexivity. Qed.

Lemma logged_bind_pair_inr {A B} log (a : A) (k : A -> logged B) :
  (log, inr a) ≫= k = ((log ++ fst (k a))%list, snd (k a)).
Proof. cbn [mbind logged_bind]. now destruct (k a). Qed.

Lemma logged_bind_pair_inl {A B} log e (k : A -> logged B) :
  (log, inl e) ≫= k = (log, inl e).
Proof. reflexivity. Qed.

Lemma logged_bind_inr_intro {A B} (c : logged A) (k : A -> logged B)
      log1 a log2 outcome :
  c = (log1, inr a) -> k a = (log2, outcome) ->
  c ≫= k = ((log1 ++ log2)%list, outcome).
Proof. intros -> Hk. cbn [mbind logged_bind]. now rewrite Hk. Qed.
End LoggedFacts.

(** ** The options *)

Section WrapperFacts.
Import Py CtIcpConfig.
Context {DatasetOptions : Type}.
Context (new_options : DatasetOptions).
Context (CT_ICP_DATASET : value -> result value).
Context (setattr : DatasetOptions -> string -> value -> result DatasetOptions).
Context (no_message : string).

Local Abbreviation set_field :=
  (set_field CT_ICP_DATASET setattr no_message).
Local Abbreviation to_pct_object :=
  (to_pct_object new_options CT_ICP_DATASET setattr no_message).

Lemma differs_from_MISSING_false field_value :
  differs_from_MISSING field_value = false <-> field_value = VStr MISSING.
Proof.
  destruct field_value as [s| | | |]; simpl; try (split; discriminate).
  rewrite negb_false_iff, String.eqb_eq. split; congruence.
Qed.

Lemma set_field_MISSING field_name options :
  field_name <> "dataset" ->
  set_field (field_name, VStr MISSING) options
  = inl (AssertionError no_message).
Proof.
  intros Hne. unfold CtIcpConfig.set_field.
  destruct (String.eqb_spec field_name "dataset"); [congruence|].
  reflexivity.
Qed.

(** X10. [to_pct_object] does not return options when a field other
    than [dataset] is [MISSING]: it raises the assertion error at the
    first such field that it gets to, before the field is set. The
    field [dataset] is not compared with [MISSING]; its value is looked
    up in [pct.CT_ICP_DATASET]. *)
Theorem to_pct_object_MISSING (self : list (string * value)) :
  (forall options,
      to_pct_object self = inr options ->
      forall field_name field_value,
        In (field_name, field_value) self ->
        (field_name <> "dataset" -> field_value <> VStr MISSING)
        /\ (field_name = "dataset" ->
            exists member, CT_ICP_DATASET field_value = inr member))
  /\ (forall before field_name after options,
         self = (before ++ (field_name, VStr MISSING) :: after)%list ->
         field_name <> "dataset" ->
         for_each before set_field new_options = inr options ->
         to_pct_object self = inl (AssertionError no_message)).
Proof.
  split.
  - unfold CtIcpConfig.to_pct_object. generalize new_options.
    induction self as [|[n v] l IH]; intros o0 options Hloop name val Hin;
      [destruct Hin|].
    cbn [for_each] in Hloop.
    destruct (set_field (n, v) o0) as [e|o1] eqn:Hset; [discriminate|].
    destruct Hin as [[= -> ->]|Hin]; [|exact (IH o1 options Hloop _ _ Hin)].
    unfold CtIcpConfig.set_field in Hset. split.
    + intros Hne ->.
      destruct (String.eqb_spec name "dataset"); [congruence|].
      discriminate.
    + intros ->. cbn in Hset.
      destruct (CT_ICP_DATASET val) as [e|member]; [discriminate|eauto].
  - intros before name after options -> Hne Hbefore.
    unfold CtIcpConfig.to_pct_object. rewrite for_each_app, Hbefore.
    cbn [mbind result_bind for_each].
    now rewrite set_field_MISSING.
Qed.
End WrapperFacts.

(** ** The loader *)

Section LoaderFacts.
Import Py CtIcpDataset CtIcpLoader LoaderSpec.
Context {DatasetOptions Point Pose RelativePoses : Type}.
Context (new_options : DatasetOptions).
Context (CT_ICP_DATASET : CtIcpConfig.value -> result CtIcpConfig.value).
Context (setattr : DatasetOptions -> string -> CtIcpConfig.value
                   -> result DatasetOptions).
Context (no_message : string).
Context (root_path : DatasetOptions -> string).
Context (path_str : string -> string).
Context (path_exists : string -> bool).
Context (get_sequences : DatasetOptions -> list (Z * Z)).
Context (sequence_name : DatasetOptions -> Z -> string).
Context (is_NCLT : DatasetOptions -> bool).
Context (get_dataset_sequence :
           DatasetOptions -> Z -> list (@lidar_frame Point)).
Context (has_ground_truth : DatasetOptions -> Z -> bool).
Context (load_sensor_ground_truth : DatasetOptions -> Z -> list Pose).
Context (compute_relative_poses : list Pose -> result RelativePoses).

Implicit Types (self : @CT_ICPDatasetLoader DatasetOptions)
         (o : DatasetOptions) (m : gmap string Z) (l : list (Z * Z)).

Local Abbreviation to_pct_object :=
  (CtIcpConfig.to_pct_object new_options CT_ICP_DATASET setattr no_message).
Local Abbreviation __init__ :=
  (CtIcpLoader.__init__ new_options CT_ICP_DATASET setattr no_message
                        root_path path_str path_exists get_sequences
                        sequence_name).
Local Abbreviation add_sequence := (add_sequence no_message sequence_name).
Local Abbreviation seqname_to_seqid :=
  (seqname_to_seqid get_sequences sequence_name).
Local Abbreviation get_ground_truth :=
  (get_ground_truth no_message load_sensor_ground_truth
                    compute_relative_poses).
Local Abbreviation new_sequence :=
  (CtIcpDataset.__init__ is_NCLT get_dataset_sequence has_ground_truth
                         load_sensor_ground_truth).
Local Abbreviation add_dataset :=
  (add_dataset root_path is_NCLT get_dataset_sequence has_ground_truth
               load_sensor_ground_truth).
Local Abbreviation __get_datasets :=
  (__get_datasets root_path is_NCLT get_dataset_sequence has_ground_truth
                  load_sensor_ground_truth).
Local Abbreviation sequences :=
  (sequences root_path get_sequences sequence_name is_NCLT
             get_dataset_sequence has_ground_truth
             load_sensor_ground_truth).
Local Abbreviation dataset_of :=
  (dataset_of is_NCLT get_dataset_sequence has_ground_truth
              load_sensor_ground_truth).
Local Abbreviation returned_for :=
  (returned_for is_NCLT get_dataset_sequence has_ground_truth
                load_sensor_ground_truth).
Local Abbreviation missing_sequence := (missing_sequence root_path).
Local Abbreviation warnings_for := (warnings_for root_path).

(** The dictionary of the names after the sequences [l]. *)
Local Abbreviation named o l m :=
  (fold_left (fun d '(seq_id, _) =>
                <[sequence_name o seq_id := seq_id]> d) l m).

Lemma have_sequence_unfold seq_name :
  have_sequence seq_name
  = contains __KITTI_SEQUENCE seq_name
    || contains __KITTI_CARLA_SEQUENCE seq_name.
Proof. reflexivity. Qed.

Lemma add_sequence_unfold o seq_id seq_size m :
  add_sequence o (seq_id, seq_size) m
  = (_ ← assert_debug (have_sequence (sequence_name o seq_id)) no_message;
     mret (<[sequence_name o seq_id := seq_id]> m)).
Proof.
  unfold CtIcpLoader.add_sequence. now rewrite <- have_sequence_unfold.
Qed.

Lemma add_sequence_recognised o seq_id seq_size m :
  have_sequence (sequence_name o seq_id) = true ->
  add_sequence o (seq_id, seq_size) m
  = inr (<[sequence_name o seq_id := seq_id]> m).
Proof. intros H. rewrite add_sequence_unfold, H. reflexivity. Qed.

Lemma add_sequence_unrecognised o seq_id seq_size m :
  have_sequence (sequence_name o seq_id) = false ->
  add_sequence o (seq_id, seq_size) m = inl (AssertionError no_message).
Proof. intros H. rewrite add_sequence_unfold, H. reflexivity. Qed.

Lemma add_sequences_returned o l m m' :
  for_each l (add_sequence o) m = inr m' ->
  (forall seq_id seq_size,
      In (seq_id, seq_size) l ->
      have_sequence (sequence_name o seq_id) = true)
  /\ m' = named o l m.
Proof.
  revert m. induction l as [|[seq_id seq_size] l IH]; intros m Hloop.
  - injection Hloop as <-. split; [intros ? ? []|reflexivity].
  - rewrite for_each_cons in Hloop.
    destruct (have_sequence (sequence_name o seq_id)) eqn:Hhave.
    + rewrite add_sequence_recognised, bind_inr in Hloop by assumption.
      destruct (IH _ Hloop) as [Hall ->]. split; [|reflexivity].
      intros i n [Heq|Hin]; [|eauto].
      injection Heq as <- <-. exact Hhave.
    + rewrite add_sequence_unrecognised, bind_inl in Hloop by assumption.
      discriminate.
Qed.

Lemma add_sequences_unrecognised o l m seq_id seq_size :
  In (seq_id, seq_size) l ->
  have_sequence (sequence_name o seq_id) = false ->
  for_each l (add_sequence o) m = inl (AssertionError no_message).
Proof.
  revert m. induction l as [|[i n] l IH]; intros m Hin Hhave;
    [destruct Hin|].
  rewrite for_each_cons.
  destruct (have_sequence (sequence_name o i)) eqn:Hi.
  - rewrite add_sequence_recognised, bind_inr by assumption.
    destruct Hin as [Heq|Hin]; [|now apply IH].
    injection Heq as -> ->. congruence.
  - rewrite add_sequence_unrecognised by assumption. apply bind_inl.
Qed.

Lemma named_lookup o l m seq_name seq_id :
  named o l m !! seq_name = Some seq_id ->
  m !! seq_name = Some seq_id
  \/ exists seq_size,
      In (seq_id, seq_size) l /\ sequence_name o seq_id = seq_name.
Proof.
  revert m. induction l as [|[i n] l IH]; intros m H; [now left|].
  cbn [fold_left] in H. destruct (IH _ H) as [Hm|(size & Hin & Hname)].
  - destruct (decide (sequence_name o i = seq_name)) as [Heq|Hne].
    + rewrite Heq, lookup_insert_eq in Hm. injection Hm as ->.
      right. exists n. split; [now left|exact Heq].
    + rewrite lookup_insert_ne in Hm by assumption. now left.
  - right. exists size. split; [now right|exact Hname].
Qed.

Lemma named_keeps o l m seq_name :
  is_Some (m !! seq_name) -> is_Some (named o l m !! seq_name).
Proof.
  revert m. induction l as [|[i n] l IH]; intros m H; [exact H|].
  cbn [fold_left]. apply IH.
  destruct (decide (sequence_name o i = seq_name)) as [<-|Hne].
  - rewrite lookup_insert_eq. eauto.
  - now rewrite lookup_insert_ne.
Qed.

Lemma named_present o l m seq_id seq_size :
  In (seq_id, seq_size) l ->
  is_Some (named o l m !! sequence_name o seq_id).
Proof.
  revert m. induction l as [|[i n] l IH]; intros m Hin; [destruct Hin|].
  cbn [fold_left]. destruct Hin as [[= -> ->]|Hin]; [|now apply IH].
  apply named_keeps. rewrite lookup_insert_eq. eauto.
Qed.

(** What the construction of a loader establishes. *)
Lemma init_returned config self :
  __init__ config = inr self ->
  config = CtIcpLoader.config self
  /\ to_pct_object (CtIcpConfig.options config) = inr (options self)
  /\ path_exists (root_path (options self)) = true
  /\ map_seqname_seqid self = seqname_to_seqid (options self)
  /\ (forall seq_id seq_size,
         In (seq_id, seq_size) (get_sequences (options self)) ->
         have_sequence (sequence_name (options self) seq_id) = true).
Proof.
  unfold CtIcpLoader.__init__.
  destruct (to_pct_object (CtIcpConfig.options config)) as [e|o] eqn:Ho;
    [discriminate|].
  cbn [mbind result_bind].
  destruct (path_exists (root_path o)) eqn:Hpath; [|discriminate].
  cbn [assert_debug mret result_ret mbind result_bind].
  destruct (for_each (get_sequences o) (add_sequence o) ∅) as [e|m] eqn:Hm;
    [discriminate|].
  intros H. apply (inj inr) in H. subst self. cbn.
  destruct (add_sequences_returned _ _ _ _ Hm) as [Hall ->].
  auto.
Qed.

(** X11. A loader that was constructed has options that were made
    from the options of the configuration and whose root path exists.
    The names of its dictionary are recognised names, and they are the
    names of the sequences of the dataset: a name has the identifier of
    a sequence of that name, and every sequence of the dataset has its
    name in the dictionary. The dictionary is the one that [sequences]
    builds again. *)
Theorem loader_init_names config self :
  __init__ config = inr self ->
  to_pct_object (CtIcpConfig.options config) = inr (options self)
  /\ path_exists (root_path (options self)) = true
  /\ map_seqname_seqid self = seqname_to_seqid (options self)
  /\ (forall seq_name seq_id,
         map_seqname_seqid self !! seq_name = Some seq_id ->
         have_sequence seq_name = true
         /\ sequence_name (options self) seq_id = seq_name
         /\ exists seq_size,
             In (seq_id, seq_size) (get_sequences (options self)))
  /\ (forall seq_id seq_size,
         In (seq_id, seq_size) (get_sequences (options self)) ->
         is_Some (map_seqname_seqid self
                    !! sequence_name (options self) seq_id)).
Proof.
  intros (_ & Ho & Hpath & Hmap & Hall)%init_returned.
  split; [exact Ho|]. split; [exact Hpath|]. split; [exact Hmap|].
  rewrite Hmap. unfold CtIcpLoader.seqname_to_seqid. split.
  - intros seq_name seq_id [Hm|(size & Hin & <-)]%named_lookup.
    + rewrite lookup_empty in Hm. discriminate.
    + split; [eapply Hall; eassumption|]. split; [reflexivity|eauto].
  - intros seq_id seq_size Hin. eapply named_present, Hin.
Qed.

(** X12. When the options are made and their root path exists, but
    the dataset has a sequence whose name is not a recognised one, the
    construction of the loader raises the assertion error of line
    152. *)
Theorem loader_init_unrecognised config o seq_id seq_size :
  to_pct_object (CtIcpConfig.options config) = inr o ->
  path_exists (root_path o) = true ->
  In (seq_id, seq_size) (get_sequences o) ->
  have_sequence (sequence_name o seq_id) = false ->
  __init__ config = inl (AssertionError no_message).
Proof.
  intros Ho Hpath Hin Hhave. unfold CtIcpLoader.__init__.
  rewrite Ho. cbn [mbind result_bind]. rewrite Hpath.
  cbn [assert_debug mret result_ret mbind result_bind].
  now rewrite (add_sequences_unrecognised o _ ∅ seq_id seq_size).
Qed.

(** X13. [get_ground_truth] of a loader that was constructed raises
    the assertion error of line 168 for a name that is not recognised
    and for a name of which the dataset has no sequence; it does not
    raise [KeyError]. For a name of the dictionary it gives what
    [compute_relative_poses] gives for the ground truth of a sequence of
    the dataset that has this name. *)
Theorem get_ground_truth_names config self seq_name :
  __init__ config = inr self ->
  (have_sequence seq_name = false
   \/ map_seqname_seqid self !! seq_name = None ->
   get_ground_truth self seq_name = inl (AssertionError no_message))
  /\ (forall seq_id,
         map_seqname_seqid self !! seq_name = Some seq_id ->
         sequence_name (options self) seq_id = seq_name
         /\ (exists seq_size,
                In (seq_id, seq_size) (get_sequences (options self)))
         /\ get_ground_truth self seq_name
            = compute_relative_poses
                (load_sensor_ground_truth (options self) seq_id)).
Proof.
  intros (_ & _ & _ & Hmap & Hall)%init_returned.
  assert (Hnames : forall seq_id,
             map_seqname_seqid self !! seq_name = Some seq_id ->
             sequence_name (options self) seq_id = seq_name
             /\ exists seq_size,
                 In (seq_id, seq_size) (get_sequences (options self))).
  { intros seq_id Hm. rewrite Hmap in Hm.
    apply named_lookup in Hm as [Hm|(size & Hin & Hname)].
    - rewrite lookup_empty in Hm. discriminate.
    - eauto. }
  split.
  - intros H.
    assert (Hnone : map_seqname_seqid self !! seq_name = None).
    { destruct H as [H|H]; [|exact H].
      destruct (map_seqname_seqid self !! seq_name) as [seq_id|] eqn:Hm;
        [|reflexivity].
      destruct (Hnames seq_id eq_refl) as [<- (size & Hin)].
      rewrite (Hall _ _ Hin) in H. discriminate. }
    unfold CtIcpLoader.get_ground_truth. rewrite Hnone.
    rewrite bool_decide_eq_false_2; [reflexivity|].
    intros [x Hx]. discriminate.
  - intros seq_id Hm. destruct (Hnames seq_id Hm) as [Hname Hin].
    split; [exact Hname|]. split; [exact Hin|].
    unfold CtIcpLoader.get_ground_truth. rewrite Hm.
    rewrite bool_decide_eq_true_2 by eauto. reflexivity.
Qed.

(** *** [__get_datasets] *)

Lemma add_dataset_unavailable o m seq_name datasets sequence_names :
  available m seq_name = false ->
  add_dataset o m seq_name (datasets, sequence_names)
  = ([missing_sequence o seq_name], inr (datasets, sequence_names)).
Proof.
  unfold available, present, CtIcpLoader.add_dataset. intros H.
  rewrite <- negb_andb, H. reflexivity.
Qed.

Lemma add_dataset_available o m seq_name datasets sequence_names :
  available m seq_name = true ->
  exists seq_id,
    m !! seq_name = Some seq_id
    /\ add_dataset o m seq_name (datasets, sequence_names)
       = ([], match new_sequence o seq_id "absolute_pose_gt" "numpy_pc" with
              | inl e => inl e
              | inr dataset =>
                  inr ((datasets ++ [dataset])%list,
                       (sequence_names ++ [seq_name])%list)
              end).
Proof.
  unfold available, present, CtIcpLoader.add_dataset. intros H.
  rewrite <- negb_andb, H.
  apply andb_true_iff in H as [_ H]. apply bool_decide_eq_true in H.
  destruct H as [seq_id Hm]. exists seq_id. split; [exact Hm|].
  rewrite Hm. reflexivity.
Qed.

(** A loop over the requested names that ends without an exception
    has kept the available names and warned about the others. *)
Lemma add_datasets_returned o m names datasets0 names0 log datasets
      sequence_names :
  for_each_logged names (add_dataset o m) (datasets0, names0)
  = (log, inr (datasets, sequence_names)) ->
  log = map (missing_sequence o)
            (List.filter (fun n => negb (available m n)) names)
  /\ sequence_names = (names0 ++ List.filter (available m) names)%list
  /\ exists added,
      datasets = (datasets0 ++ added)%list
      /\ Forall2 (dataset_of o m) (List.filter (available m) names) added.
Proof.
  revert datasets0 names0 log.
  induction names as [|n names IH]; intros datasets0 names0 log Hloop.
  - injection Hloop as <- <- <-.
    cbn [List.filter map]. rewrite !app_nil_r.
    split; [reflexivity|]. split; [reflexivity|].
    exists []. now rewrite app_nil_r.
  - rewrite for_each_logged_cons in Hloop. cbn [List.filter].
    destruct (available m n) eqn:Hav; cbn [negb].
    + destruct (add_dataset_available o m n datasets0 names0 Hav)
        as (seq_id & Hm & Hstep).
      rewrite Hstep in Hloop.
      destruct (new_sequence o seq_id "absolute_pose_gt" "numpy_pc")
        as [e|dataset] eqn:Hnew;
        [rewrite logged_bind_pair_inl in Hloop; discriminate|].
      rewrite logged_bind_pair_inr in Hloop.
      destruct (for_each_logged names (add_dataset o m)
                  ((datasets0 ++ [dataset])%list, (names0 ++ [n])%list))
        as [log' outcome] eqn:Hrest.
      cbn [fst snd app] in Hloop. injection Hloop as <- ->.
      destruct (IH _ _ _ Hrest) as (-> & -> & added & -> & Hall).
      split; [reflexivity|]. split; [now rewrite <- app_assoc|].
      exists (dataset :: added). split; [now rewrite <- app_assoc|].
      constructor; [|exact Hall].
      exists seq_id. split; [exact Hm|exact Hnew].
    + rewrite add_dataset_unavailable in Hloop by assumption.
      rewrite logged_bind_pair_inr in Hloop.
      destruct (for_each_logged names (add_dataset o m) (datasets0, names0))
        as [log' outcome] eqn:Hrest.
      cbn [fst snd app map] in Hloop |- *. injection Hloop as <- ->.
      destruct (IH _ _ _ Hrest) as (-> & -> & added & -> & Hall).
      split; [reflexivity|]. split; [reflexivity|]. now exists added.
Qed.

Lemma new_sequence_returns o seq_id gt_channel pc_channel :
  is_NCLT o = false ->
  exists dataset, new_sequence o seq_id gt_channel pc_channel = inr dataset.
Proof.
  intros H. unfold CtIcpDataset.__init__. rewrite H. cbn. eauto.
Qed.

Lemma new_sequence_NCLT o seq_id gt_channel pc_channel :
  is_NCLT o = true ->
  new_sequence o seq_id gt_channel pc_channel
  = inl (AssertionError "The NCLT Dataset is not available in Random Access").
Proof. intros H. unfold CtIcpDataset.__init__. now rewrite H. Qed.

(** Without the NCLT dataset the loop ends without an exception. *)
Lemma add_datasets_total o m names state :
  is_NCLT o = false ->
  exists log state',
    for_each_logged names (add_dataset o m) state = (log, inr state').
Proof.
  intros HN. revert state.
  induction names as [|n names IH]; intros [datasets0 names0].
  - exists [], (datasets0, names0). reflexivity.
  - rewrite for_each_logged_cons.
    destruct (available m n) eqn:Hav.
    + destruct (add_dataset_available o m n datasets0 names0 Hav)
        as (seq_id & Hm & ->).
      destruct (new_sequence_returns o seq_id "absolute_pose_gt" "numpy_pc" HN)
        as [dataset ->].
      rewrite logged_bind_pair_inr.
      destruct (IH ((datasets0 ++ [dataset])%list, (names0 ++ [n])%list))
        as (log & state' & ->).
      eauto.
    + rewrite add_dataset_unavailable by assumption.
      rewrite logged_bind_pair_inr.
      destruct (IH (datasets0, names0)) as (log & state' & ->). eauto.
Qed.

(** With the NCLT dataset the loop raises at the first available
    name. *)
Lemma add_datasets_NCLT o m names state :
  is_NCLT o = true ->
  (exists n, In n names /\ available m n = true) ->
  snd (for_each_logged names (add_dataset o m) state)
  = inl (AssertionError "The NCLT Dataset is not available in Random Access").
Proof.
  intros HN. revert state.
  induction names as [|n names IH]; intros [datasets0 names0] (x & Hin & Hx);
    [destruct Hin|].
  rewrite for_each_logged_cons.
  destruct (available m n) eqn:Hav.
  - destruct (add_dataset_available o m n datasets0 names0 Hav)
      as (seq_id & Hm & ->).
    rewrite new_sequence_NCLT by assumption. reflexivity.
  - rewrite add_dataset_unavailable by assumption.
    rewrite logged_bind_pair_inr.
    destruct Hin as [->|Hin]; [congruence|].
    exact (IH (datasets0, names0) (ex_intro _ x (conj Hin Hx))).
Qed.

Lemma get_datasets_returned o m requested log part :
  __get_datasets o m requested = (log, inr part) ->
  returned_for o m (available m) requested part
  /\ log = warnings_for o m requested.
Proof.
  unfold CtIcpLoader.__get_datasets.
  destruct requested as [[|n names]|].
  - intros [= <- <-]. cbn. auto.
  - intros (log1 & [datasets sequence_names] & log2 & Hloop & Hret & ->)
             %logged_bind_inr.
    injection Hret as <- <-.
    destruct (add_datasets_returned _ _ _ _ _ _ _ _ Hloop)
      as (-> & -> & added & -> & Hall).
    split; [|cbn [warnings_for]; now rewrite app_nil_r].
    exists (n :: names). split; [reflexivity|]. split; [discriminate|].
    split; [reflexivity|exact Hall].
  - intros [= <- <-]. cbn. auto.
Qed.

(** X14. [__get_datasets] returns [None] for no request and for an
    empty one, without a warning, and for no other request. For a
    request of which no name is available it returns two empty lists,
    after a warning for every name of the request. *)
Theorem get_datasets_nothing o m :
  __get_datasets o m None = ([], inr None)
  /\ __get_datasets o m (Some []) = ([], inr None)
  /\ (forall names log,
         __get_datasets o m (Some names) = (log, inr None) -> names = [])
  /\ (forall names,
         names <> [] ->
         (forall n, In n names -> available m n = false) ->
         __get_datasets o m (Some names)
         = (map (missing_sequence o) names, inr (Some ([], [])))).
Proof.
  split; [reflexivity|]. split; [reflexivity|]. split.
  - intros names log H.
    destruct (get_datasets_returned _ _ _ _ _ H) as [[Hreq|Hreq] _];
      congruence.
  - intros names Hne Hnone.
    assert (Hloop : forall state,
               for_each_logged names (add_dataset o m) state
               = (map (missing_sequence o) names, inr state)).
    { clear Hne. induction names as [|n names IH]; intros [ds ns];
        [reflexivity|].
      cbn [for_each_logged].
      rewrite add_dataset_unavailable by (apply Hnone; now left).
      cbn [mbind logged_bind].
      rewrite IH by (intros x Hx; apply Hnone; now right). reflexivity. }
    unfold CtIcpLoader.__get_datasets.
    destruct names as [|n names]; [congruence|].
    rewrite Hloop. cbn. now rewrite app_nil_r.
Qed.

(** X15. Without the NCLT dataset, [__get_datasets] returns for a
    request that is not empty: it warns about the names that are not
    available, in the order of the request, and it returns the available
    names, in the order of the request, with the sequence that is
    constructed for the identifier of each. *)
Theorem get_datasets_available o m (names : list string) :
  is_NCLT o = false ->
  names <> [] ->
  exists datasets,
    __get_datasets o m (Some names)
    = (map (missing_sequence o)
           (List.filter (fun n => negb (available m n)) names),
       inr (Some (datasets, List.filter (available m) names)))
    /\ Forall2 (dataset_of o m) (List.filter (available m) names) datasets.
Proof.
  intros HN Hne.
  destruct (add_datasets_total o m names ([], []) HN)
    as (log & [datasets sequence_names] & Hloop).
  destruct (add_datasets_returned _ _ _ _ _ _ _ _ Hloop)
    as (-> & -> & added & -> & Hall).
  exists added. split; [|exact Hall].
  unfold CtIcpLoader.__get_datasets.
  destruct names as [|n names]; [congruence|].
  rewrite Hloop. cbn. now rewrite app_nil_r.
Qed.

(** X16. With the NCLT dataset, [__get_datasets] raises the assertion
    error of line 94 for every request that has an available name. *)
Theorem get_datasets_NCLT o m (names : list string) seq_name :
  is_NCLT o = true ->
  In seq_name names ->
  available m seq_name = true ->
  snd (__get_datasets o m (Some names))
  = inl (AssertionError "The NCLT Dataset is not available in Random Access").
Proof.
  intros HN Hin Hav. unfold CtIcpLoader.__get_datasets.
  destruct names as [|n names]; [destruct Hin|].
  pose proof (add_datasets_NCLT o m (n :: names) ([], []) HN
                (ex_intro _ seq_name (conj Hin Hav))) as H.
  destruct (for_each_logged (n :: names) (add_dataset o m) ([], []))
    as [log outcome].
  cbn [snd] in H. subst outcome. reflexivity.
Qed.

Lemma get_datasets_total o m requested :
  is_NCLT o = false ->
  exists log part, __get_datasets o m requested = (log, inr part).
Proof.
  intros HN. unfold CtIcpLoader.__get_datasets.
  destruct requested as [[|n names]|]; [cbn; eauto| |cbn; eauto].
  destruct (add_datasets_total o m (n :: names) ([], []) HN)
    as (log & state & ->).
  cbn. eauto.
Qed.

Lemma returned_for_ext o m (f g : string -> bool) requested part :
  (forall n, f n = g n) ->
  returned_for o m f requested part -> returned_for o m g requested part.
Proof.
  intros Hfg. unfold LoaderSpec.returned_for.
  destruct part as [[datasets sequence_names]|]; [|auto].
  intros (names & -> & Hne & -> & Hall).
  exists names. split; [reflexivity|]. split; [exact Hne|].
  rewrite <- (List.filter_ext _ _ Hfg). auto.
Qed.

(** X17. [sequences] of a loader that was constructed, when it
    returns: each of the three parts is nothing for no request and for
    an empty one, and else the requested names of which the dataset has
    a sequence, in the order of the request, with the sequence that is
    constructed for each; the transform gives back its argument; the
    warnings are those for the names that are dropped, for the training,
    then the evaluation, then the test. Without the NCLT dataset it
    returns. *)
Theorem loader_sequences config self :
  __init__ config = inr self ->
  (forall log train eval test transform,
      sequences self = (log, inr (train, eval, test, transform)) ->
      let o := options self in
      let m := map_seqname_seqid self in
      returned_for o m (present m) (CtIcpConfig.train_sequences config) train
      /\ returned_for o m (present m) (CtIcpConfig.eval_sequences config) eval
      /\ returned_for o m (present m) (CtIcpConfig.test_sequences config) test
      /\ (forall x, transform x = x)
      /\ log = (warnings_for o m (CtIcpConfig.train_sequences config)
                  ++ warnings_for o m (CtIcpConfig.eval_sequences config)
                  ++ warnings_for o m (CtIcpConfig.test_sequences config))%list)
  /\ (is_NCLT (options self) = false ->
      exists log parts, sequences self = (log, inr parts)).
Proof.
  intros Hinit.
  destruct (init_returned _ _ Hinit) as (Hcfg & _ & _ & Hmap & Hall).
  assert (Hpresent : forall n,
             available (map_seqname_seqid self) n
             = present (map_seqname_seqid self) n).
  { intros n. unfold available.
    destruct (present (map_seqname_seqid self) n) eqn:Hp;
      [|apply andb_false_r].
    rewrite andb_true_r.
    apply bool_decide_eq_true in Hp as [seq_id Hm]. rewrite Hmap in Hm.
    apply named_lookup in Hm as [Hm|(size & Hin & <-)].
    - rewrite lookup_empty in Hm. discriminate.
    - eapply Hall, Hin. }
  unfold CtIcpLoader.sequences. rewrite <- Hmap, <- Hcfg. split.
  - intros log train eval test transform
           (log1 & train' & log' & H1 & H & ->)%logged_bind_inr.
    apply logged_bind_inr in H as (log2 & eval' & log'' & H2 & H & ->).
    apply logged_bind_inr in H as (log3 & test' & log4 & H3 & H & ->).
    injection H as <- <- <- <- <-.
    destruct (get_datasets_returned _ _ _ _ _ H1) as [R1 ->].
    destruct (get_datasets_returned _ _ _ _ _ H2) as [R2 ->].
    destruct (get_datasets_returned _ _ _ _ _ H3) as [R3 ->].
    cbv zeta.
    split; [exact (returned_for_ext _ _ _ _ _ _ Hpresent R1)|].
    split; [exact (returned_for_ext _ _ _ _ _ _ Hpresent R2)|].
    split; [exact (returned_for_ext _ _ _ _ _ _ Hpresent R3)|].
    split; [reflexivity|]. now rewrite app_nil_r.
  - intros HN.
    destruct (get_datasets_total (options self) (map_seqname_seqid self)
                (CtIcpConfig.train_sequences config) HN)
      as (log1 & train & ->).
    destruct (get_datasets_total (options self) (map_seqname_seqid self)
                (CtIcpConfig.eval_sequences config) HN)
      as (log2 & eval & H2).
    destruct (get_datasets_total (options self) (map_seqname_seqid self)
                (CtIcpConfig.test_sequences config) HN)
      as (log3 & test & H3).
    cbn [mbind logged_bind]. rewrite H2. cbn [mbind logged_bind].
    rewrite H3. cbn. eauto.
Qed.
End LoaderFacts.

(** ** More examples *)

Module WalkExamples.
Import Py Benchmark BenchmarkSpec Fixture WalkSpec WalkFixture.

Example walked_dirs_paths :
  map fst (walk_of walked_dirs) = ["runs/a"; "runs/b"].
Proof. vm_compute. reflexivity. Qed.

Lemma walk_entry_invariant_witness :
  collect_metrics read_poses_from_disk compute_kitti_metrics walked_dirs
  = inr (walk_of walked_dirs)
  /\ In ("runs/b", partial_entry) (walk_of walked_dirs)
  /\ entry_invariant partial_entry
  /\ exists new_dir,
      In new_dir walked_dirs
      /\ dir_path new_dir = "runs/b"
      /\ sequences partial_entry
         = map (fun n => (n, outcome read_poses_from_disk
                                     compute_kitti_metrics new_dir n))
               (List.filter (found new_dir) folder_names)
      /\ command partial_entry = command_line new_dir.
Proof.
  assert (H1 : collect_metrics read_poses_from_disk compute_kitti_metrics
                               walked_dirs = inr (walk_of walked_dirs))
    by (vm_compute; reflexivity).
  assert (H2 : In ("runs/b", partial_entry) (walk_of walked_dirs))
    by (vm_compute; right; left; reflexivity).
  split; [exact H1|]. split; [exact H2|].
  exact (walk_entry_invariant read_poses_from_disk compute_kitti_metrics
           walked_dirs (walk_of walked_dirs) "runs/b" partial_entry H1 H2).
Defined.

Lemma walk_paths_witness :
  collect_metrics read_poses_from_disk compute_kitti_metrics walked_dirs
  = inr (walk_of walked_dirs)
  /\ NoDup (map dir_path walked_dirs)
  /\ NoDup (map fst (walk_of walked_dirs))
  /\ map fst (walk_of walked_dirs)
     = map dir_path (List.filter yields walked_dirs).
Proof.
  assert (H1 : collect_metrics read_poses_from_disk compute_kitti_metrics
                               walked_dirs = inr (walk_of walked_dirs))
    by (vm_compute; reflexivity).
  assert (H2 : NoDup (map dir_path walked_dirs))
    by (apply (bool_decide_unpack _); vm_compute; reflexivity).
  split; [exact H1|]. split; [exact H2|].
  pose proof (walk_paths read_poses_from_disk compute_kitti_metrics
                walked_dirs (walk_of walked_dirs) H1) as (Hnd & _ & Hord).
  split; [exact Hnd|exact (Hord H2)].
Defined.

(** The mean of no error is a division by zero, and nothing is written
    for any directory of the walk. *)
Lemma walk_without_segments_witness :
  without_segments read_poses_from_disk compute_kitti_metrics no_segment_dir
  = true
  /\ collect_metrics read_poses_from_disk compute_kitti_metrics [partial_dir]
     = inr (walk_of [partial_dir])
  /\ visit_directory read_poses_from_disk compute_kitti_metrics
                     no_segment_dir (walk_of [partial_dir])
     = inl ZeroDivisionError
  /\ collect_metrics read_poses_from_disk compute_kitti_metrics
                     ([partial_dir] ++ no_segment_dir :: [complete_dir])%list
     = inl ZeroDivisionError.
Proof.
  assert (H1 : without_segments read_poses_from_disk compute_kitti_metrics
                                no_segment_dir = true)
    by (vm_compute; reflexivity).
  assert (H2 : collect_metrics read_poses_from_disk compute_kitti_metrics
                               [partial_dir] = inr (walk_of [partial_dir]))
    by (vm_compute; reflexivity).
  split; [exact H1|]. split; [exact H2|].
  exact (walk_without_segments read_poses_from_disk compute_kitti_metrics
           [partial_dir] no_segment_dir [complete_dir]
           (walk_of [partial_dir]) H1 H2).
Defined.

Lemma walk_skips_directory_witness :
  (is_metrics_dir empty_dir = false \/ yields empty_dir = false)
  /\ (forall metrics,
         visit_directory read_poses_from_disk compute_kitti_metrics
                         empty_dir metrics = inr metrics)
  /\ collect_metrics read_poses_from_disk compute_kitti_metrics
                     ([complete_dir] ++ empty_dir :: [partial_dir])%list
     = collect_metrics read_poses_from_disk compute_kitti_metrics
                       ([complete_dir] ++ [partial_dir])%list.
Proof.
  assert (H : is_metrics_dir empty_dir = false \/ yields empty_dir = false)
    by (right; vm_compute; reflexivity).
  split; [exact H|].
  exact (walk_skips_directory read_poses_from_disk compute_kitti_metrics
           [complete_dir] empty_dir [partial_dir] H).
Defined.

Lemma report_of_ranking_witness :
  NoDup (map fst ranking_input)
  /\ write_benchmark home ranking_input
     = inr (header
              ++ (main_table_head
                    ++ map (table_row home) (ranking ranking_input))
              ++ (command_head
                    ++ map (command_row home) (ranking ranking_input)))%list
  /\ forall lines,
      write_benchmark home ranking_input = inr lines ->
      List.length lines = (7 + 2 * List.length ranking_input)%nat.
Proof.
  assert (H : NoDup (map fst ranking_input))
    by (apply (bool_decide_unpack _); vm_compute; reflexivity).
  split; [exact H|].
  pose proof (report_of_ranking home ranking_input H) as (H1 & _ & _ & H2).
  split; [exact H1|exact H2].
Defined.

Lemma ranking_of_ranked_witness :
  StronglySorted (ascending sort_key xlt) (db_metrics ranked_input)
  /\ sorted_db_metrics ranked_input = db_metrics ranked_input.
Proof.
  assert (H : StronglySorted (ascending sort_key xlt)
                             (db_metrics ranked_input))
    by (repeat constructor).
  split; [exact H|].
  exact (proj1 (ranking_of_ranked ranked_input) H).
Defined.

Lemma build_benchmark_outcome_witness :
  dataset kitti_cfg = "kitti"
  /\ collect_metrics read_poses_from_disk compute_kitti_metrics walked_dirs
     = inr (walk_of walked_dirs)
  /\ build_benchmark read_poses_from_disk compute_kitti_metrics home
                     kitti_cfg walked_dirs
     = inr (header
              ++ (main_table_head
                    ++ map (table_row home) (ranking (walk_of walked_dirs)))
              ++ (command_head
                    ++ map (command_row home)
                           (ranking (walk_of walked_dirs))))%list.
Proof.
  assert (H1 : collect_metrics read_poses_from_disk compute_kitti_metrics
                               walked_dirs = inr (walk_of walked_dirs))
    by (vm_compute; reflexivity).
  split; [reflexivity|]. split; [exact H1|].
  exact (proj2 (proj2 (build_benchmark_outcome
                         read_poses_from_disk compute_kitti_metrics home
                         kitti_cfg walked_dirs) eq_refl)
               (walk_of walked_dirs) H1).
Defined.

(** Another dataset than ["kitti"] is refused before the disk is
    read. *)
Example build_benchmark_refuses_nclt :
  build_benchmark read_poses_from_disk compute_kitti_metrics home
                  nclt_cfg walked_dirs
  = inl (AssertionError
           "Only kitti is supported (for now) to build a benchmark").
Proof. reflexivity. Qed.

(** The second sequence of [late_mismatch_dir] is the first one whose
    evaluation raises. *)
Lemma walk_first_failure_witness :
  collect_metrics read_poses_from_disk compute_kitti_metrics [partial_dir]
  = inr (walk_of [partial_dir])
  /\ folder_names
     = (["00"] ++ "01" :: ["02"; "03"; "04"; "05"; "06"; "07"; "08"; "09";
                           "10"])%list
  /\ evaluated read_poses_from_disk compute_kitti_metrics late_mismatch_dir
               evaluation ["00"]
  /\ pose_files late_mismatch_dir "01"
     = Some ({| poses_count := 5; segments := map segment (ones "01") |},
             {| poses_count := 4; segments := [] |},
             Some {[ "01" := {[ "nsecs_per_frame" := (2 # 100)%Q ]} ]})
  /\ visit_directory read_poses_from_disk compute_kitti_metrics
                     late_mismatch_dir (walk_of [partial_dir])
     = inl (Raised "ShapeMismatch")
  /\ collect_metrics read_poses_from_disk compute_kitti_metrics
                     ([partial_dir] ++ late_mismatch_dir :: [complete_dir])%list
     = inl (Raised "ShapeMismatch").
Proof.
  assert (H1 : collect_metrics read_poses_from_disk compute_kitti_metrics
                               [partial_dir] = inr (walk_of [partial_dir]))
    by (vm_compute; reflexivity).
  assert (H2 : folder_names
               = (["00"] ++ "01" :: ["02"; "03"; "04"; "05"; "06"; "07";
                                     "08"; "09"; "10"])%list)
    by reflexivity.
  assert (H3 : evaluated read_poses_from_disk compute_kitti_metrics
                         late_mismatch_dir evaluation ["00"]).
  { assert (H0 : pose_files late_mismatch_dir "00"
                 = Some ({| poses_count := 5;
                            segments := map segment (ones "00") |},
                         {| poses_count := 5; segments := [] |},
                         Some {[ "00" := {[ "nsecs_per_frame"
                                            := (2 # 100)%Q ]} ]}))
      by (vm_compute; reflexivity).
    intros name files [<-|[]] Hfiles. rewrite H0 in Hfiles.
    apply (inj Some) in Hfiles. subst files. vm_compute. reflexivity. }
  assert (H4 : pose_files late_mismatch_dir "01"
               = Some ({| poses_count := 5;
                          segments := map segment (ones "01") |},
                       {| poses_count := 4; segments := [] |},
                       Some {[ "01" := {[ "nsecs_per_frame"
                                          := (2 # 100)%Q ]} ]}))
    by (vm_compute; reflexivity).
  split; [exact H1|]. split; [exact H2|]. split; [exact H3|].
  split; [exact H4|].
  exact (walk_first_failure read_poses_from_disk compute_kitti_metrics
           [partial_dir] late_mismatch_dir [complete_dir]
           (walk_of [partial_dir]) ["00"] "01" _ evaluation _
           (Raised "ShapeMismatch") H1 H2 H3 H4 eq_refl).
Defined.
End WalkExamples.

Module LoaderExamples.
Import Py CtIcpDataset CtIcpConfig CtIcpLoader LoaderSpec.
Import DatasetFixture LoaderFixture.

Lemma getitem_values_witness :
  (0 <= 0)%Z
  /\ nth_error (dataset_sequences short_ground_truth) (Z.to_nat 0)
     = Some {| raw_point := [1; 2]%Z; timestamp := [0; 1 # 10]%Q |}
  /\ (forall poses, gt short_ground_truth = Some poses ->
                    (0 < Z.of_nat (List.length poses))%Z)
  /\ exists data_dict,
      __getitem__ DatasetFixture.astype_float32 short_ground_truth 0
      = inr data_dict
      /\ data_dict !! "numpy_pc" = Some (numpy_pc [1; 2]%Z)
      /\ data_dict !! "numpy_pc_timestamps"
         = Some (timestamps [0; 1 # 10]%Q)
      /\ data_dict !! "absolute_pose_gt" = Some (pose_gt 7%Z).
Proof.
  assert (H1 : (0 <= 0)%Z) by lia.
  assert (H2 : nth_error (dataset_sequences short_ground_truth) (Z.to_nat 0)
               = Some {| raw_point := [1; 2]%Z;
                         timestamp := [0; 1 # 10]%Q |})
    by reflexivity.
  assert (H3 : forall poses, gt short_ground_truth = Some poses ->
                             (0 < Z.of_nat (List.length poses))%Z)
    by (intros poses [= <-]; simpl; lia).
  split; [exact H1|]. split; [exact H2|]. split; [exact H3|].
  destruct (getitem_values DatasetFixture.astype_float32 short_ground_truth
              0 _ H1 H2 H3)
    as (data_dict & Hget & _ & Hts & Hpc & Hgt).
  exists data_dict. split; [exact Hget|].
  split; [apply Hpc; right; discriminate|].
  split; [apply Hts; right; discriminate|].
  destruct (Hgt [7%Z] eq_refl) as (pose & [= <-] & Hpose). exact Hpose.
Defined.

Lemma to_pct_object_MISSING_witness :
  missing_options
  = ([("dataset", VStr "KITTI")] ++ ("root_path", VStr MISSING) :: [])%list
  /\ "root_path" <> "dataset"
  /\ for_each [("dataset", VStr "KITTI")]
              (set_field CT_ICP_DATASET setattr no_message) new_options
     = inr {[ "dataset" := VDataset "KITTI" ]}
  /\ to_pct_object new_options CT_ICP_DATASET setattr no_message
                   missing_options
     = inl (AssertionError no_message).
Proof.
  assert (H1 : missing_options
               = ([("dataset", VStr "KITTI")]
                    ++ ("root_path", VStr MISSING) :: [])%list)
    by reflexivity.
  assert (H2 : "root_path" <> "dataset") by discriminate.
  assert (H3 : for_each [("dataset", VStr "KITTI")]
                        (set_field CT_ICP_DATASET setattr no_message)
                        new_options
               = inr {[ "dataset" := VDataset "KITTI" ]})
    by (vm_compute; reflexivity).
  split; [exact H1|]. split; [exact H2|]. split; [exact H3|].
  exact (proj2 (to_pct_object_MISSING new_options CT_ICP_DATASET setattr
                  no_message missing_options)
               _ _ _ _ H1 H2 H3).
Defined.

Lemma new_loader_kitti :
  new_loader (default_config kitti_options) = inr kitti_loader.
Proof. vm_compute. reflexivity. Qed.

Lemma loader_init_names_witness :
  new_loader (default_config kitti_options) = inr kitti_loader
  /\ path_exists (root_path (options kitti_loader)) = true
  /\ map_seqname_seqid kitti_loader
     = seqname_to_seqid get_sequences sequence_name (options kitti_loader)
  /\ forall seq_name seq_id,
      map_seqname_seqid kitti_loader !! seq_name = Some seq_id ->
      have_sequence seq_name = true
      /\ sequence_name (options kitti_loader) seq_id = seq_name
      /\ exists seq_size,
          In (seq_id, seq_size) (get_sequences (options kitti_loader)).
Proof.
  assert (H : new_loader (default_config kitti_options) = inr kitti_loader)
    by (vm_compute; reflexivity).
  split; [exact H|].
  pose proof (loader_init_names new_options CT_ICP_DATASET setattr
                no_message root_path path_str path_exists get_sequences
                sequence_name (default_config kitti_options) kitti_loader H)
    as (_ & H1 & H2 & H3 & _).
  split; [exact H1|]. split; [exact H2|exact H3].
Defined.

(** The dataset at [/data/kitti_all] has the sequence ["03"], which is
    no recognised name: no loader is constructed for it. *)
Lemma loader_init_unrecognised_witness :
  to_pct_object new_options CT_ICP_DATASET setattr no_message
                (CtIcpConfig.options (default_config kitti_all_options))
  = inr (made_options kitti_all_options)
  /\ path_exists (root_path (made_options kitti_all_options)) = true
  /\ In (3, 2)%Z (get_sequences (made_options kitti_all_options))
  /\ have_sequence (sequence_name (made_options kitti_all_options) 3) = false
  /\ new_loader (default_config kitti_all_options)
     = inl (AssertionError no_message).
Proof.
  assert (H1 : to_pct_object new_options CT_ICP_DATASET setattr no_message
                 (CtIcpConfig.options (default_config kitti_all_options))
               = inr (made_options kitti_all_options))
    by (vm_compute; reflexivity).
  assert (H2 : path_exists (root_path (made_options kitti_all_options))
               = true)
    by (vm_compute; reflexivity).
  assert (H3 : In (3, 2)%Z (get_sequences (made_options kitti_all_options)))
    by (vm_compute; do 3 right; left; reflexivity).
  assert (H4 : have_sequence
                 (sequence_name (made_options kitti_all_options) 3) = false)
    by (vm_compute; reflexivity).
  split; [exact H1|]. split; [exact H2|]. split; [exact H3|].
  split; [exact H4|].
  exact (loader_init_unrecognised new_options CT_ICP_DATASET setattr
           no_message root_path path_str path_exists get_sequences
           sequence_name (default_config kitti_all_options)
           (made_options kitti_all_options) 3 2 H1 H2 H3 H4).
Defined.

Lemma get_ground_truth_names_witness :
  new_loader (default_config kitti_options) = inr kitti_loader
  /\ get_ground_truth no_message load_sensor_ground_truth
                      compute_relative_poses kitti_loader "03"
     = inl (AssertionError no_message)
  /\ get_ground_truth no_message load_sensor_ground_truth
                      compute_relative_poses kitti_loader "09"
     = compute_relative_poses
         (load_sensor_ground_truth (options kitti_loader) 9).
Proof.
  assert (H : new_loader (default_config kitti_options) = inr kitti_loader)
    by (vm_compute; reflexivity).
  split; [exact H|]. split.
  - exact (proj1 (get_ground_truth_names
                    new_options CT_ICP_DATASET setattr no_message root_path
                    path_str path_exists get_sequences sequence_name
                    load_sensor_ground_truth compute_relative_poses
                    (default_config kitti_options) kitti_loader "03" H)
                 (or_introl eq_refl)).
  - exact (proj2 (proj2 (proj2 (get_ground_truth_names
                    new_options CT_ICP_DATASET setattr no_message root_path
                    path_str path_exists get_sequences sequence_name
                    load_sensor_ground_truth compute_relative_poses
                    (default_config kitti_options) kitti_loader "09" H)
                 9%Z eq_refl))).
Defined.

Lemma get_datasets_nothing_witness :
  ["03"; "Town01"] <> []
  /\ (forall n, In n ["03"; "Town01"] ->
                available (map_seqname_seqid kitti_loader) n = false)
  /\ __get_datasets root_path is_NCLT get_dataset_sequence has_ground_truth
                    load_sensor_ground_truth (options kitti_loader)
                    (map_seqname_seqid kitti_loader)
                    (Some ["03"; "Town01"])
     = (map (missing_sequence root_path (options kitti_loader))
            ["03"; "Town01"],
        inr (Some ([], []))).
Proof.
  assert (H1 : ["03"; "Town01"] <> []) by discriminate.
  assert (H2 : forall n, In n ["03"; "Town01"] ->
                         available (map_seqname_seqid kitti_loader) n = false)
    by (intros n [<-|[<-|[]]]; vm_compute; reflexivity).
  split; [exact H1|]. split; [exact H2|].
  exact (proj2 (proj2 (proj2 (get_datasets_nothing
                   root_path is_NCLT get_dataset_sequence has_ground_truth
                   load_sensor_ground_truth (options kitti_loader)
                   (map_seqname_seqid kitti_loader))))
               ["03"; "Town01"] H1 H2).
Defined.

Lemma get_datasets_available_witness :
  is_NCLT (options kitti_loader) = false
  /\ default_eval_sequences <> []
  /\ exists datasets,
      __get_datasets root_path is_NCLT get_dataset_sequence has_ground_truth
                     load_sensor_ground_truth (options kitti_loader)
                     (map_seqname_seqid kitti_loader)
                     (Some default_eval_sequences)
      = (map (missing_sequence root_path (options kitti_loader))
             (List.filter
                (fun n => negb (available (map_seqname_seqid kitti_loader) n))
                default_eval_sequences),
         inr (Some (datasets,
                    List.filter (available (map_seqname_seqid kitti_loader))
                                default_eval_sequences)))
      /\ Forall2 (dataset_of is_NCLT get_dataset_sequence has_ground_truth
                             load_sensor_ground_truth (options kitti_loader)
                             (map_seqname_seqid kitti_loader))
                 (List.filter (available (map_seqname_seqid kitti_loader))
                              default_eval_sequences)
                 datasets.
Proof.
  assert (H1 : is_NCLT (options kitti_loader) = false)
    by (vm_compute; reflexivity).
  assert (H2 : default_eval_sequences <> []) by discriminate.
  split; [exact H1|]. split; [exact H2|].
  exact (get_datasets_available
           root_path is_NCLT get_dataset_sequence has_ground_truth
           load_sensor_ground_truth (options kitti_loader)
           (map_seqname_seqid kitti_loader) default_eval_sequences H1 H2).
Defined.

(** Of the default request for the evaluation the dataset of the
    examples has ["09"] and not ["10"]. *)
Example default_eval_sequences_available :
  List.filter (available (map_seqname_seqid kitti_loader))
              default_eval_sequences = ["09"]
  /\ List.filter (fun n => negb (available (map_seqname_seqid kitti_loader) n))
                 default_eval_sequences = ["10"].
Proof. split; vm_compute; reflexivity. Qed.

Lemma get_datasets_NCLT_witness :
  is_NCLT (made_options nclt_options) = true
  /\ In "00" ["10"; "00"]
  /\ available (seqname_to_seqid get_sequences sequence_name
                                 (made_options nclt_options)) "00" = true
  /\ snd (__get_datasets root_path is_NCLT get_dataset_sequence
                         has_ground_truth load_sensor_ground_truth
                         (made_options nclt_options)
                         (seqname_to_seqid get_sequences sequence_name
                                           (made_options nclt_options))
                         (Some ["10"; "00"]))
     = inl (AssertionError
              "The NCLT Dataset is not available in Random Access").
Proof.
  assert (H1 : is_NCLT (made_options nclt_options) = true)
    by (vm_compute; reflexivity).
  assert (H2 : In "00" ["10"; "00"]) by (right; left; reflexivity).
  assert (H3 : available (seqname_to_seqid get_sequences sequence_name
                            (made_options nclt_options)) "00" = true)
    by (vm_compute; reflexivity).
  split; [exact H1|]. split; [exact H2|]. split; [exact H3|].
  exact (get_datasets_NCLT
           root_path is_NCLT get_dataset_sequence has_ground_truth
           load_sensor_ground_truth (made_options nclt_options)
           (seqname_to_seqid get_sequences sequence_name
                             (made_options nclt_options))
           ["10"; "00"] "00" H1 H2 H3).
Defined.

Lemma loader_sequences_witness :
  new_loader (default_config kitti_options) = inr kitti_loader
  /\ is_NCLT (options kitti_loader) = false
  /\ exists log parts,
      sequences root_path get_sequences sequence_name is_NCLT
                get_dataset_sequence has_ground_truth
                load_sensor_ground_truth kitti_loader
      = (log, inr parts).
Proof.
  assert (H : new_loader (default_config kitti_options) = inr kitti_loader)
    by (vm_compute; reflexivity).
  assert (HN : is_NCLT (options kitti_loader) = false)
    by (vm_compute; reflexivity).
  split; [exact H|]. split; [exact HN|].
  exact (proj2 (loader_sequences
                  new_options CT_ICP_DATASET setattr no_message root_path
                  path_str path_exists get_sequences sequence_name is_NCLT
                  get_dataset_sequence has_ground_truth
                  load_sensor_ground_truth
                  (default_config kitti_options) kitti_loader H)
               HN).
Defined.

(** What [sequences] gives for the loader of the examples: the names of
    the default requests that the dataset has, and a warning for every
    other one. *)
Example kitti_loader_sequences :
  match sequences root_path get_sequences sequence_name is_NCLT
                  get_dataset_sequence has_ground_truth
                  load_sensor_ground_truth kitti_loader with
  | (log, inr (Some (_, train), Some (_, eval), Some (_, test), _)) =>
      train = ["00"; "01"; "09"]
      /\ eval = ["09"]
      /\ test = ["00"; "01"; "09"]
      /\ List.length log = (14 + 1 + 18)%nat
  | _ => False
  end.
Proof. vm_compute. repeat split. Qed.
End LoaderExamples.

(** ** The sort of CPython *)

Section ListSortPerm.
Import Ranker.
Context {A K : Type} (key : A -> K) (lt : K -> K -> bool).

Lemma ascending_run_app prev l :
  (fst (ascending_run key lt prev l) ++ snd (ascending_run key lt prev l))%list
  = l.
Proof.
  revert prev. induction l as [|x l IH]; intros prev; [reflexivity|].
  cbn [ascending_run]. destruct (lt (key x) (key prev)); [reflexivity|].
  specialize (IH x). destruct (ascending_run key lt x l) as [run rest].
  cbn [fst snd app] in *. now rewrite IH.
Qed.

Lemma descending_run_app prev l :
  (fst (descending_run key lt prev l)
     ++ snd (descending_run key lt prev l))%list = l.
Proof.
  revert prev. induction l as [|x l IH]; intros prev; [reflexivity|].
  cbn [descending_run]. destruct (lt (key x) (key prev)); [|reflexivity].
  specialize (IH x). destruct (descending_run key lt x l) as [run rest].
  cbn [fst snd app] in *. now rewrite IH.
Qed.

Lemma count_run_perm l :
  Permutation (fst (count_run key lt l) ++ snd (count_run key lt l))%list l.
Proof.
  destruct l as [|x0 [|x1 l]]; [reflexivity|reflexivity|].
  cbn [count_run]. destruct (lt (key x1) (key x0)).
  - pose proof (descending_run_app x1 l) as H.
    destruct (descending_run key lt x1 l) as [run rest].
    cbn [fst snd] in *. rewrite <- H.
    change (x0 :: x1 :: run ++ rest)%list
      with ((x0 :: x1 :: run) ++ rest)%list.
    apply Permutation_app_tail. symmetry. apply Permutation_rev.
  - pose proof (ascending_run_app x1 l) as H.
    destruct (ascending_run key lt x1 l) as [run rest].
    cbn [fst snd] in *. now rewrite <- H.
Qed.

Lemma binary_insert_perm pivot a :
  Permutation (binary_insert key lt pivot a) (pivot :: a).
Proof.
  unfold binary_insert.
  set (l := bisect key lt (List.length a) pivot a 0 (List.length a)).
  rewrite <- (firstn_skipn l a) at 3. symmetry. apply Permutation_middle.
Qed.

Lemma binarysort_perm run rest :
  Permutation (binarysort key lt run rest) (run ++ rest)%list.
Proof.
  unfold binarysort. revert run.
  induction rest as [|x rest IH]; intros run; cbn [fold_left].
  - now rewrite app_nil_r.
  - rewrite IH, binary_insert_perm. apply Permutation_middle.
Qed.

(** The sorted list holds the elements of the list, whatever the keys
    are. *)
Lemma list_sort_perm l : Permutation (list_sort key lt l) l.
Proof.
  unfold list_sort. destruct (List.length l <? 64)%nat; [|apply sort_perm].
  pose proof (count_run_perm l) as H.
  destruct (count_run key lt l) as [run rest]. cbn [fst snd] in H.
  now rewrite binarysort_perm.
Qed.
End ListSortPerm.

(** The sort looks at the keys of the elements of the list only: two
    orders that agree on them give one list. *)
Section ListSortExt.
Import Ranker.
Context {A K : Type} (key : A -> K) (lt lt' : K -> K -> bool).

Local Abbreviation same_on := (RankerSpec.same_on key lt lt').

Lemma same_on_incl l l' :
  (forall x, In x l' -> In x l) -> same_on l -> same_on l'.
Proof. intros Hincl H x y Hx Hy. apply H; auto. Qed.

Lemma ascending_run_ext prev l :
  same_on (prev :: l) ->
  ascending_run key lt prev l = ascending_run key lt' prev l.
Proof.
  revert prev. induction l as [|x l IH]; intros prev H; [reflexivity|].
  cbn [ascending_run].
  rewrite (H x prev) by (cbn; auto).
  destruct (lt' (key x) (key prev)); [reflexivity|].
  rewrite IH; [reflexivity|].
  apply (same_on_incl (prev :: x :: l)); [|exact H].
  intros z Hz. now right.
Qed.

Lemma descending_run_ext prev l :
  same_on (prev :: l) ->
  descending_run key lt prev l = descending_run key lt' prev l.
Proof.
  revert prev. induction l as [|x l IH]; intros prev H; [reflexivity|].
  cbn [descending_run].
  rewrite (H x prev) by (cbn; auto).
  destruct (lt' (key x) (key prev)); [|reflexivity].
  rewrite IH; [reflexivity|].
  apply (same_on_incl (prev :: x :: l)); [|exact H].
  intros z Hz. now right.
Qed.

Lemma count_run_ext l :
  same_on l -> count_run key lt l = count_run key lt' l.
Proof.
  intros H. destruct l as [|x0 [|x1 l]]; [reflexivity|reflexivity|].
  cbn [count_run]. rewrite (H x1 x0) by (cbn; auto).
  assert (H1 : same_on (x1 :: l)).
  { apply (same_on_incl (x0 :: x1 :: l)); [|exact H].
    intros z Hz. now right. }
  now rewrite descending_run_ext, ascending_run_ext.
Qed.

Lemma bisect_ext fuel pivot a l r :
  (forall y, In y a -> lt (key pivot) (key y) = lt' (key pivot) (key y)) ->
  bisect key lt fuel pivot a l r = bisect key lt' fuel pivot a l r.
Proof.
  intros H. revert l r.
  induction fuel as [|fuel IH]; intros l r; [reflexivity|].
  cbn [bisect]. destruct (l <? r)%nat; [|reflexivity].
  destruct (nth_error a (l + (r - l) / 2)) as [x|] eqn:Hx; [|reflexivity].
  rewrite (H x) by (eapply nth_error_In; eassumption).
  now rewrite !IH.
Qed.

Lemma binary_insert_ext pivot a :
  same_on (pivot :: a) ->
  binary_insert key lt pivot a = binary_insert key lt' pivot a.
Proof.
  intros H. unfold binary_insert. rewrite bisect_ext; [reflexivity|].
  intros y Hy. apply H; cbn; auto.
Qed.

Lemma binarysort_ext run rest :
  same_on (run ++ rest)%list ->
  binarysort key lt run rest = binarysort key lt' run rest.
Proof.
  unfold binarysort. revert run.
  induction rest as [|x rest IH]; intros run H; [reflexivity|].
  cbn [fold_left].
  rewrite binary_insert_ext.
  - apply IH. apply (same_on_incl (run ++ x :: rest)%list); [|exact H].
    intros z [Hz|Hz]%in_app_or.
    + apply list_elem_of_In in Hz. rewrite binary_insert_perm in Hz.
      apply list_elem_of_In in Hz. destruct Hz as [<-|Hz].
      * apply in_or_app. right. now left.
      * apply in_or_app. now left.
    + apply in_or_app. right. now right.
  - apply (same_on_incl (run ++ x :: rest)%list); [|exact H].
    intros z [<-|Hz].
    + apply in_or_app. right. now left.
    + apply in_or_app. now left.
Qed.

Lemma insort_ext x a :
  same_on (x :: a) -> Py.insort key lt x a = Py.insort key lt' x a.
Proof.
  induction a as [|y a IH]; intros H; [reflexivity|].
  cbn [Py.insort]. rewrite (H x y) by (cbn; auto).
  destruct (lt' (key x) (key y)); [reflexivity|].
  rewrite IH; [reflexivity|].
  apply (same_on_incl (x :: y :: a)); [|exact H].
  intros z [<-|Hz]; cbn; auto.
Qed.

Lemma sort_loop_ext l acc :
  same_on (acc ++ l)%list ->
  fold_left (fun sorted x => Py.insort key lt x sorted) l acc
  = fold_left (fun sorted x => Py.insort key lt' x sorted) l acc.
Proof.
  revert acc. induction l as [|x l IH]; intros acc H; [reflexivity|].
  cbn [fold_left].
  rewrite insort_ext.
  - apply IH. apply (same_on_incl (acc ++ x :: l)%list); [|exact H].
    intros z [Hz|Hz]%in_app_or.
    + apply list_elem_of_In in Hz. rewrite insort_perm in Hz.
      apply list_elem_of_In in Hz. destruct Hz as [<-|Hz].
      * apply in_or_app. right. now left.
      * apply in_or_app. now left.
    + apply in_or_app. right. now right.
  - apply (same_on_incl (acc ++ x :: l)%list); [|exact H].
    intros z [<-|Hz].
    + apply in_or_app. right. now left.
    + apply in_or_app. now left.
Qed.

Lemma list_sort_ext l :
  same_on l -> list_sort key lt l = list_sort key lt' l.
Proof.
  intros H. unfold list_sort.
  destruct (List.length l <? 64)%nat; [|apply (sort_loop_ext l [] H)].
  rewrite <- count_run_ext by exact H.
  pose proof (count_run_perm key lt l) as Hperm.
  destruct (count_run key lt l) as [run rest]. cbn [fst snd] in Hperm.
  apply binarysort_ext. apply (same_on_incl l); [|exact H].
  intros z Hz. apply list_elem_of_In. rewrite <- Hperm.
  now apply list_elem_of_In.
Qed.
End ListSortExt.

(** When [lt] is a strict weak order on the keys, the sort of CPython
    gives the list of the stable insertion sort. *)
Section ListSortStable.
Import Ranker.
Context {A K : Type} (key : A -> K) (lt : K -> K -> bool).
Hypothesis lt_asym : forall a b, lt a b = true -> lt b a = false.
Hypothesis lt_cotrans :
  forall a b c, lt a b = true -> lt a c = true \/ lt c b = true.

Local Abbreviation insort := (Py.insort key lt).
Local Abbreviation sort_loop :=
  (fold_left (fun sorted x => Py.insort key lt x sorted)).

Lemma ascending_trans x y z :
  ascending key lt x y -> ascending key lt y z -> ascending key lt x z.
Proof.
  unfold ascending. intros Hxy Hyz.
  destruct (lt (key z) (key x)) eqn:Hzx; [|reflexivity].
  destruct (lt_cotrans _ _ (key y) Hzx); congruence.
Qed.

Lemma chain_sorted l :
  Sorted (ascending key lt) l -> StronglySorted (ascending key lt) l.
Proof.
  apply Sorted_StronglySorted. intros x y z. apply ascending_trans.
Qed.

Lemma ascending_run_chain prev l :
  Sorted (ascending key lt) (prev :: fst (ascending_run key lt prev l)).
Proof.
  revert prev. induction l as [|x l IH]; intros prev;
    [repeat constructor|].
  cbn [ascending_run].
  destruct (lt (key x) (key prev)) eqn:Hx; [repeat constructor|].
  specialize (IH x). destruct (ascending_run key lt x l) as [run rest].
  cbn [fst] in *. constructor; [exact IH|]. constructor. exact Hx.
Qed.

(** A strictly descending run enters the sorted prefix at its front,
    one element after the other. *)
Lemma descending_run_loop prev l acc :
  sort_loop (fst (descending_run key lt prev l)) (prev :: acc)
  = (rev (fst (descending_run key lt prev l)) ++ prev :: acc)%list.
Proof.
  revert prev acc. induction l as [|x l IH]; intros prev acc;
    [reflexivity|].
  cbn [descending_run].
  destruct (lt (key x) (key prev)) eqn:Hx; [|reflexivity].
  specialize (IH x (prev :: acc)).
  destruct (descending_run key lt x l) as [run rest].
  cbn [fst fold_left Py.insort rev] in *. rewrite Hx, IH.
  now rewrite <- app_assoc.
Qed.

Lemma insort_split x a1 a2 :
  Forall (fun y => lt (key x) (key y) = false) a1 ->
  match a2 with
  | [] => True
  | y :: _ => lt (key x) (key y) = true
  end ->
  insort x (a1 ++ a2)%list = (a1 ++ x :: a2)%list.
Proof.
  intros H1 H2. induction H1 as [|y a1 Hy _ IH]; cbn [app Py.insort].
  - destruct a2 as [|y a2]; [reflexivity|]. cbn [Py.insort]. now rewrite H2.
  - now rewrite Hy, IH.
Qed.

(** In a sorted list the elements that are not above [x] stand before
    the elements that are. *)
Lemma sorted_boundary x a :
  StronglySorted (ascending key lt) a ->
  exists a1 a2,
    a = (a1 ++ a2)%list
    /\ Forall (fun y => lt (key x) (key y) = false) a1
    /\ Forall (fun y => lt (key x) (key y) = true) a2.
Proof.
  induction 1 as [|y a Ha IH Hy].
  - exists [], []. repeat split; constructor.
  - destruct (lt (key x) (key y)) eqn:Hxy.
    + exists [], (y :: a). split; [reflexivity|]. split; [constructor|].
      constructor; [exact Hxy|].
      rewrite Forall_forall in Hy |- *. intros z Hz.
      specialize (Hy z Hz). unfold ascending in Hy.
      destruct (lt_cotrans _ _ (key z) Hxy); congruence.
    + destruct IH as (a1 & a2 & -> & H1 & H2).
      exists (y :: a1), a2. split; [reflexivity|].
      split; [now constructor|exact H2].
Qed.

Lemma bisect_boundary fuel x a1 a2 l r :
  Forall (fun y => lt (key x) (key y) = false) a1 ->
  Forall (fun y => lt (key x) (key y) = true) a2 ->
  (l <= List.length a1)%nat -> (List.length a1 <= r)%nat ->
  (r <= List.length (a1 ++ a2))%nat -> (r - l <= fuel)%nat ->
  bisect key lt fuel x (a1 ++ a2)%list l r = List.length a1.
Proof.
  intros H1 H2. revert l r.
  induction fuel as [|fuel IH]; intros l r Hl Hr Hlen Hfuel.
  - cbn [bisect]. lia.
  - cbn [bisect]. destruct (Nat.ltb_spec l r) as [Hlt|Hge]; [|lia].
    pose proof (Nat.div_mod_eq (r - l) 2) as Hdiv.
    pose proof (Nat.mod_upper_bound (r - l) 2 ltac:(lia)) as Hmod.
    set (p := (l + (r - l) / 2)%nat) in *.
    assert (Hp : (l <= p < r)%nat) by (subst p; lia).
    rewrite length_app in Hlen.
    destruct (Nat.lt_ge_cases p (List.length a1)) as [Hp1|Hp1].
    + destruct (nth_error a1 p) as [y|] eqn:Hy;
        [|apply nth_error_None in Hy; lia].
      rewrite nth_error_app1, Hy by exact Hp1.
      rewrite List.Forall_forall in H1.
      rewrite (H1 y) by (eapply nth_error_In; eassumption).
      apply IH; rewrite ?length_app; lia.
    + destruct (nth_error a2 (p - List.length a1)) as [y|] eqn:Hy;
        [|apply nth_error_None in Hy; lia].
      rewrite nth_error_app2, Hy by exact Hp1.
      rewrite List.Forall_forall in H2.
      rewrite (H2 y) by (eapply nth_error_In; eassumption).
      apply IH; rewrite ?length_app; lia.
Qed.

(** The bisection finds the place that the insertion sort gives. *)
Lemma binary_insert_insort x a :
  StronglySorted (ascending key lt) a ->
  binary_insert key lt x a = insort x a.
Proof.
  intros Ha. destruct (sorted_boundary x a Ha) as (a1 & a2 & -> & H1 & H2).
  unfold binary_insert.
  rewrite bisect_boundary by (rewrite ?length_app; (assumption || lia)).
  rewrite firstn_app, Nat.sub_diag, firstn_all, firstn_O, app_nil_r.
  rewrite skipn_app, Nat.sub_diag, skipn_all, skipn_O.
  cbn [app]. symmetry. apply insort_split; [exact H1|].
  destruct a2 as [|y a2]; [exact I|]. now apply Forall_inv in H2.
Qed.

Lemma binarysort_sort_loop run rest :
  StronglySorted (ascending key lt) run ->
  binarysort key lt run rest = sort_loop rest run.
Proof.
  unfold binarysort. revert run.
  induction rest as [|x rest IH]; intros run Hrun; [reflexivity|].
  cbn [fold_left]. rewrite binary_insert_insort by exact Hrun.
  apply IH. now apply insort_sorted.
Qed.

Lemma sort_loop_app l1 l2 acc :
  sort_loop (l1 ++ l2)%list acc = sort_loop l2 (sort_loop l1 acc).
Proof. apply fold_left_app. Qed.

(** The first run is what the insertion sort makes of the elements of
    the run. *)
Lemma count_run_sort_loop l :
  StronglySorted (ascending key lt) (fst (count_run key lt l))
  /\ sort_loop l []
     = sort_loop (snd (count_run key lt l)) (fst (count_run key lt l)).
Proof.
  destruct l as [|x0 [|x1 l]].
  - split; [constructor|reflexivity].
  - split; [repeat constructor|reflexivity].
  - cbn [count_run]. destruct (lt (key x1) (key x0)) eqn:H10.
    + pose proof (descending_run_app key lt x1 l) as Happ.
      pose proof (descending_run_loop x1 l [x0]) as Hloop.
      destruct (descending_run key lt x1 l) as [run rest].
      cbn [fst snd] in *.
      assert (Hrun : sort_loop (x0 :: x1 :: run) []
                     = rev (x0 :: x1 :: run)).
      { cbn [fold_left Py.insort]. rewrite H10, Hloop.
        cbn [rev]. now rewrite <- app_assoc. }
      split.
      * rewrite <- Hrun.
        apply (sort_loop_sorted key lt lt_asym lt_cotrans). constructor.
      * rewrite <- Hrun, <- Happ.
        change (x0 :: x1 :: run ++ rest)%list
          with ((x0 :: x1 :: run) ++ rest)%list.
        apply sort_loop_app.
    + pose proof (ascending_run_app key lt x1 l) as Happ.
      pose proof (ascending_run_chain x1 l) as Hchain.
      destruct (ascending_run key lt x1 l) as [run rest].
      cbn [fst snd] in *.
      assert (Hsorted : StronglySorted (ascending key lt) (x0 :: x1 :: run)).
      { apply chain_sorted. constructor; [exact Hchain|].
        constructor. exact H10. }
      split; [exact Hsorted|].
      rewrite <- Happ.
      change (x0 :: x1 :: run ++ rest)%list
        with ((x0 :: x1 :: run) ++ rest)%list.
      rewrite sort_loop_app. f_equal.
      apply (sort_loop_sorted_id key lt (x0 :: x1 :: run) [] Hsorted).
Qed.

Lemma list_sort_sort l : list_sort key lt l = Py.sort key lt l.
Proof.
  unfold list_sort, Py.sort.
  destruct (List.length l <? 64)%nat; [|reflexivity].
  destruct (count_run_sort_loop l) as [Hrun ->].
  destruct (count_run key lt l) as [run rest]. cbn [fst snd] in *.
  now apply binarysort_sort_loop.
Qed.
End ListSortStable.

(** The stable sort looks at the order of the keys only: another key
    with another order that compares the elements alike gives the same
    list. *)
Section SortKeyFacts.
Context {A K K' : Type} (key : A -> K) (lt : K -> K -> bool).
Context (key' : A -> K') (lt' : K' -> K' -> bool).
Hypothesis same_order :
  forall x y, lt (key x) (key y) = lt' (key' x) (key' y).

Lemma insort_key_ext x l : Py.insort key lt x l = Py.insort key' lt' x l.
Proof.
  induction l as [|y l IH]; [reflexivity|].
  cbn [Py.insort]. now rewrite same_order, IH.
Qed.

Lemma sort_key_ext l : Py.sort key lt l = Py.sort key' lt' l.
Proof.
  unfold Py.sort. generalize (@nil A).
  induction l as [|x l IH]; intros acc; [reflexivity|].
  cbn [fold_left]. now rewrite insort_key_ext, IH.
Qed.
End SortKeyFacts.

(** ** The ranking on floats *)

Module RankerFacts.
Import Py Ranker RankerSpec.

Lemma flt_total_asym a b : flt_total a b = true -> flt_total b a = false.
Proof.
  destruct a as [x| | |], b as [y| | |]; cbn; try easy.
  rewrite Qltb_lt, Qltb_ge. apply Qlt_le_weak.
Qed.

Lemma flt_total_cotrans a b c :
  flt_total a b = true -> flt_total a c = true \/ flt_total c b = true.
Proof.
  destruct a as [x| | |], b as [y| | |], c as [z| | |]; cbn; auto;
    try easy.
  rewrite !Qltb_lt. intros Hxy.
  destruct (Qlt_le_dec x z) as [Hxz|Hzx]; [now left|right].
  eapply Qle_lt_trans; eassumption.
Qed.

(** Where no NaN is compared, [<] is the order [flt_total]. *)
Lemma flt_flt_total a b : a <> NaN -> b <> NaN -> flt a b = flt_total a b.
Proof. destruct a, b; intros Ha Hb; try reflexivity; congruence. Qed.

Lemma feq_refl a b : feq a b = true -> feq a a = true.
Proof.
  destruct a, b; cbn; try easy. intros _. apply Qeq_bool_refl.
Qed.

Lemma feq_sym a b : feq a b = feq b a.
Proof. destruct a, b; cbn; try reflexivity. apply Qeq_bool_comm. Qed.

Lemma feq_tied {A} (key : A -> float) k :
  tied key flt_total (fun e => feq (key e) k).
Proof.
  intros x y Hx Hy.
  destruct (key x) as [a| | |], (key y) as [b| | |], k as [c| | |];
    cbn in *; try easy.
  apply Qeq_bool_iff in Hx, Hy. apply Qltb_ge. rewrite Hx, Hy.
  apply Qle_refl.
Qed.

Lemma ranker_perm metrics :
  Permutation (sorted_db_metrics metrics) (db_metrics metrics).
Proof. apply list_sort_perm. Qed.

Lemma ranker_In metrics x :
  In x (sorted_db_metrics metrics) <-> In x (db_metrics metrics).
Proof.
  rewrite <- !list_elem_of_In. now rewrite (ranker_perm metrics).
Qed.

Lemma ranker_db_metrics_paths metrics :
  map (fun x => fst (fst x)) (db_metrics metrics) = map fst metrics.
Proof.
  unfold db_metrics. rewrite List.map_map. apply map_ext.
  now intros [path entry].
Qed.

Lemma ranker_db_metrics_NoDup metrics :
  NoDup (map fst metrics) -> NoDup (db_metrics metrics).
Proof.
  rewrite <- ranker_db_metrics_paths.
  apply (NoDup_fmap_1 (fun x => fst (fst x))).
Qed.

(** The average error of a complete element of [db_metrics] is that of
    a complete entry of the mapping. *)
Lemma db_metrics_complete metrics path avg :
  complete_without_NaN metrics ->
  In (path, avg, true) (db_metrics metrics) -> avg <> NaN.
Proof.
  unfold complete_without_NaN, db_metrics. rewrite List.Forall_forall.
  intros H Hin. apply List.in_map_iff in Hin as ([p e] & Heq & Hin).
  injection Heq as _ Havg Hall. rewrite <- Havg.
  apply (H (p, e) Hin). exact Hall.
Qed.

Lemma sort_key_number metrics x :
  complete_without_NaN metrics ->
  In x (db_metrics metrics) -> sort_key x <> NaN.
Proof.
  destruct x as [[path avg] [|]]; cbn [sort_key].
  - apply db_metrics_complete.
  - intros _ _. discriminate.
Qed.

(** Where no complete entry has NaN, [list.sort] gives the list of the
    stable sort by the order [flt_total]. *)
Lemma ranker_sort metrics :
  complete_without_NaN metrics ->
  sorted_db_metrics metrics = Py.sort sort_key flt_total (db_metrics metrics).
Proof.
  intros H. unfold sorted_db_metrics.
  rewrite (list_sort_ext sort_key flt flt_total).
  - apply list_sort_sort; [apply flt_total_asym|apply flt_total_cotrans].
  - intros x y Hx Hy.
    apply flt_flt_total; eapply sort_key_number; eassumption.
Qed.

(** The keys of the ranked sequence ascend. *)
Lemma ranker_keys_ascend metrics x y :
  complete_without_NaN metrics ->
  before x y (sorted_db_metrics metrics) ->
  flt_total (sort_key y) (sort_key x) = false.
Proof.
  intros H Hb. rewrite ranker_sort in Hb by exact H.
  pose proof (sort_sorted sort_key flt_total flt_total_asym
                          flt_total_cotrans (db_metrics metrics)) as Hs.
  exact (sorted_before _ _ _ _ Hs Hb).
Qed.

Lemma ranker_complete_first metrics path1 avg1 complete1 path2 avg2 :
  complete_without_NaN metrics ->
  before (path1, avg1, complete1) (path2, avg2, true)
         (sorted_db_metrics metrics) ->
  avg2 <> PosInf -> complete1 = true.
Proof.
  intros H Hb Hinf.
  pose proof (ranker_keys_ascend _ _ _ H Hb) as Hle.
  destruct (before_In _ _ _ Hb) as [_ H2]. apply ranker_In in H2.
  pose proof (db_metrics_complete _ _ _ H H2) as Hnan.
  destruct complete1; [reflexivity|]. cbn [sort_key] in Hle.
  destruct avg2; cbn in Hle; congruence.
Qed.

Lemma ranker_ascending metrics path1 avg1 path2 avg2 :
  complete_without_NaN metrics ->
  before (path1, avg1, true) (path2, avg2, true)
         (sorted_db_metrics metrics) ->
  fle avg1 avg2 = true.
Proof.
  intros H Hb.
  pose proof (ranker_keys_ascend _ _ _ H Hb) as Hle.
  destruct (before_In _ _ _ Hb) as [H1 H2].
  apply ranker_In in H1, H2.
  pose proof (db_metrics_complete _ _ _ H H1) as Hnan1.
  pose proof (db_metrics_complete _ _ _ H H2) as Hnan2.
  cbn [sort_key] in Hle.
  destruct avg1, avg2; cbn in Hle |- *; try congruence.
  now rewrite Hle.
Qed.

Lemma ranker_keeps_order metrics x y :
  complete_without_NaN metrics ->
  feq (sort_key x) (sort_key y) = true ->
  before x y (db_metrics metrics) ->
  before x y (sorted_db_metrics metrics).
Proof.
  intros H Hxy Hb.
  set (f := fun e => feq (sort_key e) (sort_key x)).
  apply (filter_before f). rewrite ranker_sort by exact H.
  rewrite (sort_filter sort_key flt_total flt_total_asym
                       flt_total_cotrans f) by apply feq_tied.
  apply before_filter; [exact (feq_refl _ _ Hxy)| |exact Hb].
  unfold f. now rewrite feq_sym.
Qed.

Lemma ranker_order_kept metrics x y :
  complete_without_NaN metrics ->
  feq (sort_key x) (sort_key y) = true ->
  NoDup (map fst metrics) -> x <> y ->
  before x y (sorted_db_metrics metrics) ->
  before x y (db_metrics metrics).
Proof.
  intros H Hxy Hnd Hne Hout.
  destruct (before_In _ _ _ Hout) as [Hx Hy].
  apply ranker_In in Hx, Hy.
  destruct (before_total x y (db_metrics metrics) Hne Hx Hy) as [Hb|Hb];
    [exact Hb|].
  exfalso. apply (before_asym x y (sorted_db_metrics metrics)).
  - rewrite (ranker_perm metrics). now apply ranker_db_metrics_NoDup.
  - exact Hout.
  - apply ranker_keeps_order; [exact H| |exact Hb]. now rewrite feq_sym.
Qed.

(** C1 (amended). In a mapping no complete entry of which has NaN as
    its average error, the ranked sequence holds the entries of the
    mapping, each once. Of two entries of the ranked sequence, if the
    later one is complete and its average error is not [+inf], the
    earlier one is complete (no incomplete entry stands before such a
    complete one, whatever float is stored as its [AVG_tr_err]); and if
    both are complete, the average error of the earlier one is not
    greater than that of the later one. *)
Theorem ranker_complete_first_ascending
        (metrics : list (string * entry_metrics)) :
  complete_without_NaN metrics ->
  Permutation (sorted_db_metrics metrics) (db_metrics metrics)
  /\ forall path1 avg1 complete1 path2 avg2 complete2,
      before (path1, avg1, complete1) (path2, avg2, complete2)
             (sorted_db_metrics metrics) ->
      (complete2 = true -> avg2 <> PosInf -> complete1 = true)
      /\ (complete1 = true -> complete2 = true -> fle avg1 avg2 = true).
Proof.
  intros H. split; [apply ranker_perm|].
  intros path1 avg1 complete1 path2 avg2 complete2 Hb. split.
  - intros ->. exact (ranker_complete_first _ _ _ _ _ _ H Hb).
  - intros -> ->. exact (ranker_ascending _ _ _ _ _ H Hb).
Qed.

(** C6 (amended). In a mapping no complete entry of which has NaN as
    its average error, two entries with equal sort keys (both
    incomplete or complete with [+inf], or both complete with equal
    [AVG_tr_err]) stand in the ranked sequence in the order in which the
    mapping yields them: the one that the mapping yields first stands
    first in the ranking, and, the keys of a mapping being distinct, two
    different entries stand in the ranking in the order of the mapping
    only. *)
Theorem ranker_stable (metrics : list (string * entry_metrics))
        (x y : string * float * bool) :
  complete_without_NaN metrics ->
  feq (sort_key x) (sort_key y) = true ->
  (before x y (db_metrics metrics) ->
   before x y (sorted_db_metrics metrics))
  /\ (NoDup (map fst metrics) -> x <> y ->
      before x y (sorted_db_metrics metrics) ->
      before x y (db_metrics metrics)).
Proof.
  intros H Hxy. split.
  - now apply ranker_keeps_order.
  - now apply ranker_order_kept.
Qed.

(** *** The entries that the walk writes

    The walk stores numbers. On them the ranking on floats is the
    ranking [Benchmark.sorted_db_metrics], and the ranked sequence is
    as C1 and C6 state it. *)

Lemma read_metrics_numbers metrics :
  complete_without_NaN (read_metrics metrics).
Proof.
  unfold complete_without_NaN, read_metrics. apply List.Forall_forall.
  intros [path entry] Hin _.
  apply List.in_map_iff in Hin as ([path' entry'] & Heq & _).
  injection Heq as _ <-. discriminate.
Qed.

Lemma db_metrics_read metrics :
  db_metrics (read_metrics metrics)
  = map read_db_entry (Benchmark.db_metrics metrics).
Proof.
  unfold db_metrics, read_metrics, Benchmark.db_metrics.
  rewrite !List.map_map. apply map_ext. now intros [path entry].
Qed.

Lemma read_key_order x y :
  flt_total (sort_key (read_db_entry x)) (sort_key (read_db_entry y))
  = xlt (Benchmark.sort_key x) (Benchmark.sort_key y).
Proof. destruct x as [[p a] [|]], y as [[q b] [|]]; reflexivity. Qed.

Lemma ranking_of_numbers metrics :
  sorted_db_metrics (read_metrics metrics)
  = map read_db_entry (Benchmark.sorted_db_metrics metrics).
Proof.
  rewrite ranker_sort by apply read_metrics_numbers.
  rewrite db_metrics_read, sort_map. f_equal.
  apply sort_key_ext, read_key_order.
Qed.

Lemma numbers_complete_first_ascending metrics :
  complete_first_ascending (read_metrics metrics).
Proof.
  intros path1 avg1 complete1 path2 avg2 complete2 Hb.
  pose proof (read_metrics_numbers metrics) as H. split.
  - intros ->. apply (ranker_complete_first _ _ _ _ _ _ H Hb).
    destruct (before_In _ _ _ Hb) as [_ H2]. apply ranker_In in H2.
    rewrite db_metrics_read in H2.
    apply List.in_map_iff in H2 as ([[p a] c] & Heq & _).
    injection Heq as _ <- _. discriminate.
  - intros -> ->. exact (ranker_ascending _ _ _ _ _ H Hb).
Qed.

Lemma numbers_keep_encounter_order metrics :
  keeps_encounter_order (read_metrics metrics).
Proof.
  intros x y Hxy Hb.
  exact (ranker_keeps_order _ _ _ (read_metrics_numbers metrics) Hxy Hb).
Qed.
End RankerFacts.

(** ** Examples of the ranking on floats *)

Module RankerExamples.
Import Py Ranker RankerSpec RankerFixture.

Example sorted_float_input :
  sorted_db_metrics float_input
  = [("runs/m", NegInf, true); ("runs/b", Number 2, true);
     ("runs/p", Number 3, true); ("runs/q", Number 3, true);
     ("runs/a", Number 5, true); ("runs/x", NaN, false);
     ("runs/y", Number (-1), false)].
Proof. reflexivity. Qed.

Lemma float_input_without_NaN : complete_without_NaN float_input.
Proof. repeat constructor; cbn; congruence. Defined.

Lemma ranker_complete_first_ascending_witness :
  complete_without_NaN float_input
  /\ before ("runs/a", Number 5, true) ("runs/x", NaN, false)
            (sorted_db_metrics float_input)
  /\ before ("runs/m", NegInf, true) ("runs/b", Number 2, true)
            (sorted_db_metrics float_input)
  /\ (true = true -> Number 2 <> PosInf -> true = true)
  /\ (true = true -> true = true -> fle NegInf (Number 2) = true).
Proof.
  split; [exact float_input_without_NaN|].
  split.
  { exists [("runs/m", NegInf, true); ("runs/b", Number 2, true);
            ("runs/p", Number 3, true); ("runs/q", Number 3, true)],
      [], [("runs/y", Number (-1), false)].
    reflexivity. }
  assert (Hb : before ("runs/m", NegInf, true) ("runs/b", Number 2, true)
                      (sorted_db_metrics float_input)).
  { exists [], [],
      [("runs/p", Number 3, true); ("runs/q", Number 3, true);
       ("runs/a", Number 5, true); ("runs/x", NaN, false);
       ("runs/y", Number (-1), false)].
    reflexivity. }
  split; [exact Hb|].
  apply (proj2 (RankerFacts.ranker_complete_first_ascending
                  float_input float_input_without_NaN)
               "runs/m" _ _ "runs/b").
  exact Hb.
Defined.

Lemma ranker_stable_witness :
  complete_without_NaN float_input
  /\ feq (sort_key ("runs/x", NaN, false))
         (sort_key ("runs/y", Number (-1), false)) = true
  /\ before ("runs/x", NaN, false) ("runs/y", Number (-1), false)
            (db_metrics float_input)
  /\ before ("runs/x", NaN, false) ("runs/y", Number (-1), false)
            (sorted_db_metrics float_input).
Proof.
  assert (H : before ("runs/x", NaN, false) ("runs/y", Number (-1), false)
                     (db_metrics float_input)).
  { exists [], [("runs/a", Number 5, true); ("runs/p", Number 3, true)],
      [("runs/q", Number 3, true); ("runs/m", NegInf, true);
       ("runs/b", Number 2, true)].
    reflexivity. }
  split; [exact float_input_without_NaN|].
  split; [reflexivity|]. split; [exact H|].
  apply (proj1 (RankerFacts.ranker_stable
                  float_input ("runs/x", NaN, false)
                  ("runs/y", Number (-1), false)
                  float_input_without_NaN eq_refl)).
  exact H.
Defined.

(** C1, as stated, fails where a complete entry has NaN or [+inf] as
    its average error. [list.sort] leaves [nan_input], [nan_between] and
    [inf_input] as they are: in the first the incomplete entry stands
    before the two complete ones, in the second the average error [2]
    stands before the average error [1], and in the third the incomplete
    entry stands before the complete one, the keys of the two being
    [+inf]. *)
Lemma ranking_fails_on_NaN_and_inf :
  sorted_db_metrics nan_input
  = [("runs/x", Number (-1), false); ("runs/n", NaN, true);
     ("runs/a", Number 1, true)]
  /\ ~ complete_first_ascending nan_input
  /\ sorted_db_metrics nan_between
     = [("runs/b", Number 2, true); ("runs/n", NaN, true);
        ("runs/a", Number 1, true)]
  /\ fle (Number 2) (Number 1) = false
  /\ ~ complete_first_ascending nan_between
  /\ sorted_db_metrics inf_input
     = [("runs/x", Number (-1), false); ("runs/i", PosInf, true)]
  /\ ~ complete_first_ascending inf_input.
Proof.
  split; [reflexivity|]. split.
  { intros H.
    destruct (H "runs/x" (Number (-1)) false "runs/a" (Number 1) true)
      as [H1 _].
    - exists [], [("runs/n", NaN, true)], []. reflexivity.
    - specialize (H1 eq_refl). discriminate. }
  split; [reflexivity|]. split; [reflexivity|]. split.
  { intros H.
    destruct (H "runs/b" (Number 2) true "runs/a" (Number 1) true)
      as [_ H2].
    - exists [], [("runs/n", NaN, true)], []. reflexivity.
    - specialize (H2 eq_refl eq_refl). discriminate. }
  split; [reflexivity|].
  intros H.
  destruct (H "runs/x" (Number (-1)) false "runs/i" PosInf true)
    as [H1 _].
  - exists [], [], []. reflexivity.
  - specialize (H1 eq_refl). discriminate.
Qed.

(** C6, as stated, fails where a complete entry has NaN as its average
    error. In [nan_ties] the entries [runs/p5] and [runs/p6] have the
    average error [1], the mapping yields [runs/p5] first, and
    [list.sort] puts [runs/p6] first. *)
Lemma stability_fails_on_NaN :
  map (fun x => fst (fst x)) (sorted_db_metrics nan_ties)
  = ["runs/p0"; "runs/p1"; "runs/p3"; "runs/p6"; "runs/p2"; "runs/p4";
     "runs/p5"]
  /\ feq (sort_key ("runs/p5", Number 1, true))
         (sort_key ("runs/p6", Number 1, true)) = true
  /\ before ("runs/p5", Number 1, true) ("runs/p6", Number 1, true)
            (db_metrics nan_ties)
  /\ before ("runs/p6", Number 1, true) ("runs/p5", Number 1, true)
            (sorted_db_metrics nan_ties)
  /\ ~ keeps_encounter_order nan_ties.
Proof.
  assert (Hin : before ("runs/p5", Number 1, true)
                       ("runs/p6", Number 1, true) (db_metrics nan_ties)).
  { exists [("runs/p0", Number 1, true); ("runs/p1", Number 1, true);
            ("runs/p2", Number 2, true); ("runs/p3", Number 1, true);
            ("runs/p4", NaN, true)], [], [].
    reflexivity. }
  assert (Hout : before ("runs/p6", Number 1, true)
                        ("runs/p5", Number 1, true)
                        (sorted_db_metrics nan_ties)).
  { exists [("runs/p0", Number 1, true); ("runs/p1", Number 1, true);
            ("runs/p3", Number 1, true)],
      [("runs/p2", Number 2, true); ("runs/p4", NaN, true)], [].
    reflexivity. }
  split; [reflexivity|]. split; [reflexivity|].
  split; [exact Hin|]. split; [exact Hout|].
  intros H.
  apply (before_asym ("runs/p5", Number 1, true)
                     ("runs/p6", Number 1, true)
                     (sorted_db_metrics nan_ties)).
  - rewrite (RankerFacts.ranker_perm nan_ties).
    apply RankerFacts.ranker_db_metrics_NoDup.
    apply (bool_decide_unpack _). vm_compute. exact I.
  - apply H; [reflexivity|exact Hin].
  - exact Hout.
Qed.
End RankerExamples.
